(** * StudyTree LMS: the lecture processing pipeline of [backend/server.js]

    A shallow embedding of the processing core of the server: the AI client
    [callAI], the text post-processors ([formatTranscript], [generateSummary],
    [generateQuizzes]), frame extraction, the two orchestrators
    ([processLecture], [processYouTubeLecture]) and the status route.

    Conventions.
    - A JavaScript string is the list of its UTF-16 code units ([jsstring]).
    - Asynchronous code is written in a state-and-exception monad [M]:
      every [await] is a sequenced step, a rejected promise is an exception.
    - Everything outside the process (the HTTP endpoint of the AI backend, the
      media tools, the markup renderer, the database, the random number
      generator) is an oracle of the environment [Env]; each use is recorded
      in the trace of the world, in order.
    - [m w = (r, w')] reads: the computation [m], started in the world [w],
      settles with the outcome [r] and leaves the world [w']. The oracles
      describe the endings in which every promise settles. A tool that never
      ends leaves its promise pending, and an exception thrown inside a
      callback or an event listener ([readFileSync] or [unlinkSync] in the
      [close] listener of [transcribeWithWhisper]; the callback of [ffprobe]
      and the [end] listener, with its [readdirSync], in [extractFrames]) is
      not a rejection of the promise: neither has an outcome in [M]. The
      statements below are about the runs in which every step settles.
    - The numbers of a parsed JSON text and the duration of a video are kept
      as exact rationals; the arithmetic on the duration that stamps the
      slides is done in binary64, as the engine does it.
    - [console] output is not part of the model. *)

From Stdlib Require Import String Ascii DecimalString.
From Stdlib Require Import List ZArith NArith QArith Qround Bool.
From Stdlib Require Import Lia Permutation Arith.
From Stdlib Require Qcanon.
From Stdlib Require Floats.SpecFloat.
Import ListNotations.
Close Scope Q_scope.

Set Implicit Arguments.
Set Warnings "-register-all".

(* ================================================================= *)
(** ** JavaScript strings *)

Module Str.

Definition jsstring := list N.

(** The code units of an ASCII literal. *)
Definition js (s : string) : jsstring :=
  map N_of_ascii (list_ascii_of_string s).

(** Same, with every apostrophe of the literal standing for a double quote
    (code unit 34), to write JSON texts legibly. *)
Definition jsq (s : string) : jsstring :=
  map (fun c => if N.eqb c 39 then 34%N else c) (js s).

Definition newline : jsstring := [10%N].

Fixpoint eqb (s t : jsstring) : bool :=
  match s, t with
  | [], [] => true
  | c :: s', d :: t' => N.eqb c d && eqb s' t'
  | _, _ => false
  end.

Definition is_empty (s : jsstring) : bool :=
  match s with [] => true | _ => false end.

(** [s.indexOf(c)] for a one-unit search string: the first position of [c],
    or -1. *)
Fixpoint indexOf_from (c : N) (s : jsstring) (i : Z) : Z :=
  match s with
  | [] => (-1)%Z
  | x :: r => if N.eqb x c then i else indexOf_from c r (i + 1)%Z
  end.

Definition indexOf (s : jsstring) (c : N) : Z := indexOf_from c s 0%Z.

(** [s.lastIndexOf(c)]: the last position of [c], or -1. *)
Fixpoint lastIndexOf_from (c : N) (s : jsstring) (i found : Z) : Z :=
  match s with
  | [] => found
  | x :: r => lastIndexOf_from c r (i + 1)%Z (if N.eqb x c then i else found)
  end.

Definition lastIndexOf (s : jsstring) (c : N) : Z :=
  lastIndexOf_from c s 0%Z (-1)%Z.

(** [s.substring(a, b)]: both arguments are clamped to [0, length], and
    swapped when the first exceeds the second. *)
Definition clamp_index (len x : Z) : Z := Z.max 0 (Z.min x len).

Definition substring (s : jsstring) (a b : Z) : jsstring :=
  let len := Z.of_nat (length s) in
  let a' := clamp_index len a in
  let b' := clamp_index len b in
  let lo := Z.min a' b' in
  let hi := Z.max a' b' in
  firstn (Z.to_nat (hi - lo)) (skipn (Z.to_nat lo) s).

(** [s.startsWith(t)] and [s.includes(t)]. *)
Fixpoint starts_with (t s : jsstring) : bool :=
  match t, s with
  | [], _ => true
  | c :: t', d :: s' => N.eqb c d && starts_with t' s'
  | _ :: _, [] => false
  end.

Fixpoint includes (s t : jsstring) : bool :=
  starts_with t s || match s with [] => false | _ :: s' => includes s' t end.

(** [s.replace(pattern, replacement)] for a string pattern and a replacement
    without dollar signs: the first occurrence is replaced. *)
Fixpoint replace_first (s pattern replacement : jsstring) : jsstring :=
  if starts_with pattern s then replacement ++ skipn (length pattern) s
  else match s with
       | [] => []
       | c :: r => c :: replace_first r pattern replacement
       end.

(** White space and line terminators, as [trim] removes them. *)
Definition is_space (c : N) : bool :=
  (N.leb 9 c && N.leb c 13) || N.eqb c 32 || N.eqb c 160 || N.eqb c 5760
  || (N.leb 8192 c && N.leb c 8202) || N.eqb c 8232 || N.eqb c 8233
  || N.eqb c 8239 || N.eqb c 8287 || N.eqb c 12288 || N.eqb c 65279.

Fixpoint trim_start (s : jsstring) : jsstring :=
  match s with
  | c :: r => if is_space c then trim_start r else s
  | [] => []
  end.

Definition trim (s : jsstring) : jsstring :=
  rev (trim_start (rev (trim_start s))).

End Str.
Import Str.

(* ================================================================= *)
(** ** JSON values and [JSON.parse] *)

Module JSON.

(** A parsed JSON value. A number is kept as the exact rational its literal
    denotes, in lowest terms. The engine rounds it to binary64: the two agree
    on every literal binary64 represents exactly, in particular on the
    integers below 2^53, and no statement below is about any other number.
    An object is the list of its properties in insertion order, each key
    once (the engine enumerates integer-like keys first; the program reads
    properties by name only). *)
Inductive json : Type :=
| JNull
| JBool (b : bool)
| JNum (q : Q)
| JStr (s : jsstring)
| JArr (items : list json)
| JObj (fields : list (jsstring * json)).

Fixpoint get_field (k : jsstring) (fields : list (jsstring * json)) : option json :=
  match fields with
  | [] => None
  | (k', v) :: r => if Str.eqb k k' then Some v else get_field k r
  end.

(** Assignment to a property: an existing key keeps its place. *)
Fixpoint set_field (k : jsstring) (v : json) (fields : list (jsstring * json))
  : list (jsstring * json) :=
  match fields with
  | [] => [(k, v)]
  | (k', v') :: r =>
      if Str.eqb k k' then (k', v) :: r else (k', v') :: set_field k v r
  end.

(** *** Lexer: one pass over the code units *)

Inductive token : Type :=
| TLBracket | TRBracket | TLBrace | TRBrace | TColon | TComma
| TNull | TTrue | TFalse
| TNumber (q : Q)
| TString (s : jsstring).

(** Where we are inside a number literal: an optional minus; a zero, or a
    non-zero digit and more digits; optionally a dot and digits; optionally
    an exponent mark, a sign and digits. *)
Inductive num_state : Type :=
| NMinus | NZero | NInt | NDot | NFrac | NExp | NExpSign | NExpInt.

Record num_acc : Type := mk_num {
  n_neg : bool;      (* a leading minus *)
  n_mant : Z;        (* the digits of the integer and fraction parts *)
  n_scale : Z;       (* how many of them are fraction digits *)
  n_eneg : bool;     (* a minus in the exponent *)
  n_exp : Z          (* the digits of the exponent *)
}.

Definition num_value (a : num_acc) : Q :=
  let m := if n_neg a then (- n_mant a)%Z else n_mant a in
  let e := ((if n_eneg a then - n_exp a else n_exp a) - n_scale a)%Z in
  if (0 <=? e)%Z then Qred (Qmake (m * 10 ^ e) 1)
  else Qred (Qmake m (Z.to_pos (10 ^ (- e)))).

Inductive lex_mode : Type :=
| LStart
| LWord (expected : jsstring) (t : token)
| LNum (st : num_state) (a : num_acc)
| LStr (acc : jsstring)
| LEsc (acc : jsstring)
| LHex (acc : jsstring) (remaining : nat) (v : N).

Definition is_ws (c : N) : bool :=
  N.eqb c 32 || N.eqb c 9 || N.eqb c 10 || N.eqb c 13.

Definition digit_of (c : N) : option Z :=
  if (N.leb 48 c && N.leb c 57)%bool then Some (Z.of_N c - 48)%Z else None.

Definition hex_of (c : N) : option N :=
  if (N.leb 48 c && N.leb c 57)%bool then Some (c - 48)%N
  else if (N.leb 65 c && N.leb c 70)%bool then Some (c - 55)%N
  else if (N.leb 97 c && N.leb c 102)%bool then Some (c - 87)%N
  else None.

Definition num_start (neg : bool) (d : Z) : num_acc := mk_num neg d 0 false 0.

Definition lex_start (c : N) : option (list token * lex_mode) :=
  if is_ws c then Some ([], LStart)
  else if N.eqb c 91 then Some ([TLBracket], LStart)
  else if N.eqb c 93 then Some ([TRBracket], LStart)
  else if N.eqb c 123 then Some ([TLBrace], LStart)
  else if N.eqb c 125 then Some ([TRBrace], LStart)
  else if N.eqb c 58 then Some ([TColon], LStart)
  else if N.eqb c 44 then Some ([TComma], LStart)
  else if N.eqb c 34 then Some ([], LStr [])
  else if N.eqb c 45 then Some ([], LNum NMinus (num_start true 0))
  else if N.eqb c 48 then Some ([], LNum NZero (num_start false 0))
  else if N.eqb c 110 then Some ([], LWord (js "ull") TNull)
  else if N.eqb c 116 then Some ([], LWord (js "rue") TTrue)
  else if N.eqb c 102 then Some ([], LWord (js "alse") TFalse)
  else match digit_of c with
       | Some d => Some ([], LNum NInt (num_start false d))
       | None => None
       end.

Definition push_digit (a : num_acc) (d : Z) (frac : bool) : num_acc :=
  mk_num (n_neg a) (n_mant a * 10 + d) (if frac then n_scale a + 1 else n_scale a)
         (n_eneg a) (n_exp a).

Definition push_exp (a : num_acc) (d : Z) : num_acc :=
  mk_num (n_neg a) (n_mant a) (n_scale a) (n_eneg a) (n_exp a * 10 + d).

Definition set_eneg (a : num_acc) : num_acc :=
  mk_num (n_neg a) (n_mant a) (n_scale a) true (n_exp a).

Definition is_e (c : N) : bool := N.eqb c 101 || N.eqb c 69.

(** The literal is over: emit it and read [c] afresh. *)
Definition num_finish (a : num_acc) (c : N) : option (list token * lex_mode) :=
  match lex_start c with
  | Some (ts, m) => Some (TNumber (num_value a) :: ts, m)
  | None => None
  end.

Definition lex_num (st : num_state) (a : num_acc) (c : N)
  : option (list token * lex_mode) :=
  match st with
  | NMinus =>
      match digit_of c with
      | Some d => Some ([], LNum (if Z.eqb d 0 then NZero else NInt) (push_digit a d false))
      | None => None
      end
  | NZero =>
      if N.eqb c 46 then Some ([], LNum NDot a)
      else if is_e c then Some ([], LNum NExp a)
      else num_finish a c
  | NInt =>
      match digit_of c with
      | Some d => Some ([], LNum NInt (push_digit a d false))
      | None =>
          if N.eqb c 46 then Some ([], LNum NDot a)
          else if is_e c then Some ([], LNum NExp a)
          else num_finish a c
      end
  | NDot =>
      match digit_of c with
      | Some d => Some ([], LNum NFrac (push_digit a d true))
      | None => None
      end
  | NFrac =>
      match digit_of c with
      | Some d => Some ([], LNum NFrac (push_digit a d true))
      | None => if is_e c then Some ([], LNum NExp a) else num_finish a c
      end
  | NExp =>
      if N.eqb c 43 then Some ([], LNum NExpSign a)
      else if N.eqb c 45 then Some ([], LNum NExpSign (set_eneg a))
      else match digit_of c with
           | Some d => Some ([], LNum NExpInt (push_exp a d))
           | None => None
           end
  | NExpSign =>
      match digit_of c with
      | Some d => Some ([], LNum NExpInt (push_exp a d))
      | None => None
      end
  | NExpInt =>
      match digit_of c with
      | Some d => Some ([], LNum NExpInt (push_exp a d))
      | None => num_finish a c
      end
  end.

Definition lex_escape (acc : jsstring) (c : N) : option (list token * lex_mode) :=
  if N.eqb c 34 then Some ([], LStr (34%N :: acc))
  else if N.eqb c 92 then Some ([], LStr (92%N :: acc))
  else if N.eqb c 47 then Some ([], LStr (47%N :: acc))
  else if N.eqb c 98 then Some ([], LStr (8%N :: acc))
  else if N.eqb c 102 then Some ([], LStr (12%N :: acc))
  else if N.eqb c 110 then Some ([], LStr (10%N :: acc))
  else if N.eqb c 114 then Some ([], LStr (13%N :: acc))
  else if N.eqb c 116 then Some ([], LStr (9%N :: acc))
  else if N.eqb c 117 then Some ([], LHex acc 3 0%N)
  else None.

Definition lex_step (m : lex_mode) (c : N) : option (list token * lex_mode) :=
  match m with
  | LStart => lex_start c
  | LWord expected t =>
      match expected with
      | [] => None
      | e :: rest =>
          if N.eqb c e
          then match rest with
               | [] => Some ([t], LStart)
               | _ => Some ([], LWord rest t)
               end
          else None
      end
  | LNum st a => lex_num st a c
  | LStr acc =>
      if N.eqb c 34 then Some ([TString (rev acc)], LStart)
      else if N.eqb c 92 then Some ([], LEsc acc)
      else if N.ltb c 32 then None
      else Some ([], LStr (c :: acc))
  | LEsc acc => lex_escape acc c
  | LHex acc remaining v =>
      match hex_of c with
      | Some d =>
          let v' := (v * 16 + d)%N in
          match remaining with
          | O => Some ([], LStr (v' :: acc))
          | S k => Some ([], LHex acc k v')
          end
      | None => None
      end
  end.

(** At the end of the text only a finished number may still be open. *)
Definition lex_end (m : lex_mode) : option (list token) :=
  match m with
  | LStart => Some []
  | LNum NZero a | LNum NInt a | LNum NFrac a | LNum NExpInt a =>
      Some [TNumber (num_value a)]
  | _ => None
  end.

Fixpoint lex (m : lex_mode) (s : jsstring) : option (list token) :=
  match s with
  | [] => lex_end m
  | c :: r =>
      match lex_step m c with
      | Some (ts, m') =>
          match lex m' r with
          | Some rest => Some (ts ++ rest)
          | None => None
          end
      | None => None
      end
  end.

(** *** Parser: a stack machine over the tokens *)

Inductive frame : Type :=
| FArr (acc : list json)                                  (* items so far, reversed *)
| FObj (acc : list (jsstring * json)) (key : option jsstring).

Inductive expect : Type :=
| EValue          (* a value must follow *)
| EValueOrClose   (* just after an opening bracket *)
| EKeyOrClose     (* just after an opening brace *)
| EKey            (* after a comma inside an object *)
| EColon          (* after a key *)
| ESep            (* after a value inside a container *)
| EEnd (v : json) (* the whole value has been read *).

(** A finished value goes to the enclosing container, or is the result. *)
Definition deliver (v : json) (stack : list frame) : option (list frame * expect) :=
  match stack with
  | [] => Some ([], EEnd v)
  | FArr acc :: st => Some (FArr (v :: acc) :: st, ESep)
  | FObj acc (Some k) :: st => Some (FObj (set_field k v acc) None :: st, ESep)
  | FObj _ None :: _ => None
  end.

Definition wants_value (e : expect) : bool :=
  match e with EValue | EValueOrClose => true | _ => false end.

Definition parse_step (stack : list frame) (e : expect) (t : token)
  : option (list frame * expect) :=
  match t with
  | TNull => if wants_value e then deliver JNull stack else None
  | TTrue => if wants_value e then deliver (JBool true) stack else None
  | TFalse => if wants_value e then deliver (JBool false) stack else None
  | TNumber q => if wants_value e then deliver (JNum q) stack else None
  | TString s =>
      match e, stack with
      | EValue, _ | EValueOrClose, _ => deliver (JStr s) stack
      | EKeyOrClose, FObj acc None :: st | EKey, FObj acc None :: st =>
          Some (FObj acc (Some s) :: st, EColon)
      | _, _ => None
      end
  | TLBracket => if wants_value e then Some (FArr [] :: stack, EValueOrClose) else None
  | TLBrace => if wants_value e then Some (FObj [] None :: stack, EKeyOrClose) else None
  | TRBracket =>
      match e, stack with
      | EValueOrClose, FArr acc :: st | ESep, FArr acc :: st =>
          deliver (JArr (rev acc)) st
      | _, _ => None
      end
  | TRBrace =>
      match e, stack with
      | EKeyOrClose, FObj acc None :: st | ESep, FObj acc None :: st =>
          deliver (JObj acc) st
      | _, _ => None
      end
  | TColon => match e with EColon => Some (stack, EValue) | _ => None end
  | TComma =>
      match e, stack with
      | ESep, FArr _ :: _ => Some (stack, EValue)
      | ESep, FObj _ None :: _ => Some (stack, EKey)
      | _, _ => None
      end
  end.

Fixpoint parse_tokens (stack : list frame) (e : expect) (ts : list token)
  : option json :=
  match ts with
  | [] => match e, stack with EEnd v, [] => Some v | _, _ => None end
  | t :: r =>
      match parse_step stack e t with
      | Some (stack', e') => parse_tokens stack' e' r
      | None => None
      end
  end.

(** [JSON.parse(text)]: [None] stands for the [SyntaxError] it throws. *)
Definition parse (text : jsstring) : option json :=
  match lex LStart text with
  | Some ts => parse_tokens [] EValue ts
  | None => None
  end.

End JSON.
Import JSON.

(* ================================================================= *)
(** ** The fragment of JavaScript the quiz shuffle runs on *)

Module JS.

Inductive error_kind : Type := Error | TypeError | SyntaxError.

(** A thrown value. The program only ever reads [message]. The messages of
    the errors the engine itself raises are engine-defined; the texts used
    below are V8's, and the program never inspects them. *)
Record exn : Type := mk_exn { kind : error_kind; message : jsstring }.

Definition new_Error (msg : jsstring) : exn := mk_exn Error msg.

Definition null_property_error (name : jsstring) : exn :=
  mk_exn TypeError (js "Cannot read properties of null (reading '" ++ name ++ js "')").
Definition not_a_function_error (what : jsstring) : exn :=
  mk_exn TypeError (what ++ js " is not a function").
Definition to_primitive_error : exn :=
  mk_exn TypeError (js "Cannot convert object to primitive value").
Definition json_syntax_error : exn :=
  mk_exn SyntaxError (js "Unexpected token in JSON").

Inductive outcome (A : Type) : Type :=
| Returned (a : A)
| Thrown (e : exn).
Arguments Thrown {A} e.

(** [ToBoolean] of a property that may be missing ([None] is [undefined]). *)
Definition truthy (v : option json) : bool :=
  match v with
  | None => false
  | Some JNull => false
  | Some (JBool b) => b
  | Some (JNum q) => negb (Qeq_bool q 0)
  | Some (JStr s) => negb (Str.is_empty s)
  | Some (JArr _) | Some (JObj _) => true
  end.

(** *** Computed property keys

    [options[k]] first turns [k] into a property key. On an array only two
    kinds of key can name a parsed value or a number: an array index and
    [length]. Every other key names nothing, or a built-in of the prototype
    chain, which is not strictly equal to any parsed value. *)
Inductive prop_key : Type :=
| KIndex (n : N)
| KLength
| KOther.

Definition is_digit (c : N) : bool := N.leb 48 c && N.leb c 57.

Definition decimal_value (s : jsstring) : N :=
  fold_left (fun acc c => (acc * 10 + (c - 48))%N) s 0%N.

Definition max_array_index : N := 4294967295.

(** A canonical numeric string below 2^32 - 1 is an array index. *)
Definition key_of_string (s : jsstring) : prop_key :=
  if Str.eqb s (js "length") then KLength
  else match s with
       | [] => KOther
       | c :: r =>
           if forallb is_digit s && (negb (N.eqb c 48) || Str.is_empty r)
           then if N.ltb (decimal_value s) max_array_index
                then KIndex (decimal_value s) else KOther
           else KOther
       end.

(** [ToString] of a number is a canonical index exactly when the number is a
    non-negative integer below 2^32 - 1 (the string of -0 is "0"). *)
Definition key_of_number (q : Q) : prop_key :=
  let r := Qred q in
  if Pos.eqb (Qden r) 1 && Z.leb 0 (Qnum r) && N.ltb (Z.to_N (Qnum r)) max_array_index
  then KIndex (Z.to_N (Qnum r)) else KOther.

(** [ToString] of an object without a callable [toString] or [valueOf] throws:
    a parsed object has a callable [toString] (the inherited one) unless it
    has a property of that name, whose value cannot be a function; then the
    inherited [valueOf] returns the object itself, or an own [valueOf]
    property is not callable either. An array is joined, which converts each
    item (except [null]) in turn. *)
Fixpoint to_string_throws (j : json) : bool :=
  match j with
  | JObj fields =>
      match get_field (js "toString") fields with Some _ => true | None => false end
  | JArr items => existsb to_string_throws items
  | _ => false
  end.

(** The key of a value whose conversion does not throw. The string of a
    one-item array is the string of the item (empty for [null]); a longer
    array contains a comma; an object gives "[object Object]". *)
Fixpoint key_of (j : json) : prop_key :=
  match j with
  | JStr s => key_of_string s
  | JNum q => key_of_number q
  | JArr [JNull] => KOther
  | JArr [x] => key_of x
  | _ => KOther
  end.

Definition to_property_key (j : json) : outcome prop_key :=
  if to_string_throws j then Thrown to_primitive_error else Returned (key_of j).

(** The value read by [options[k]], as far as strict equality with the items
    of the array can tell: an item (with its position, which identifies it
    when it is an object or an array), a number made on the spot, or a value
    equal to no item ([undefined], or a built-in). *)
Inductive looked_up : Type :=
| Item (pos : nat) (v : json)
| Fresh (v : json)
| Nothing.

Fixpoint item_at (items : list json) (n : N) (pos : nat) : looked_up :=
  match items with
  | [] => Nothing
  | x :: r => if N.eqb n 0 then Item pos x else item_at r (N.pred n) (S pos)
  end.

Definition array_get (items : list json) (k : prop_key) : looked_up :=
  match k with
  | KIndex n => item_at items n 0
  | KLength => Fresh (JNum (inject_Z (Z.of_nat (length items))))
  | KOther => Nothing
  end.

(** [===] on primitives. *)
Definition prim_eqb (v w : json) : bool :=
  match v, w with
  | JNull, JNull => true
  | JBool a, JBool b => Bool.eqb a b
  | JNum p, JNum q => Qeq_bool p q
  | JStr s, JStr t => Str.eqb s t
  | _, _ => false
  end.

(** [===] between what was looked up and an item of the array, tagged with
    the position it had when it was parsed: objects and arrays are equal
    only to themselves. *)
Definition strict_equals (text : looked_up) (item : nat * json) : bool :=
  match text with
  | Nothing => false
  | Fresh v => prim_eqb v (snd item)
  | Item pos (JArr _) | Item pos (JObj _) => Nat.eqb pos (fst item)
  | Item _ v => prim_eqb v (snd item)
  end.

(** [array.indexOf(text)]. *)
Fixpoint array_indexOf_from (text : looked_up) (items : list (nat * json)) (i : Z) : Z :=
  match items with
  | [] => (-1)%Z
  | x :: r => if strict_equals text x then i else array_indexOf_from text r (i + 1)%Z
  end.

Definition array_indexOf (items : list (nat * json)) (text : looked_up) : Z :=
  array_indexOf_from text items 0%Z.

Definition tag (items : list json) : list (nat * json) :=
  combine (seq 0 (length items)) items.

(** *** The order left by [sort] with a random comparator

    [options.sort(() => Math.random() - 0.5)]: the comparator ignores its
    arguments, so the engine's sort leaves the items in an order that depends
    on the random numbers only: some rearrangement. It is described by a
    sequence of insertion positions, the first item of the array going to
    position [c0] of the rearranged rest, and so on; every rearrangement has
    such a description ([rearrange_complete]). *)
Fixpoint insert_at {A : Type} (n : nat) (x : A) (l : list A) : list A :=
  match n, l with
  | S n', y :: r => y :: insert_at n' x r
  | _, _ => x :: l
  end.

Fixpoint rearrange {A : Type} (choices : list nat) (l : list A) : list A :=
  match l with
  | [] => []
  | x :: r => insert_at (hd 0 choices) x (rearrange (tl choices) r)
  end.

End JS.
Import JS.

(* ================================================================= *)
(** ** The lecture record ([lectureSchema]) and its partial updates *)

(** *** Numbers in arithmetic

    Where the program computes with a number, the number is a binary64
    value: [spec_float] of the Standard Library with 53 bits of precision
    and exponents up to 1024, every operation rounding to nearest, ties to
    even. *)
Definition number : Type := SpecFloat.spec_float.

Definition number_mul : number -> number -> number := SpecFloat.SFmul 53 1024.
Definition number_div : number -> number -> number := SpecFloat.SFdiv 53 1024.

(** The number nearest to [m * 2^e]. *)
Definition nearest (m e : Z) : number := SpecFloat.binary_normalize 53 1024 m e false.

Definition number_of_Z (z : Z) : number := nearest z 0.

(** The number nearest to a rational. The quotient is taken to at least 56
    bits; one more bit at its end says whether the division left a
    remainder, so that the one rounding of [nearest] is that of the
    rational itself. A rational that is a binary64 value is returned as it
    is. *)
Definition number_of_Q (q : Q) : number :=
  let n := Z.abs (Qnum q) in
  let d := Zpos (Qden q) in
  let s := Z.max 0 (56 + Z.log2 d - Z.log2 n) in
  let quotient := Z.div (n * 2 ^ s) d in
  let sticky := if Z.eqb (Z.modulo (n * 2 ^ s) d) 0 then 0%Z else 1%Z in
  nearest (Z.sgn (Qnum q) * (2 * quotient + sticky)) (- s - 1).

(** [Math.floor]: a number with no fractional bits, an infinity and NaN are
    returned as they are; the floor of any other number is below 2^53 in
    magnitude, so [nearest] does not round it. A zero result has the sign
    of the argument. *)
Definition Math_floor (x : number) : number :=
  match x with
  | SpecFloat.S754_finite sign m e =>
      if Z.leb 0 e then x
      else SpecFloat.binary_normalize 53 1024
             (Z.div (if sign then Zneg m else Zpos m) (2 ^ (- e))) 0 sign
  | _ => x
  end.

Record slide : Type := mk_slide { timestamp : number; image : jsstring }.

(** One document of the [Lecture] collection. [None] is a field that is
    absent or [null]. The schema puts no constraint on [processingStage]
    beyond its being a string. *)
Record Lecture : Type := mk_Lecture {
  title : jsstring;
  videoPath : option jsstring;
  youtubeUrl : option jsstring;
  duration : option Q;
  transcriptMd : option jsstring;
  transcriptHtml : option jsstring;
  summaryMd : option jsstring;
  summaryHtml : option jsstring;
  slides : option (list slide);
  quizzes : option (list json);
  uploadDate : Z;
  processingError : option jsstring;
  source : jsstring;
  processingStage : jsstring
}.

(** The second argument of [findByIdAndUpdate]: the fields it names. For
    [processingError], [Some None] is the explicit [null] of the final
    update. *)
Record Patch : Type := mk_Patch {
  p_videoPath : option jsstring;
  p_transcriptMd : option jsstring;
  p_transcriptHtml : option jsstring;
  p_summaryMd : option jsstring;
  p_summaryHtml : option jsstring;
  p_quizzes : option (list json);
  p_slides : option (list slide);
  p_processingError : option (option jsstring);
  p_processingStage : option jsstring
}.

Definition no_change : Patch :=
  mk_Patch None None None None None None None None None.

Definition or_keep {A : Type} (new old : option A) : option A :=
  match new with Some _ => new | None => old end.

(** Merge semantics: a field the update does not name keeps its value. *)
Definition apply_patch (p : Patch) (l : Lecture) : Lecture :=
  mk_Lecture
    (title l)
    (or_keep (p_videoPath p) (videoPath l))
    (youtubeUrl l)
    (duration l)
    (or_keep (p_transcriptMd p) (transcriptMd l))
    (or_keep (p_transcriptHtml p) (transcriptHtml l))
    (or_keep (p_summaryMd p) (summaryMd l))
    (or_keep (p_summaryHtml p) (summaryHtml l))
    (or_keep (p_slides p) (slides l))
    (or_keep (p_quizzes p) (quizzes l))
    (uploadDate l)
    (match p_processingError p with Some e => e | None => processingError l end)
    (source l)
    (match p_processingStage p with Some s => s | None => processingStage l end).

(** The stage names the program writes. *)
Definition uploaded : jsstring := js "uploaded".
Definition downloading : jsstring := js "downloading".
Definition extracting_audio : jsstring := js "extracting_audio".
Definition transcribing : jsstring := js "transcribing".
Definition summarizing : jsstring := js "summarizing".
Definition complete : jsstring := js "complete".
Definition failed : jsstring := js "failed".

(** The documents the two upload routes create, with the schema defaults. *)
Definition new_Lecture (title0 : jsstring) (path url : option jsstring)
           (source0 : jsstring) (now : Z) : Lecture :=
  mk_Lecture title0 path url None None None None None (Some []) (Some [])
             now None source0 uploaded.

Definition new_file_Lecture (title0 path : jsstring) (now : Z) : Lecture :=
  new_Lecture title0 (Some path) None (js "file") now.

Definition new_youtube_Lecture (title0 url : jsstring) (now : Z) : Lecture :=
  new_Lecture title0 None (Some url) (js "youtube") now.

(* ================================================================= *)
(** ** The world outside the process *)

Record chat_message : Type := mk_message { role : jsstring; content : jsstring }.

(** The POST to [/chat/completions]: where it goes, the [Authorization]
    header and the body. *)
Record ai_request : Type := mk_request {
  url : jsstring;
  authorization : jsstring;
  model : jsstring;
  messages : list chat_message;
  max_tokens : Z;
  temperature : Q
}.

(** What [axios.post] and the reading of [choices[0].message.content] come
    to: the text, or a failure (transport error, non-success status, or a
    body of another shape) with what the handler would log as its reason. *)
Inductive http_outcome : Type :=
| HttpContent (text : jsstring)
| HttpFailure (reason : jsstring).

(** Every effect on the outside, in the order it happens. *)
Inductive event : Type :=
| EvUpdate (lectureId : jsstring) (p : Patch) (accepted : bool)
| EvDownload (url lectureId : jsstring)
| EvExtractAudio (videoPath audioPath : jsstring)
| EvTranscribe (audioPath : jsstring)
| EvPost (req : ai_request)
| EvRender (markdown : jsstring)
| EvEnsureDir (dir : jsstring)
| EvProbe (videoPath : jsstring)
| EvScreenshots (videoPath : jsstring) (count : Z) (folder : jsstring)
| EvUnlink (path : jsstring).

(** How a subprocess ends: with an exit code ([None] when a signal ended
    it), or by failing to start. *)
Inductive process_end : Type :=
| Closed (code : option Z)
| NotStarted (reason : jsstring).

(** The same for the transcription tool, with what it wrote to its error
    stream and the contents of the text file it left, if there is one. *)
Inductive whisper_end : Type :=
| WhisperClosed (code : option Z) (errorOutput : jsstring) (output : option jsstring)
| WhisperNotStarted (reason : jsstring).

(** The oracles. Each is asked at a time (the number of events so far) and
    answers with a value or with the error the tool reports.
    [store_update] is the database accepting or rejecting a write;
    [sort_order] describes the order the [k]-th randomised sort leaves;
    [path_extname] is the library function of that name. *)
Record Env : Type := mk_Env {
  OPENROUTER_API_KEY : option jsstring;
  OPENROUTER_MODEL : jsstring;
  path_extname : jsstring -> jsstring;
  axios_post : nat -> ai_request -> http_outcome;
  yt_dlp : nat -> jsstring -> jsstring -> process_end;
  ffmpeg_audio : nat -> jsstring -> jsstring -> outcome unit;
  whisper : nat -> jsstring -> whisper_end;
  remark_html : nat -> jsstring -> outcome jsstring;
  make_dir : nat -> jsstring -> outcome unit;
  ffprobe : nat -> jsstring -> outcome Q;
  ffmpeg_screenshots : nat -> jsstring -> Z -> jsstring -> outcome (list jsstring);
  unlink_file : nat -> jsstring -> outcome unit;
  store_update : nat -> jsstring -> Patch -> outcome unit;
  sort_order : nat -> list nat
}.

(** The state a run sees and changes. [db] is the store restricted to the
    lecture of the run (the orchestrators touch no other document, and the
    routes save the document before they start the run). [trace] has the
    latest event first. [history] is a ghost: every state the document has
    been in, latest first. *)
Record World : Type := mk_World {
  db : Lecture;
  trace : list event;
  sorts : nat;
  history : list Lecture
}.

Definition start (l : Lecture) : World := mk_World l [] 0 [l].

(** Events in the order they happened. *)
Definition chronicle (w : World) : list event := rev (trace w).

(* ================================================================= *)
(** ** The monad of asynchronous code *)

Definition M (A : Type) : Type := World -> outcome A * World.

Definition ret {A : Type} (a : A) : M A := fun w => (Returned a, w).

Definition throw {A : Type} (e : exn) : M A := fun w => (Thrown e, w).

Definition bind {A B : Type} (m : M A) (k : A -> M B) : M B :=
  fun w =>
    match m w with
    | (Returned a, w') => k a w'
    | (Thrown e, w') => (Thrown e, w')
    end.

(** [try { body } catch (e) { handler }]. *)
Definition try_catch {A : Type} (body : M A) (handler : exn -> M A) : M A :=
  fun w =>
    match body w with
    | (Returned a, w') => (Returned a, w')
    | (Thrown e, w') => handler e w'
    end.

Declare Scope js_scope.
Delimit Scope js_scope with js.
Notation "x <- m ;; k" := (bind m (fun x => k))
  (at level 61, m at next level, right associativity) : js_scope.
Notation "m ;; k" := (bind m (fun _ => k))
  (at level 61, right associativity) : js_scope.
Open Scope js_scope.

Definition record_event (ev : event) (w : World) : World :=
  mk_World (db w) (ev :: trace w) (sorts w) (history w).

(** One use of a tool: the event is recorded, the oracle answers. *)
Definition tool {A : Type} (ev : event) (oracle : nat -> outcome A) : M A :=
  fun w => (oracle (length (trace w)), record_event ev w).

(** [Lecture.findByIdAndUpdate(lectureId, p)]. *)
Definition findByIdAndUpdate (env : Env) (lectureId : jsstring) (p : Patch) : M unit :=
  fun w =>
    match store_update env (length (trace w)) lectureId p with
    | Returned _ =>
        let l := apply_patch p (db w) in
        (Returned tt,
         mk_World l (EvUpdate lectureId p true :: trace w) (sorts w) (l :: history w))
    | Thrown e =>
        (Thrown e,
         mk_World (db w) (EvUpdate lectureId p false :: trace w) (sorts w) (history w))
    end.

(** [array.sort(() => Math.random() - 0.5)]. *)
Definition sort_randomly {A : Type} (env : Env) (l : list A) : M (list A) :=
  fun w =>
    (Returned (rearrange (sort_order env (sorts w)) l),
     mk_World (db w) (trace w) (S (sorts w)) (history w)).

(* ================================================================= *)
(** ** The program *)

Definition frames_dir (lectureId : jsstring) : jsstring :=
  js "uploads/frames_" ++ lectureId.

Definition OPENROUTER_BASE_URL : jsstring := js "https://openrouter.ai/api/v1".

(** The request [callAI] sends for given messages and token budget. *)
Definition request_of (env : Env) (msgs : list chat_message) (maxTokens : Z)
  : ai_request :=
  mk_request
    (OPENROUTER_BASE_URL ++ js "/chat/completions")
    (js "Bearer " ++ match OPENROUTER_API_KEY env with Some k => k | None => [] end)
    (OPENROUTER_MODEL env) msgs maxTokens (7 # 10).

Section Program.

Variable env : Env.

(** *** [callAI] *)

Definition missing_key_message : jsstring :=
  js "OpenRouter API key is not configured in .env file.".

Definition ai_failure_message : jsstring :=
  js "Failed to communicate with the AI model.".

(** [!OPENROUTER_API_KEY]: unset, or set to the empty string. *)
Definition no_api_key : bool :=
  match OPENROUTER_API_KEY env with
  | None => true
  | Some k => Str.is_empty k
  end.

Definition callAI (msgs : list chat_message) (maxTokens : Z) : M jsstring :=
  if no_api_key then throw (new_Error missing_key_message)
  else
    let req := request_of env msgs maxTokens in
    fun w =>
      match axios_post env (length (trace w)) req with
      | HttpContent text => (Returned text, record_event (EvPost req) w)
      | HttpFailure reason =>
          (Thrown (new_Error ai_failure_message), record_event (EvPost req) w)
      end.

Definition default_maxTokens : Z := 1500.

Definition user (text : jsstring) : list chat_message :=
  [mk_message (js "user") text].

(** *** Text post-processors *)

Definition formatTranscript (rawTranscript : jsstring) : M jsstring :=
  callAI
    (user (js "Format this raw transcript by adding paragraph breaks for readability. Do not change any words:"
           ++ newline ++ newline ++ rawTranscript))
    2500.

Definition generateSummary (transcript : jsstring) : M jsstring :=
  callAI
    (user (js "Create a comprehensive summary of this transcript. Use headings and bullet points:"
           ++ newline ++ newline ++ transcript))
    default_maxTokens.

(** *** [generateQuizzes] *)

Definition first_prompt (transcript : jsstring) : jsstring :=
  jsq "Based on this transcript, create 5 multiple choice questions with 4 options each. Return ONLY a valid JSON array in this exact format, with no other text or explanation: [{'question': '...', 'options': ['A', 'B', 'C', 'D'], 'correctAnswer': 1, 'explanation': '...'}]"
  ++ newline ++ newline ++ js "Transcript: " ++ transcript.

Definition corrective_prompt (lastResponse : jsstring) : jsstring :=
  js "The following text is not valid JSON. Please fix any syntax errors (like unescaped quotes or trailing commas) and return ONLY the corrected, valid JSON array, with no other text:"
  ++ newline ++ newline ++ lastResponse.

Definition quiz_failure_message (lastResponse : jsstring) : jsstring :=
  js "The AI failed to generate a valid quiz after multiple attempts. Last response: "
  ++ lastResponse.

Definition open_bracket : N := 91.
Definition close_bracket : N := 93.

(** Lines 180-185: the substring handed to [JSON.parse]. *)
Definition extract_json (response : jsstring) : outcome jsstring :=
  let startIndex := Str.indexOf response open_bracket in
  let endIndex := Str.lastIndexOf response close_bracket in
  if (Z.eqb startIndex (-1) || Z.eqb endIndex (-1))%bool
  then Thrown (new_Error (js "AI response did not contain a JSON array."))
  else Returned (Str.substring response startIndex (endIndex + 1)).

(** Lines 180-188: the value of [quizzes] after [JSON.parse]. *)
Definition parse_quiz_response (response : jsstring) : outcome json :=
  match extract_json response with
  | Thrown e => Thrown e
  | Returned jsonString =>
      match JSON.parse jsonString with
      | Some v => Returned v
      | None => Thrown json_syntax_error
      end
  end.

Definition options_key : jsstring := js "options".
Definition correctAnswer_key : jsstring := js "correctAnswer".

(** The body of the [forEach] callback (lines 192-196) on one item. Reading
    a property of [null] throws; the two names are properties of no other
    value than an object that has them. On a truthy [options] that is not an
    array, [options.sort] is not a function. *)
Definition shuffle_quiz (quiz : json) : M json :=
  match quiz with
  | JNull => throw (null_property_error options_key)
  | JObj fields =>
      let options := get_field options_key fields in
      match get_field correctAnswer_key fields with
      | Some correctAnswer =>
          if truthy options then
            match to_property_key correctAnswer with
            | Thrown e => throw e
            | Returned key =>
                match options with
                | Some (JArr items) =>
                    let correctAnswerText := array_get items key in
                    sorted <- sort_randomly env (tag items) ;;
                    ret (JObj (set_field correctAnswer_key
                                 (JNum (inject_Z (array_indexOf sorted correctAnswerText)))
                                 (set_field options_key (JArr (map snd sorted)) fields)))
                | _ => throw (not_a_function_error (js "quiz.options.sort"))
                end
            end
          else ret quiz
      | None => ret quiz
      end
  | _ => ret quiz
  end.

Fixpoint forEach_shuffle (items : list json) : M (list json) :=
  match items with
  | [] => ret []
  | quiz :: rest =>
      quiz' <- shuffle_quiz quiz ;;
      rest' <- forEach_shuffle rest ;;
      ret (quiz' :: rest')
  end.

(** [quizzes.forEach(...)]: only an array has [forEach]. *)
Definition shuffle_all (quizzes : json) : M (list json) :=
  match quizzes with
  | JArr items => forEach_shuffle items
  | _ => throw (not_a_function_error (js "quizzes.forEach"))
  end.

(** What follows [lastResponse = response] inside the [try]. *)
Definition parse_and_shuffle (response : jsstring) : M (list json) :=
  match parse_quiz_response response with
  | Thrown e => throw e
  | Returned quizzes => shuffle_all quizzes
  end.

(** The [for] loop, [remaining] iterations from [i] on. The local variable
    [lastResponse] is assigned between the call and the parsing, so the
    [catch] sees the old value when the call threw and the new one when a
    later statement did: the [try] is split at the assignment. A loop that
    runs out returns [undefined] ([None]). *)
Fixpoint quiz_loop (remaining i : nat) (transcript lastResponse : jsstring)
  : M (option (list json)) :=
  match remaining with
  | O => ret None
  | S k =>
      let on_error (last : jsstring) : M (option (list json)) :=
        if Nat.eqb i 1 then throw (new_Error (quiz_failure_message last))
        else quiz_loop k (S i) transcript last in
      let prompt :=
        if Nat.eqb i 0 then first_prompt transcript
        else corrective_prompt lastResponse in
      fun w =>
        match callAI (user prompt) default_maxTokens w with
        | (Thrown _, w1) => on_error lastResponse w1
        | (Returned response, w1) =>
            match parse_and_shuffle response w1 with
            | (Thrown _, w2) => on_error response w2
            | (Returned quizzes, w2) => (Returned (Some quizzes), w2)
            end
        end
  end.

Definition generateQuizzes (transcript : jsstring) : M (option (list json)) :=
  quiz_loop 2 0 transcript [].

(** *** [extractFrames] *)

(** [Math.min(12, Math.max(4, Math.floor(duration / 30)))]. *)
Definition frameCount (d : Q) : Z :=
  Z.min 12 (Z.max 4 (Qfloor (d / 30)%Q)).

Definition ends_with (s suffix : jsstring) : bool :=
  Str.starts_with (rev suffix) (rev s).

(** Code-unit order, as the default [sort] compares strings. *)
Fixpoint str_leb (s t : jsstring) : bool :=
  match s, t with
  | [], _ => true
  | _ :: _, [] => false
  | c :: s', d :: t' => N.ltb c d || (N.eqb c d && str_leb s' t')
  end.

Fixpoint insert_sorted (s : jsstring) (l : list jsstring) : list jsstring :=
  match l with
  | [] => [s]
  | t :: r => if str_leb s t then s :: l else t :: insert_sorted s r
  end.

Definition sort_names (l : list jsstring) : list jsstring :=
  fold_right insert_sorted [] l.

(** The callback of [map], from index [i] on:
    [{ timestamp: Math.floor((i + 1) * (duration / frameCount)),
       image: `/frames_${lectureId}/${f}` }]. The index and the frame count
    are small integers, which binary64 holds exactly; the quotient and the
    product are rounded. *)
Fixpoint label_frames (lectureId : jsstring) (d : Q) (count : Z)
         (i : Z) (names : list jsstring) : list slide :=
  match names with
  | [] => []
  | f :: r =>
      mk_slide (Math_floor
                  (number_mul (number_of_Z (i + 1))
                              (number_div (number_of_Q d) (number_of_Z count))))
               (js "/frames_" ++ lectureId ++ js "/" ++ f)
      :: label_frames lectureId d count (i + 1) r
  end.

(** The promise settles when [ffprobe] calls back and the screenshot command
    emits [end] or [error]; [files] is what [readdirSync] then lists. *)
Definition extractFrames (videoPath0 lectureId : jsstring) : M (list slide) :=
  let framesDir := frames_dir lectureId in
  tool (EvEnsureDir framesDir) (fun t => make_dir env t framesDir) ;;
  d <- tool (EvProbe videoPath0) (fun t => ffprobe env t videoPath0) ;;
  let count := frameCount d in
  files <- tool (EvScreenshots videoPath0 count framesDir)
                (fun t => ffmpeg_screenshots env t videoPath0 count framesDir) ;;
  ret (label_frames lectureId d count 0
         (sort_names (filter (fun f => ends_with f (js ".png")) files))).

(** *** The media adapters and the renderer *)

(** [`${code}`] for an exit code. *)
Definition show_code (code : option Z) : jsstring :=
  match code with
  | Some z => js (NilZero.string_of_int (Z.to_int z))
  | None => js "null"
  end.

Definition exited_zero (code : option Z) : bool :=
  match code with Some 0%Z => true | _ => false end.

Definition youtube_video_path (lectureId : jsstring) : jsstring :=
  js "uploads/" ++ lectureId ++ js "-youtube.mp4".

Definition downloadYouTubeVideo (url lectureId : jsstring) : M jsstring :=
  let videoPath0 := youtube_video_path lectureId in
  ending <- tool (EvDownload url lectureId)
                 (fun t => Returned (yt_dlp env t url videoPath0)) ;;
  match ending with
  | Closed code =>
      if exited_zero code then ret videoPath0
      else throw (new_Error
                    (js "yt-dlp failed with code " ++ show_code code
                     ++ js ". Make sure it is installed and in your system's PATH."))
  | NotStarted reason =>
      throw (new_Error (js "Failed to start yt-dlp. Is it installed? Error: " ++ reason))
  end.

(** [videoPath.replace(path.extname(videoPath), '.wav')]. *)
Definition audio_path (videoPath0 : jsstring) : jsstring :=
  Str.replace_first videoPath0 (path_extname env videoPath0) (js ".wav").

Definition extractAudio (videoPath0 : jsstring) : M jsstring :=
  let audioPath := audio_path videoPath0 in
  tool (EvExtractAudio videoPath0 audioPath)
       (fun t => ffmpeg_audio env t videoPath0 audioPath) ;;
  ret audioPath.

(** The promise settles when the process emits [close] or [error]; [output]
    is what the [close] listener reads from the text file, when the file
    exists. *)
Definition transcribeWithWhisper (audioPath : jsstring) : M jsstring :=
  ending <- tool (EvTranscribe audioPath)
                 (fun t => Returned (whisper env t audioPath)) ;;
  match ending with
  | WhisperClosed code errorOutput output =>
      if exited_zero code then
        match output with
        | Some transcript => ret (Str.trim transcript)
        | None => throw (new_Error (js "Whisper finished, but output file not found."))
        end
      else throw (new_Error (js "Whisper failed: " ++ errorOutput))
  | WhisperNotStarted reason =>
      throw (new_Error (js "Failed to start Whisper: " ++ reason))
  end.

(** [String(await remark().use(html).process(text))]. *)
Definition render (text : jsstring) : M jsstring :=
  tool (EvRender text) (fun t => remark_html env t text).

(** [if (fs.existsSync(p)) fs.unlinkSync(p)]. *)
Definition remove_if_exists (p : jsstring) : M unit :=
  tool (EvUnlink p) (fun t => unlink_file env t p).

(** *** The orchestrators *)

Definition stage_patch (stage0 : jsstring) : Patch :=
  mk_Patch None None None None None None None None (Some stage0).

Definition transcript_patch (transcript html : jsstring) : Patch :=
  mk_Patch None (Some transcript) (Some html) None None None None None
           (Some summarizing).

Definition final_patch (summary html : jsstring) (quizzes0 : option (list json))
           (slides0 : list slide) : Patch :=
  mk_Patch None None None (Some summary) (Some html) quizzes0 (Some slides0)
           (Some None) (Some complete).

Definition failure_patch (msg : jsstring) : Patch :=
  mk_Patch None None None None None None None (Some (Some msg)) (Some failed).

Definition videoPath_patch (path : jsstring) : Patch :=
  mk_Patch (Some path) None None None None None None None None.

(** The [try] block of [processLecture]. *)
Definition processLecture_try (lectureId videoPath0 : jsstring) : M unit :=
  findByIdAndUpdate env lectureId (stage_patch extracting_audio) ;;
  audioPath <- extractAudio videoPath0 ;;
  findByIdAndUpdate env lectureId (stage_patch transcribing) ;;
  rawTranscript <- transcribeWithWhisper audioPath ;;
  transcript <- formatTranscript rawTranscript ;;
  transcriptHtml0 <- render transcript ;;
  findByIdAndUpdate env lectureId (transcript_patch transcript transcriptHtml0) ;;
  summary <- generateSummary transcript ;;
  summaryHtml0 <- render summary ;;
  quizzes0 <- generateQuizzes transcript ;;
  slides0 <- extractFrames videoPath0 lectureId ;;
  findByIdAndUpdate env lectureId (final_patch summary summaryHtml0 quizzes0 slides0) ;;
  remove_if_exists audioPath.

(** The [catch] block, the same in both orchestrators. *)
Definition record_failure (lectureId : jsstring) (error : exn) : M unit :=
  findByIdAndUpdate env lectureId (failure_patch (message error)).

Definition processLecture (lectureId videoPath0 title0 : jsstring) : M unit :=
  try_catch (processLecture_try lectureId videoPath0) (record_failure lectureId).

Definition processYouTubeLecture_try (lectureId youtubeUrl0 title0 : jsstring) : M unit :=
  findByIdAndUpdate env lectureId (stage_patch downloading) ;;
  videoPath0 <- downloadYouTubeVideo youtubeUrl0 lectureId ;;
  findByIdAndUpdate env lectureId (videoPath_patch videoPath0) ;;
  processLecture lectureId videoPath0 title0.

Definition processYouTubeLecture (lectureId youtubeUrl0 title0 : jsstring) : M unit :=
  try_catch (processYouTubeLecture_try lectureId youtubeUrl0 title0)
            (record_failure lectureId).

End Program.

(** *** [GET /api/status/:lectureId] *)

Record progress : Type := mk_progress {
  isComplete : bool;
  stage : jsstring;
  error : option jsstring;
  hasTranscript : bool;
  hasSummary : bool;
  hasQuizzes : bool;
  hasSlides : bool
}.

Inductive status_response : Type :=
| NotFound (error_text : jsstring)      (* status 404 *)
| Progress (body : progress).

(** [!!s] for a string field. *)
Definition nonempty_string (s : option jsstring) : bool :=
  match s with Some (_ :: _) => true | _ => false end.

(** [!!a?.length] for an array field. *)
Definition nonempty_array {A : Type} (a : option (list A)) : bool :=
  match a with Some (_ :: _) => true | _ => false end.

(** The handler, given what [Lecture.findById] found. *)
Definition get_status (found : option Lecture) : status_response :=
  match found with
  | None => NotFound (js "Lecture not found")
  | Some lecture =>
      Progress
        (mk_progress
           (Str.eqb (processingStage lecture) complete)
           (processingStage lecture)
           (processingError lecture)
           (nonempty_string (transcriptMd lecture))
           (nonempty_string (summaryMd lecture))
           (nonempty_array (quizzes lecture))
           (nonempty_array (slides lecture)))
  end.

Arguments js s : simpl never.
Arguments jsq s : simpl never.

(* ================================================================= *)
(** ** Vocabulary of the specification *)

(** [clamp(x, min, max)] as the specification words it. *)
Definition clampZ (lo hi x : Z) : Z :=
  if (x <? lo)%Z then lo else if (hi <? x)%Z then hi else x.

(** The number of requests sent to the AI backend. *)
Definition is_post (ev : event) : bool :=
  match ev with EvPost _ => true | _ => false end.

Definition ai_calls (w : World) : nat := length (filter is_post (trace w)).

(** The stage values written to the store, in order. *)
Definition stage_written (ev : event) : list jsstring :=
  match ev with
  | EvUpdate _ p true =>
      match p_processingStage p with Some s => [s] | None => [] end
  | _ => []
  end.

Definition persisted_stages (evs : list event) : list jsstring :=
  flat_map stage_written evs.

(** The stage enumeration of the specification. *)
Definition stage_enum : list jsstring :=
  [uploaded; downloading; extracting_audio; transcribing; summarizing;
   complete; failed].

Definition record_ok (l : Lecture) : Prop :=
  In (processingStage l) stage_enum /\
  (processingError l <> None <-> processingStage l = failed).

Definition store_reliable (env : Env) : Prop :=
  forall t id p, store_update env t id p = Returned tt.

(** *** Environments to run the program in *)

(** The extension of a file name without directories: from its last dot on
    (what [path.extname] gives on such names). *)
Fixpoint after_last_dot (s : jsstring) (found : jsstring) : jsstring :=
  match s with
  | [] => found
  | c :: r => after_last_dot r (if N.eqb c 46 then s else found)
  end.

Definition simple_extname (s : jsstring) : jsstring := after_last_dot s [].

(** Every tool works; the AI backend answers [post t] to the request made
    at time [t]; the conversion tool ends as [audio] says. *)
Definition studio_with (key : option jsstring) (post : nat -> http_outcome)
           (download : process_end) (audio : outcome unit)
           (order : nat -> list nat) : Env :=
  mk_Env key (js "anthropic/claude-3-haiku") simple_extname
    (fun t _ => post t)
    (fun _ _ _ => download)
    (fun _ _ _ => audio)
    (fun _ _ => WhisperClosed (Some 0%Z) (js "Detecting language") (Some (js " Hello world. ")))
    (fun _ md => Returned (js "<p>" ++ md ++ js "</p>"))
    (fun _ _ => Returned tt)
    (fun _ _ => Returned (90 # 1)%Q)
    (fun _ _ _ _ =>
       Returned [js "slide_002.png"; js "slide_001.png"; js "notes.txt";
                 js "slide_004.png"; js "slide_003.png"])
    (fun _ _ => Returned tt)
    (fun _ _ _ => Returned tt)
    order.

Definition studio (key : option jsstring) (post : nat -> http_outcome)
           (order : nat -> list nat) : Env :=
  studio_with key post (Closed (Some 0%Z)) (Returned tt) order.

Definition some_key : option jsstring := Some (js "sk-or-test").

Definition no_shuffle : nat -> list nat := fun _ => [].

(** A well-formed quiz of one question, as the backend would send it. *)
Definition one_question : jsstring :=
  jsq "[{'question': 'What is 2+2?', 'options': ['3', '4', '5', '6'], 'correctAnswer': 1, 'explanation': 'Arithmetic.'}]".

(** The backend of a complete run: transcript, summary, then the quiz. *)
Definition helpful_backend (t : nat) : http_outcome :=
  match t with
  | 4 => HttpContent (js "Hello world.")
  | 7 => HttpContent (js "# Greeting")
  | _ => HttpContent one_question
  end.

(** A backend that is unreachable. *)
Definition timeout_reason : jsstring := js "timeout of 5000ms exceeded".
Definition unreachable_backend (t : nat) : http_outcome :=
  HttpFailure timeout_reason.

(** A backend that answers with the array of one [null]. *)
Definition null_backend (t : nat) : http_outcome :=
  HttpContent (jsq "[null]").

(** A backend whose first answer is the array of one [null] and whose later
    answers are a well-formed quiz. *)
Definition null_then_quiz_backend (t : nat) : http_outcome :=
  match t with
  | O => HttpContent (jsq "[null]")
  | _ => HttpContent one_question
  end.

Definition a_lecture : Lecture :=
  new_file_Lecture (js "Algebra") (js "uploads/1-algebra.mp4") 0.

Definition a_youtube_lecture : Lecture :=
  new_youtube_Lecture (js "Algebra") (js "https://youtu.be/x") 0.

(** All the places of a text where a JSON array can be read: the start, the
    length and the items of every substring that [JSON.parse] reads as an
    array. *)
Definition reads_as_array (t : jsstring) : option (list json) :=
  match JSON.parse t with
  | Some (JArr items) => Some items
  | _ => None
  end.

Definition arrays_at (s : jsstring) (start : nat) : list (nat * nat * list json) :=
  flat_map
    (fun n => match reads_as_array (firstn n s) with
              | Some items => [(start, n, items)]
              | None => []
              end)
    (seq 1 (length s)).

Fixpoint arrays_from (s : jsstring) (start : nat) : list (nat * nat * list json) :=
  arrays_at s start ++
  match s with
  | [] => []
  | _ :: r => arrays_from r (S start)
  end.

Definition embedded_arrays (s : jsstring) : list (nat * nat * list json) :=
  arrays_from s 0.

(** C4 as the specification states it: a response in which exactly one JSON
    array can be read, whatever surrounds it, yields that array. *)
Definition parser_finds_the_embedded_array : Prop :=
  forall (response : jsstring) (start len : nat) (items : list json),
    embedded_arrays response = [(start, len, items)] ->
    parse_quiz_response response = Returned (JArr items).

(** C8 as the specification states it: the message of the error raised on a
    failed request contains the reason of the failure. *)
Definition ai_error_wraps_reason : Prop :=
  forall (env : Env) (msgs : list chat_message) (maxTokens : Z) (w : World)
         (reason : jsstring),
    no_api_key env = false ->
    axios_post env (length (trace w)) (request_of env msgs maxTokens)
      = HttpFailure reason ->
    exists e w',
      callAI env msgs maxTokens w = (Thrown e, w') /\
      Str.includes (message e) reason = true.

(** What a successful run leaves behind, besides the stage markers. *)
Record run_data : Type := mk_run_data {
  r_rawTranscript : jsstring;
  r_transcript : jsstring;
  r_transcriptHtml : jsstring;
  r_summary : jsstring;
  r_summaryHtml : jsstring;
  r_quiz_posts : list event;
  r_quizzes : option (list json);
  r_duration : Q;
  r_slides : list slide
}.

Definition format_request (env : Env) (rawTranscript : jsstring) : ai_request :=
  request_of env
    (user (js "Format this raw transcript by adding paragraph breaks for readability. Do not change any words:"
           ++ newline ++ newline ++ rawTranscript))
    2500.

Definition summary_request (env : Env) (transcript : jsstring) : ai_request :=
  request_of env
    (user (js "Create a comprehensive summary of this transcript. Use headings and bullet points:"
           ++ newline ++ newline ++ transcript))
    default_maxTokens.

(** The events of a successful file-sourced run, in order. *)
Definition file_run_events (env : Env) (lectureId videoPath0 : jsstring)
           (a : run_data) : list event :=
  [ EvUpdate lectureId (stage_patch extracting_audio) true;
    EvExtractAudio videoPath0 (audio_path env videoPath0);
    EvUpdate lectureId (stage_patch transcribing) true;
    EvTranscribe (audio_path env videoPath0);
    EvPost (format_request env (r_rawTranscript a));
    EvRender (r_transcript a);
    EvUpdate lectureId (transcript_patch (r_transcript a) (r_transcriptHtml a)) true;
    EvPost (summary_request env (r_transcript a));
    EvRender (r_summary a) ]
  ++ r_quiz_posts a ++
  [ EvEnsureDir (frames_dir lectureId);
    EvProbe videoPath0;
    EvScreenshots videoPath0 (frameCount (r_duration a)) (frames_dir lectureId);
    EvUpdate lectureId
      (final_patch (r_summary a) (r_summaryHtml a) (r_quizzes a) (r_slides a)) true;
    EvUnlink (audio_path env videoPath0) ].

(** The events of a successful YouTube-sourced run. *)
Definition youtube_run_events (env : Env) (lectureId url : jsstring)
           (a : run_data) : list event :=
  [ EvUpdate lectureId (stage_patch downloading) true;
    EvDownload url lectureId;
    EvUpdate lectureId (videoPath_patch (youtube_video_path lectureId)) true ]
  ++ file_run_events env lectureId (youtube_video_path lectureId) a.

(** The requests of quiz generation: one or two, each a quiz prompt. *)
Definition is_quiz_post (env : Env) (transcript : jsstring) (ev : event) : Prop :=
  ev = EvPost (request_of env (user (first_prompt transcript)) default_maxTokens)
  \/ exists last,
       ev = EvPost (request_of env (user (corrective_prompt last)) default_maxTokens).

(** The artifacts of the last stage are as they were in [l0]. *)
Definition late_artifacts_as_in (l0 l : Lecture) : Prop :=
  summaryMd l = summaryMd l0 /\ summaryHtml l = summaryHtml l0 /\
  quizzes l = quizzes l0 /\ slides l = slides l0.

Definition transcript_as_in (l0 l : Lecture) : Prop :=
  transcriptMd l = transcriptMd l0 /\ transcriptHtml l = transcriptHtml l0.

(** All artifacts are as they were in [l0]. *)
Definition artifacts_as_in (l0 l : Lecture) : Prop :=
  transcript_as_in l0 l /\ late_artifacts_as_in l0 l.

(** Where the data of a complete run started in [w] comes from. The times
    are those of the events of [file_run_events]: the tool behind the
    [n]-th event (from 0) is asked at the time [n] after that of [w]. The
    raw transcript is the trimmed output of the transcription; the
    transcript is the answer to the formatting request and the summary the
    answer to the summary request on the transcript; each markup is the
    rendering of its text; the quiz is what [generateQuizzes] returns for
    the transcript at the time of the first quiz request; the slides are
    labelled from the files the screenshot command left. *)
Definition run_data_from (env : Env) (lectureId videoPath0 : jsstring)
           (w : World) (a : run_data) : Prop :=
  let t := length (trace w) in
  (exists code errorOutput output,
      whisper env (t + 3) (audio_path env videoPath0)
      = WhisperClosed code errorOutput (Some output) /\
      exited_zero code = true /\
      r_rawTranscript a = Str.trim output) /\
  axios_post env (t + 4) (format_request env (r_rawTranscript a))
  = HttpContent (r_transcript a) /\
  remark_html env (t + 5) (r_transcript a) = Returned (r_transcriptHtml a) /\
  axios_post env (t + 7) (summary_request env (r_transcript a))
  = HttpContent (r_summary a) /\
  remark_html env (t + 8) (r_summary a) = Returned (r_summaryHtml a) /\
  (exists (quizzes0 : list json) (wq : World),
      r_quizzes a = Some quizzes0 /\
      length (trace wq) = t + 9 /\ sorts wq = sorts w /\
      fst (generateQuizzes env (r_transcript a) wq) = Returned (Some quizzes0)) /\
  (exists files,
      ffprobe env (t + 10 + length (r_quiz_posts a)) videoPath0
      = Returned (r_duration a) /\
      ffmpeg_screenshots env (t + 11 + length (r_quiz_posts a)) videoPath0
        (frameCount (r_duration a)) (frames_dir lectureId)
      = Returned files /\
      r_slides a
      = label_frames lectureId (r_duration a) (frameCount (r_duration a)) 0
          (sort_names (filter (fun f => ends_with f (js ".png")) files))).

(** The states the document has gone through in a complete run from [w] to
    [w'], one for each of the four updates. The two first change the stage
    marker and leave every artifact as it was. The third is in stage
    [summarizing] and has the transcript and its markup, the artifacts of
    the last stage still as they were. The last is in stage [complete],
    without an error, and has the summary, its markup, the quiz and the
    slides, the transcript still there. *)
Definition document_states (w w' : World) (a : run_data) : Prop :=
  exists l1 l2 l3 : Lecture,
    history w' = db w' :: l3 :: l2 :: l1 :: history w /\
    (processingStage l1 = extracting_audio /\ artifacts_as_in (db w) l1) /\
    (processingStage l2 = transcribing /\ artifacts_as_in (db w) l2) /\
    (processingStage l3 = summarizing /\
     transcriptMd l3 = Some (r_transcript a) /\
     transcriptHtml l3 = Some (r_transcriptHtml a) /\
     late_artifacts_as_in (db w) l3) /\
    (processingStage (db w') = complete /\
     processingError (db w') = None /\
     transcriptMd (db w') = Some (r_transcript a) /\
     transcriptHtml (db w') = Some (r_transcriptHtml a) /\
     summaryMd (db w') = Some (r_summary a) /\
     summaryHtml (db w') = Some (r_summaryHtml a) /\
     quizzes (db w') = r_quizzes a /\
     slides (db w') = Some (r_slides a)).

(** The start of a YouTube run from [w]: in [wd] the stage [downloading] has
    been written, the video downloaded and its path recorded, in two
    updates that leave the artifacts as they were. *)
Definition download_done (lectureId url : jsstring) (w wd : World) : Prop :=
  chronicle wd
  = chronicle w ++ [ EvUpdate lectureId (stage_patch downloading) true;
                     EvDownload url lectureId;
                     EvUpdate lectureId
                       (videoPath_patch (youtube_video_path lectureId)) true ] /\
  sorts wd = sorts w /\
  exists l1 : Lecture,
    history wd = db wd :: l1 :: history w /\
    (processingStage l1 = downloading /\ videoPath l1 = videoPath (db w) /\
     artifacts_as_in (db w) l1) /\
    (processingStage (db wd) = downloading /\
     videoPath (db wd) = Some (youtube_video_path lectureId) /\
     artifacts_as_in (db w) (db wd)).

(** The error [e], raised in world [w1], has been recorded, and nothing else
    has happened since. *)
Definition failure_recorded (lectureId : jsstring) (e : exn) (w1 w' : World) : Prop :=
  trace w' = EvUpdate lectureId (failure_patch (message e)) true :: trace w1 /\
  processingStage (db w') = failed /\
  processingError (db w') = Some (message e) /\
  artifacts_as_in (db w1) (db w').

(** An item of the data model: an object whose [options] are strings and
    whose [correctAnswer] is the index [k] of one of them. *)
Definition is_quiz_item (item : json) (opts : list jsstring) (k : nat) : Prop :=
  exists fields,
    item = JObj fields /\
    get_field options_key fields = Some (JArr (map JStr opts)) /\
    get_field correctAnswer_key fields = Some (JNum (inject_Z (Z.of_nat k))) /\
    k < length opts /\
    (N.of_nat (length opts) < max_array_index)%N.

(** The same item after the shuffle: every property other than the two is
    untouched. *)
Definition shuffled_item (item item' : json) (opts' : list jsstring) (k' : nat) : Prop :=
  exists fields fields',
    item = JObj fields /\ item' = JObj fields' /\
    get_field options_key fields' = Some (JArr (map JStr opts')) /\
    get_field correctAnswer_key fields' = Some (JNum (inject_Z (Z.of_nat k'))) /\
    (forall name, name <> options_key -> name <> correctAnswer_key ->
                  get_field name fields' = get_field name fields).

(** The items of the well-formed demonstration quiz, and what the shuffle
    makes of them when every sort leaves the order given by [3; 2; 1]. *)
Definition demo_items : list json :=
  match JSON.parse one_question with
  | Some (JArr items) => items
  | _ => []
  end.

Definition demo_order : nat -> list nat := fun _ => [3; 2; 1].

Definition demo_shuffle : outcome (list json) * World :=
  shuffle_all (studio some_key helpful_backend demo_order) (JArr demo_items)
              (start a_lecture).

Definition demo_shuffled : list json :=
  match fst demo_shuffle with
  | Returned items => items
  | Thrown _ => []
  end.

(** The world after a write the store accepted, and after one it rejected. *)
Definition persist (lectureId : jsstring) (p : Patch) (w : World) : World :=
  mk_World (apply_patch p (db w)) (EvUpdate lectureId p true :: trace w)
           (sorts w) (apply_patch p (db w) :: history w).

Definition reject (lectureId : jsstring) (p : Patch) (w : World) : World :=
  mk_World (db w) (EvUpdate lectureId p false :: trace w) (sorts w) (history w).

(** A computation that leaves the document alone. *)
Definition quiet {A : Type} (m : M A) : Prop :=
  forall w r w', m w = (r, w') -> db w' = db w /\ history w' = history w.

(** Started in a world with [P], the computation ends in a world with [Qr]
    when it returns and in a world with [Qt] when it throws. *)
Definition ends (P : World -> Prop) {A : Type} (m : M A) (Qr Qt : World -> Prop)
  : Prop :=
  forall w r w', P w -> m w = (r, w') ->
    match r with
    | Returned _ => Qr w'
    | Thrown _ => Qt w'
    end.

(** Every state the document has been in is well-formed. *)
Definition settled (w : World) : Prop :=
  Forall record_ok (history w) /\ hd_error (history w) = Some (db w).

(** Moreover no failure has been recorded. *)
Definition clean (w : World) : Prop :=
  settled w /\
  processingError (db w) = None /\
  In (processingStage (db w))
     [uploaded; downloading; extracting_audio; transcribing; summarizing; complete].

(** The same environment with another store. *)
Definition with_store (env : Env) (store : nat -> jsstring -> Patch -> outcome unit)
  : Env :=
  mk_Env (OPENROUTER_API_KEY env) (OPENROUTER_MODEL env) (path_extname env)
         (axios_post env) (yt_dlp env) (ffmpeg_audio env) (whisper env)
         (remark_html env) (make_dir env) (ffprobe env) (ffmpeg_screenshots env)
         (unlink_file env) store (sort_order env).

(** A store that is down at time [t] only. *)
Definition store_error : exn := new_Error (js "connection lost").

Definition down_at (t : nat) : nat -> jsstring -> Patch -> outcome unit :=
  fun t' _ _ => if Nat.eqb t' t then Thrown store_error else Returned tt.

(** C5 as the specification states it: whatever stage raises, the
    orchestrator returns, with the message and the stage [failed]
    persisted. *)
Definition every_stage_error_is_recorded : Prop :=
  forall (env : Env) (id vp title0 : jsstring) (w : World) (e : exn) (w1 : World),
    processLecture_try env id vp w = (Thrown e, w1) ->
    exists w',
      processLecture env id vp title0 w = (Returned tt, w') /\
      processingStage (db w') = failed /\
      processingError (db w') = Some (message e).

(** Where the document stands when the [try] block of [processLecture],
    started in [w], throws in [w1], whatever the store does. A stage marker
    the store rejected has not been written, so the marker is that of the
    stage that was running or an earlier one. Up to [transcribing] no
    artifact has been written; in [summarizing] none of the last stage; in
    [complete] everything has, and it is the removal of the audio file that
    has failed. *)
Definition stopped_at (w w1 : World) : Prop :=
  (artifacts_as_in (db w) (db w1) /\
   In (processingStage (db w1))
      [processingStage (db w); extracting_audio; transcribing])
  \/
  (processingStage (db w1) = summarizing /\ late_artifacts_as_in (db w) (db w1))
  \/
  (processingStage (db w1) = complete /\
   exists audioPath, hd_error (trace w1) = Some (EvUnlink audioPath)).

(** Where the document stands when the [try] block of [processLecture],
    started in [w], throws in [w1]: the stage marker is that of the stage
    that was running, and no artifact of a later stage has been written. *)
Definition failure_point (w w1 : World) : Prop :=
  (processingStage (db w1) = extracting_audio /\ artifacts_as_in (db w) (db w1))
  \/
  (processingStage (db w1) = transcribing /\ artifacts_as_in (db w) (db w1))
  \/
  (processingStage (db w1) = summarizing /\ late_artifacts_as_in (db w) (db w1))
  \/
  (processingStage (db w1) = complete /\
   exists audioPath, hd_error (trace w1) = Some (EvUnlink audioPath)).

(** The world of a YouTube run once the video has been downloaded. *)
Definition downloaded (lectureId url : jsstring) (w : World) : World :=
  persist lectureId (videoPath_patch (youtube_video_path lectureId))
    (record_event (EvDownload url lectureId)
       (persist lectureId (stage_patch downloading) w)).

(** The two requests of quiz generation. *)
Definition first_quiz_request (env : Env) (transcript : jsstring) : ai_request :=
  request_of env (user (first_prompt transcript)) default_maxTokens.

Definition corrective_request (env : Env) (lastResponse : jsstring) : ai_request :=
  request_of env (user (corrective_prompt lastResponse)) default_maxTokens.

(** An item the shuffle passes over: an object without [options] or without
    [correctAnswer]. *)
Definition lacks_a_field (item : json) : Prop :=
  exists fields,
    item = JObj fields /\
    (get_field options_key fields = None \/
     get_field correctAnswer_key fields = None).

(** Two complete runs: a file upload and a YouTube link, every tool
    working. *)
Definition demo_env : Env := studio some_key helpful_backend demo_order.

Definition demo_id : jsstring := js "L1".
Definition demo_path : jsstring := js "uploads/1-algebra.mp4".
Definition demo_url : jsstring := js "https://youtu.be/x".

Definition demo_file_run : outcome unit * World :=
  processLecture demo_env demo_id demo_path (js "Algebra") (start a_lecture).

(** In a YouTube run the backend is asked three events later. *)
Definition later_backend (t : nat) : http_outcome := helpful_backend (t - 3).

Definition demo_youtube_env : Env := studio some_key later_backend demo_order.

Definition demo_youtube_run : outcome unit * World :=
  processYouTubeLecture demo_youtube_env demo_id demo_url (js "Algebra")
                        (start a_youtube_lecture).

(** The same studio with a conversion tool that reports an error. *)
Definition audio_error : exn := new_Error (js "ffmpeg exited with code 1").

Definition broken_audio_env : Env :=
  studio_with some_key helpful_backend (Closed (Some 0%Z)) (Thrown audio_error)
              demo_order.

(** The same studio again, with a store that is down when the failure of
    the conversion is to be recorded. *)
Definition unrecorded_env : Env := with_store broken_audio_env (down_at 2).

(** The same studio with a downloader that cannot be started. *)
Definition broken_download_env : Env :=
  studio_with some_key helpful_backend (NotStarted (js "spawn yt-dlp ENOENT"))
              (Returned tt) demo_order.

Definition download_error : exn :=
  new_Error (js "Failed to start yt-dlp. Is it installed? Error: spawn yt-dlp ENOENT").

(** A property of the document alone. *)
Definition about_document (P : World -> Prop) : Prop :=
  forall w w', db w' = db w -> history w' = history w -> P w -> P w'.

(** The stages of a file run, relative to the document [l0] it started
    from. *)
Definition in_stage (stage0 : jsstring) (l0 : Lecture) (w : World) : Prop :=
  processingStage (db w) = stage0 /\ artifacts_as_in l0 (db w).

Definition in_summarizing (l0 : Lecture) (w : World) : Prop :=
  processingStage (db w) = summarizing /\ late_artifacts_as_in l0 (db w).

Definition in_complete (w : World) : Prop :=
  processingStage (db w) = complete.

(** For the proof of [stopped_at]: no artifact has been written yet. *)
Definition in_early_stage (l0 : Lecture) (w : World) : Prop :=
  artifacts_as_in l0 (db w) /\
  In (processingStage (db w)) [processingStage l0; extracting_audio; transcribing].

(** An update of the [try] blocks: it records no error, and the stage it
    names, if any, is not [failed]. *)
Definition tidy (p : Patch) : Prop :=
  (p_processingError p = None \/ p_processingError p = Some None) /\
  (p_processingStage p = None \/
   exists s, p_processingStage p = Some s /\
             In s [uploaded; downloading; extracting_audio; transcribing;
                   summarizing; complete]).

(** The worlds in which the broken tools raise. *)
Definition broken_audio_try : outcome unit * World :=
  processLecture_try broken_audio_env demo_id demo_path (start a_lecture).

Definition unrecorded_try : outcome unit * World :=
  processLecture_try unrecorded_env demo_id demo_path (start a_lecture).

Definition broken_download_try : outcome unit * World :=
  processYouTubeLecture_try broken_download_env demo_id demo_url (js "Algebra")
                            (start a_youtube_lecture).

(** The last clause of C2 as the specification states it: a first response
    that passes bracket extraction and [JSON.parse] means one request. *)
Definition one_call_when_first_response_parses : Prop :=
  forall (env : Env) (transcript : jsstring) (w : World)
         (response : jsstring) (parsed : json),
    no_api_key env = false ->
    axios_post env (length (trace w)) (first_quiz_request env transcript)
      = HttpContent response ->
    parse_quiz_response response = Returned parsed ->
    ai_calls (snd (generateQuizzes env transcript w)) = ai_calls w + 1.










(** A backend that never answers with JSON. *)
Definition prose_backend (t : nat) : http_outcome :=
  match t with
  | O => HttpContent (js "Sure, here are five questions.")
  | _ => HttpContent (js "I am sorry, [see above.")
  end.

(** For the proofs about the parser: the outermost open container is an
    object; the lexer is not in the middle of a word standing for a
    bracket (it never is: the words are [null], [true] and [false]). *)
Fixpoint bottom_is_obj (stack : list frame) : bool :=
  match stack with
  | [] => false
  | [FObj _ _] => true
  | [FArr _] => false
  | _ :: st => bottom_is_obj st
  end.

Definition mode_ok (m : lex_mode) : Prop :=
  match m with
  | LWord _ t => t <> TLBracket
  | _ => True
  end.

From Stdlib Require DecimalN DecimalPos DecimalFacts.

(* ================================================================= *)
(** ** The routes that answer from a stored lecture *)

(** What a handler sends: the status, the headers it sets itself, and the
    body. *)
Inductive reply_body : Type :=
| ErrorBody (error_text : jsstring)      (* { error: ... } *)
| AnswerBody (answer : jsstring)         (* { answer } *)
| BufferBody (buffer : list N)           (* res.send(buffer) *)
| StartedBody (message0 lectureId : jsstring)   (* { message, lectureId } *).

Record reply : Type := mk_reply {
  code : Z;
  headers : list (jsstring * jsstring);
  sent : reply_body
}.

(** [res.status(c).json({ error: text })]. *)
Definition error_reply (c : Z) (text : jsstring) : reply :=
  mk_reply c [] (ErrorBody text).

(** A value that is already known, inside asynchronous code. *)
Definition lift {A : Type} (o : outcome A) : M A := fun w => (o, w).

(** *** Template literals

    [`${v}`] converts [v] to a string. The digits of a number are the
    engine's business ([number_to_string]); an array is joined with commas,
    a [null] item giving the empty string; an object without a [toString]
    property of its own gives "[object Object]". *)
Fixpoint join_strings (sep : jsstring) (l : list jsstring) : jsstring :=
  match l with
  | [] => []
  | [s] => s
  | s :: r => s ++ sep ++ join_strings sep r
  end.

Section Templates.

Variable number_to_string : Q -> jsstring.

Fixpoint to_string (j : json) : jsstring :=
  match j with
  | JNull => js "null"
  | JBool true => js "true"
  | JBool false => js "false"
  | JNum q => number_to_string q
  | JStr s => s
  | JArr items =>
      join_strings (js ",")
        (map (fun x => match x with JNull => [] | _ => to_string x end) items)
  | JObj _ => js "[object Object]"
  end.

(** [`${v}`] for what a property read gave ([None] is [undefined]). *)
Definition interpolate (v : option json) : outcome jsstring :=
  match v with
  | None => Returned (js "undefined")
  | Some j =>
      if to_string_throws j then Thrown to_primitive_error
      else Returned (to_string j)
  end.

End Templates.

(** [const { name } = body]: [undefined] and [null] cannot be destructured;
    any other value can, and only an object has a property of that name. *)
Definition destructure (name : jsstring) (body : option json) : outcome (option json) :=
  match body with
  | None =>
      Thrown (mk_exn TypeError
                (js "Cannot destructure property '" ++ name
                 ++ js "' of 'req.body' as it is undefined."))
  | Some JNull =>
      Thrown (mk_exn TypeError
                (js "Cannot destructure property '" ++ name
                 ++ js "' of 'req.body' as it is null."))
  | Some (JObj fields) => Returned (get_field name fields)
  | Some _ => Returned None
  end.

(** *** [POST /api/chat/:lectureId] *)

Definition chat_system_prompt : jsstring :=
  js "You are a helpful teaching assistant. Answer questions based ONLY on the provided lecture transcript.".

Definition chat_user_prompt (transcript question : jsstring) : jsstring :=
  jsq "Transcript:" ++ newline ++ jsq "'" ++ transcript ++ jsq "'"
  ++ newline ++ newline ++ js "Question:" ++ newline ++ question.

Definition chat_messages (transcript question : jsstring) : list chat_message :=
  [ mk_message (js "system") chat_system_prompt;
    mk_message (js "user") (chat_user_prompt transcript question) ].

Definition chat_maxTokens : Z := 800.

Section Chat.

Variable env : Env.
Variable number_to_string : Q -> jsstring.

(** The [try] block, given the request body and what [Lecture.findById]
    gave. *)
Definition chat_try (body : option json) (found : outcome (option Lecture)) : M reply :=
  question <- lift (destructure (js "question") body) ;;
  lecture <- lift found ;;
  match lecture with
  | None => ret (error_reply 404 (js "Transcript not found"))
  | Some l =>
      match transcriptMd l with
      | Some (c :: t) =>
          text <- lift (interpolate number_to_string question) ;;
          answer <- callAI env (chat_messages (c :: t) text) chat_maxTokens ;;
          ret (mk_reply 200 [] (AnswerBody answer))
      | _ => ret (error_reply 404 (js "Transcript not found"))
      end
  end.

Definition chat_route (body : option json) (found : outcome (option Lecture)) : M reply :=
  try_catch (chat_try body found)
            (fun _ => ret (error_reply 500 (js "Failed to get response from chatbot"))).

End Chat.

(** *** [GET /api/lectures/:id/download-ppt] *)

(** The slides added to the presentation. The geometry and font options the
    handler passes are constants. *)
Inductive deck_slide : Type :=
| TitleSlide (text : jsstring)
| ImageSlide (path : jsstring).

(** Where the server runs: its directory, the library function that joins
    path segments, which files exist, and what writing a presentation
    gives. *)
Record Site : Type := mk_Site {
  dirname : jsstring;
  path_join : list jsstring -> jsstring;
  file_exists : jsstring -> bool;
  pptx_write : list deck_slide -> outcome (list N)
}.

(** [image.startsWith('/') ? image.substring(1) : image]. *)
Definition correctImageName (image0 : jsstring) : jsstring :=
  if Str.starts_with (js "/") image0
  then Str.substring image0 1 (Z.of_nat (length image0))
  else image0.

Definition is_alnum (c : N) : bool :=
  (N.leb 48 c && N.leb c 57) || (N.leb 65 c && N.leb c 90)
  || (N.leb 97 c && N.leb c 122).

(** [s.replace(/[^a-z0-9]/gi, '_')]: without the unicode flag a class of
    ASCII letters matches, ignoring case, the ASCII letters only. *)
Definition replace_non_alnum (s : jsstring) : jsstring :=
  map (fun c => if is_alnum c then c else 95%N) s.

(** [toLowerCase] on a text of ASCII letters, digits and underscores. *)
Definition toLowerCase (s : jsstring) : jsstring :=
  map (fun c => if (N.leb 65 c && N.leb c 90)%bool then (c + 32)%N else c) s.

Definition ppt_file_name (title0 : jsstring) : jsstring :=
  toLowerCase (replace_non_alnum title0) ++ js "_slides.pptx".

Definition pptx_content_type : jsstring :=
  js "application/vnd.openxmlformats-officedocument.presentationml.presentation".

Definition content_disposition (fileName : jsstring) : jsstring :=
  jsq "attachment; filename='" ++ fileName ++ jsq "'".

Section Presentation.

Variable site : Site.

Definition image_path (s : slide) : jsstring :=
  path_join site [dirname site; js "uploads"; correctImageName (image s)].

(** The [for] loop over the slides: an image that exists is added, one that
    does not is passed over. *)
Fixpoint add_images (slides0 : list slide) (deck : list deck_slide) : list deck_slide :=
  match slides0 with
  | [] => deck
  | s :: r =>
      add_images r
        (if file_exists site (image_path s)
         then deck ++ [ImageSlide (image_path s)]
         else deck)
  end.

(** The [try] block, given what [Lecture.findById] gave. *)
Definition download_ppt_try (found : outcome (option Lecture)) : outcome reply :=
  match found with
  | Thrown e => Thrown e
  | Returned None => Returned (error_reply 404 (js "No slides found."))
  | Returned (Some lecture) =>
      match slides lecture with
      | Some (s :: r) =>
          let deck := add_images (s :: r) [TitleSlide (title lecture)] in
          match pptx_write site deck with
          | Thrown e => Thrown e
          | Returned buffer =>
              Returned
                (mk_reply 200
                   [ (js "Content-Disposition",
                      content_disposition (ppt_file_name (title lecture)));
                     (js "Content-Type", pptx_content_type) ]
                   (BufferBody buffer))
          end
      | _ => Returned (error_reply 404 (js "No slides found."))
      end
  end.

Definition download_ppt (found : outcome (option Lecture)) : reply :=
  match download_ppt_try found with
  | Returned r => r
  | Thrown e =>
      error_reply 500 (js "Failed to generate presentation: " ++ message e)
  end.

End Presentation.

(** The code units a download name is made of: lower-case ASCII letters,
    digits, the underscore and the dot. *)
Definition is_name_char (c : N) : bool :=
  (N.leb 97 c && N.leb c 122) || (N.leb 48 c && N.leb c 57)
  || N.eqb c 95 || N.eqb c 46.

(** A site for the examples: paths are joined with slashes, the frames of
    lecture L1 numbered 001 and 003 exist, and writing a presentation gives
    one byte per slide. *)
Fixpoint join_with_slashes (segments : list jsstring) : jsstring :=
  match segments with
  | [] => []
  | [s] => s
  | s :: r => s ++ js "/" ++ join_with_slashes r
  end.

Definition demo_site : Site :=
  mk_Site (js "/srv/backend") join_with_slashes
    (fun p => Str.eqb p (js "/srv/backend/uploads/frames_L1/slide_001.png")
              || Str.eqb p (js "/srv/backend/uploads/frames_L1/slide_003.png"))
    (fun deck => Returned (map (fun s => match s with
                                         | TitleSlide _ => 1%N
                                         | ImageSlide _ => 2%N
                                         end) deck)).

(** A site whose presentation writer fails. *)
Definition write_error : exn := new_Error (js "disk full").

Definition broken_site : Site :=
  mk_Site (js "/srv/backend") join_with_slashes (fun _ => true)
          (fun _ => Thrown write_error).

(** The document of the complete file run of the examples. *)
Definition processed_lecture : Lecture := db (snd demo_file_run).


Definition is_png (f : jsstring) : bool := ends_with f (js ".png").

(** The image URL [extractFrames] gives the frame file [f] of a lecture. *)
Definition frame_url (lectureId f : jsstring) : jsstring :=
  js "/frames_" ++ lectureId ++ js "/" ++ f.

(** A video of 230 seconds whose frames folder holds seven frames and a
    file of another kind. *)
Definition long_video_env : Env :=
  mk_Env (OPENROUTER_API_KEY demo_env) (OPENROUTER_MODEL demo_env)
    (path_extname demo_env) (axios_post demo_env) (yt_dlp demo_env)
    (ffmpeg_audio demo_env) (whisper demo_env) (remark_html demo_env)
    (make_dir demo_env)
    (fun _ _ => Returned (230 # 1)%Q)
    (fun _ _ _ _ =>
       Returned [js "slide_003.png"; js "slide_001.png"; js "slide_002.png";
                 js "slide_007.png"; js "thumbs.db"; js "slide_005.png";
                 js "slide_004.png"; js "slide_006.png"])
    (unlink_file demo_env) (store_update demo_env) (sort_order demo_env).

Definition long_video_slides : list slide :=
  match fst (extractFrames long_video_env demo_path demo_id (start a_lecture)) with
  | Returned slides0 => slides0
  | Thrown _ => []
  end.

(** The replies of the chat route. *)
Definition transcript_not_found : reply :=
  error_reply 404 (js "Transcript not found").

Definition chatbot_failed : reply :=
  error_reply 500 (js "Failed to get response from chatbot").

Definition chat_request (env : Env) (transcript question : jsstring) : ai_request :=
  request_of env (chat_messages transcript question) chat_maxTokens.

(** For the examples: integers are written in decimal, and nothing else is
    asked of the conversion. *)
Definition show_integer (q : Q) : jsstring :=
  js (NilZero.string_of_int (Z.to_int (Qfloor q))).

Definition answering_backend (t : nat) : http_outcome :=
  HttpContent (js "It is about algebra.").

Definition question_body : option json :=
  JSON.parse (jsq "{'question': 'What is this lecture about?'}").

Definition empty_body : option json := JSON.parse (js "{}").

(* ================================================================= *)
(** ** Counting the effects of a run *)

Inductive event_kind : Type :=
| KUpdate | KDownload | KExtractAudio | KTranscribe | KPost | KRender
| KEnsureDir | KProbe | KScreenshots | KUnlink.

Definition kind_of (ev : event) : event_kind :=
  match ev with
  | EvUpdate _ _ _ => KUpdate
  | EvDownload _ _ => KDownload
  | EvExtractAudio _ _ => KExtractAudio
  | EvTranscribe _ => KTranscribe
  | EvPost _ => KPost
  | EvRender _ => KRender
  | EvEnsureDir _ => KEnsureDir
  | EvProbe _ => KProbe
  | EvScreenshots _ _ _ => KScreenshots
  | EvUnlink _ => KUnlink
  end.

Definition kind_eqb (a b : event_kind) : bool :=
  match a, b with
  | KUpdate, KUpdate | KDownload, KDownload | KExtractAudio, KExtractAudio
  | KTranscribe, KTranscribe | KPost, KPost | KRender, KRender
  | KEnsureDir, KEnsureDir | KProbe, KProbe | KScreenshots, KScreenshots
  | KUnlink, KUnlink => true
  | _, _ => false
  end.

Definition of_kind (k : event_kind) (ev : event) : bool := kind_eqb (kind_of ev) k.

(** How many events of kind [k] the world has seen. *)
Definition tally (k : event_kind) (w : World) : nat :=
  length (filter (of_kind k) (trace w)).

(** Since [w0], at most [n] events of kind [k] have been added. *)
Definition spent (k : event_kind) (w0 : World) (n : nat) (w : World) : Prop :=
  exists evs, trace w = evs ++ trace w0 /\ length (filter (of_kind k) evs) <= n.

(** The computation adds at most [n] events of kind [k], however it ends. *)
Definition adds_at_most (k : event_kind) (n : nat) {A : Type} (m : M A) : Prop :=
  forall w r w', m w = (r, w') -> spent k w n w'.

(** What one run may use of each kind: a file run writes to the store at
    most five times (four stage updates and the failure record) and sends at
    most four requests to the AI backend (formatting, summary, and the quiz
    twice); a YouTube run has three more writes (the download stage, the
    video path, and a second failure record) and one download. *)
Definition file_run_budget (k : event_kind) : nat :=
  match k with
  | KUpdate => 5
  | KPost => 4
  | KRender => 2
  | KDownload => 0
  | _ => 1
  end.

Definition youtube_run_budget (k : event_kind) : nat :=
  match k with
  | KUpdate => 8
  | KDownload => 1
  | _ => file_run_budget k
  end.

(** A document whose processing is over: complete without an error, or
    failed with one. *)
Definition terminal (l : Lecture) : Prop :=
  (processingStage l = complete /\ processingError l = None)
  \/ (processingStage l = failed /\ exists msg, processingError l = Some msg).

(** The studio of the examples without an API key. *)
Definition keyless_env : Env := studio None helpful_backend demo_order.


(** The conversion fails and the store is down when the failure is to be
    recorded: in a file run, and in a YouTube run. *)
Definition unrecorded_file_run : outcome unit * World :=
  processLecture (with_store broken_audio_env (down_at 2)) demo_id demo_path
                 (js "Algebra") (start a_lecture).

Definition unrecorded_youtube_run : outcome unit * World :=
  processYouTubeLecture (with_store broken_audio_env (down_at 5)) demo_id demo_url
                        (js "Algebra") (start a_youtube_lecture).



(** A question whose [correctAnswer] is beyond its three options. *)
Definition stray_fields : list (jsstring * json) :=
  match JSON.parse (jsq "{'question': 'Q', 'options': ['a', 'b', 'c'], 'correctAnswer': 3}") with
  | Some (JObj fields) => fields
  | _ => []
  end.

(** The pattern occurs in [s] at one of the first [n] positions. *)
Definition occurs_before (n : nat) (s pattern : jsstring) : bool :=
  existsb (fun i => Str.starts_with pattern (skipn i s)) (seq 0 n).

(* ================================================================= *)
(** ** The name of an uploaded file *)

(** [`${n}`] for a non-negative integer below 10^21, which the time in
    milliseconds always is. *)
Definition show_nat (n : N) : jsstring := js (NilZero.string_of_uint (N.to_uint n)).

(** The [filename] function of the upload storage:
    [`${Date.now()}-${file.originalname}`]. *)
Definition upload_filename (now : N) (originalname : jsstring) : jsstring :=
  show_nat now ++ js "-" ++ originalname.

(* ================================================================= *)
(** ** The order of the stage markers *)

Definition file_stages : list jsstring :=
  [extracting_audio; transcribing; summarizing; complete].

Definition youtube_stages : list jsstring := downloading :: file_stages.

(** Since [w0] the stages [l] have been written to the store, in this
    order. *)
Definition stages_since (w0 : World) (l : list jsstring) (w : World) : Prop :=
  exists evs, trace w = evs ++ trace w0 /\ persisted_stages (rev evs) = l.

(** The stages written are the first few of the pipeline, in order, and
    then possibly [failed]. *)
Definition orderly (stages written : list jsstring) : Prop :=
  exists n, written = firstn n stages \/ written = firstn n stages ++ [failed].

(* ================================================================= *)
(** ** The upload routes *)

(** What the upload middleware leaves in [req.file]. *)
Record uploaded_file : Type := mk_uploaded {
  originalname : jsstring;
  file_path : jsstring
}.

Definition undefined_property_error (name : jsstring) : exn :=
  mk_exn TypeError
         (js "Cannot read properties of undefined (reading '" ++ name ++ js "')").

Definition processing_started (lectureId : jsstring) : reply :=
  mk_reply 200 [] (StartedBody (js "Processing started!") lectureId).

(** A handler ends by raising (no reply is sent then), or with a reply and
    the run it has started and does not wait for: the outcome of that run
    when it settles, and the world it leaves. The reply does not depend on
    the run. *)
Definition started : Type := reply * (outcome unit * World).

Section Uploads.

Variable env : Env.

(** [lecture.save()]: the store, which also validates the document,
    accepts it or rejects it. [new_id] is the identifier the new document
    gets, [now] the time of its creation. *)
Variable save : Lecture -> outcome unit.
Variable new_id : jsstring.
Variable now : Z.

(** [req.body.title || req.file.originalname], the title being a text field
    of the form or absent. *)
Definition upload_title (title0 : option jsstring) (file : option uploaded_file)
  : outcome jsstring :=
  match title0 with
  | Some (c :: t) => Returned (c :: t)
  | _ =>
      match file with
      | Some f => Returned (originalname f)
      | None => Thrown (undefined_property_error (js "originalname"))
      end
  end.

(** [POST /api/upload]. *)
Definition upload_route (title0 : option jsstring) (file : option uploaded_file)
  : outcome started :=
  match upload_title title0 file with
  | Thrown e => Thrown e
  | Returned t =>
      match file with
      | None => Thrown (undefined_property_error (js "path"))
      | Some f =>
          let lecture := new_file_Lecture t (file_path f) now in
          match save lecture with
          | Thrown e => Thrown e
          | Returned _ =>
              Returned (processing_started new_id,
                        processLecture env new_id (file_path f) t (start lecture))
          end
      end
  end.

(** [POST /api/upload-youtube], for a body whose [title] and [youtubeUrl]
    are strings. *)
Definition upload_youtube_route (title0 youtubeUrl0 : jsstring) : outcome started :=
  let lecture := new_youtube_Lecture title0 youtubeUrl0 now in
  match save lecture with
  | Thrown e => Thrown e
  | Returned _ =>
      Returned (processing_started new_id,
                processYouTubeLecture env new_id youtubeUrl0 title0 (start lecture))
  end.

End Uploads.

(** What a run never changes in its document. *)
Definition same_identity (l0 l : Lecture) : Prop :=
  title l = title l0 /\ source l = source l0 /\ youtubeUrl l = youtubeUrl l0 /\
  uploadDate l = uploadDate l0 /\ duration l = duration l0.

(** A store of documents that takes every new document. *)
Definition accepting : Lecture -> outcome unit := fun _ => Returned tt.

Definition a_file : uploaded_file :=
  mk_uploaded (js "algebra.mp4") (js "uploads/1-algebra.mp4").

(** A question whose [correctAnswer] is the text of an option, not its
    index. *)
Definition lettered_fields : list (jsstring * json) :=
  match JSON.parse (jsq "{'question': 'Q', 'options': ['a', 'b', 'c'], 'correctAnswer': 'b'}") with
  | Some (JObj fields) => fields
  | _ => []
  end.

(* ================================================================= *)
(** ** What a failing tool leaves in the record *)

(** The studio of the examples with a transcription tool that ends as
    [ending] says, and with a downloader that ends as [download] says. *)
Definition with_whisper (env : Env) (ending : whisper_end) : Env :=
  mk_Env (OPENROUTER_API_KEY env) (OPENROUTER_MODEL env) (path_extname env)
         (axios_post env) (yt_dlp env) (ffmpeg_audio env) (fun _ _ => ending)
         (remark_html env) (make_dir env) (ffprobe env) (ffmpeg_screenshots env)
         (unlink_file env) (store_update env) (sort_order env).

Definition out_of_memory : whisper_end :=
  WhisperClosed (Some 1%Z) (js "CUDA out of memory") None.

Definition failed_transcription_run : outcome unit * World :=
  processLecture (with_whisper demo_env out_of_memory) demo_id demo_path
                 (js "Algebra") (start a_lecture).

Definition failed_download_run : outcome unit * World :=
  processYouTubeLecture
    (studio_with some_key helpful_backend (Closed (Some 1%Z)) (Returned tt) demo_order)
    demo_id demo_url (js "Algebra") (start a_youtube_lecture).

(** A backend that formats the transcript and then cannot be reached. *)
Definition short_lived_backend (t : nat) : http_outcome :=
  match t with
  | 4 => HttpContent (js "Hello world.")
  | _ => HttpFailure timeout_reason
  end.

Definition failed_summary_env : Env := studio some_key short_lived_backend demo_order.

Definition failed_summary_try : outcome unit * World :=
  processLecture_try failed_summary_env demo_id demo_path (start a_lecture).

(** Since [w0] a formatted transcript and its markup have been written for
    the lecture, and they are what the document holds. *)
Definition transcript_kept (id : jsstring) (w0 w1 : World) : Prop :=
  exists (t h : jsstring) (evs : list event),
    trace w1 = evs ++ trace w0 /\
    In (EvUpdate id (transcript_patch t h) true) evs /\
    transcriptMd (db w1) = Some t /\
    transcriptHtml (db w1) = Some h.

Definition extends (w0 w1 : World) : Prop :=
  exists evs, trace w1 = evs ++ trace w0.

(** Where a file run started in [w0] stands: before the transcript is
    stored, once it is stored, and what holds wherever the run fails. *)
Definition early (w0 w : World) : Prop :=
  extends w0 w /\
  (processingStage (db w) = extracting_audio \/ processingStage (db w) = transcribing).

Definition midway (id : jsstring) (w0 w : World) : Prop :=
  transcript_kept id w0 w /\ processingStage (db w) = summarizing.

Definition late (id : jsstring) (w0 w : World) : Prop :=
  processingStage (db w) = summarizing -> transcript_kept id w0 w.

(* ================================================================= *)
(** ** Facts about strings *)

Module StrFacts.

Lemma eqb_refl s : Str.eqb s s = true.
Proof.
  induction s as [|c s IH]; simpl; [reflexivity|].
  now rewrite N.eqb_refl, IH.
Qed.

Lemma eqb_eq s t : Str.eqb s t = true <-> s = t.
Proof.
  split.
  - revert t. induction s as [|c s IH]; intros [|d t]; simpl; try discriminate; auto.
    intros H. apply andb_true_iff in H. destruct H as [H1 H2].
    apply N.eqb_eq in H1. apply IH in H2. now subst.
  - intros ->. apply eqb_refl.
Qed.

Lemma eqb_neq s t : Str.eqb s t = false <-> s <> t.
Proof.
  split.
  - intros H E. apply eqb_eq in E. congruence.
  - intros H. destruct (Str.eqb s t) eqn:E; [|reflexivity].
    apply eqb_eq in E. contradiction.
Qed.

Lemma indexOf_from_absent c s i :
  ~ In c s -> Str.indexOf_from c s i = (-1)%Z.
Proof.
  revert i. induction s as [|x s IH]; intros i H; simpl; [reflexivity|].
  destruct (N.eqb_spec x c) as [->|_].
  - exfalso. apply H. now left.
  - apply IH. intros Hin. apply H. now right.
Qed.

Lemma indexOf_from_first c pre rest i :
  ~ In c pre ->
  Str.indexOf_from c (pre ++ c :: rest) i = (i + Z.of_nat (length pre))%Z.
Proof.
  revert i. induction pre as [|x pre IH]; intros i H; simpl.
  - rewrite N.eqb_refl. lia.
  - destruct (N.eqb_spec x c) as [->|_].
    + exfalso. apply H. now left.
    + rewrite IH; [lia|]. intros Hin. apply H. now right.
Qed.

Lemma lastIndexOf_from_absent c s i found :
  ~ In c s -> Str.lastIndexOf_from c s i found = found.
Proof.
  revert i found. induction s as [|x s IH]; intros i found H; simpl; [reflexivity|].
  destruct (N.eqb_spec x c) as [->|_].
  - exfalso. apply H. now left.
  - apply IH. intros Hin. apply H. now right.
Qed.

Lemma lastIndexOf_from_last c pre post i found :
  ~ In c post ->
  Str.lastIndexOf_from c (pre ++ c :: post) i found
  = (i + Z.of_nat (length pre))%Z.
Proof.
  revert i found. induction pre as [|x pre IH]; intros i found H; simpl.
  - rewrite N.eqb_refl, lastIndexOf_from_absent by assumption. lia.
  - rewrite IH by assumption. lia.
Qed.

Lemma substring_middle (pre mid post : jsstring) :
  Str.substring (pre ++ mid ++ post)
    (Z.of_nat (length pre)) (Z.of_nat (length pre + length mid)) = mid.
Proof.
  unfold Str.substring, Str.clamp_index.
  rewrite !length_app.
  replace (Z.max 0 (Z.min (Z.of_nat (length pre))
             (Z.of_nat (length pre + (length mid + length post)))))
    with (Z.of_nat (length pre)) by lia.
  replace (Z.max 0 (Z.min (Z.of_nat (length pre + length mid))
             (Z.of_nat (length pre + (length mid + length post)))))
    with (Z.of_nat (length pre + length mid)) by lia.
  rewrite Z.min_l, Z.max_r by lia.
  rewrite Nat2Z.id.
  replace (Z.to_nat (Z.of_nat (length pre + length mid) - Z.of_nat (length pre)))
    with (length mid) by lia.
  rewrite skipn_app, skipn_all, Nat.sub_diag. simpl.
  rewrite firstn_app, firstn_all, Nat.sub_diag. simpl.
  apply app_nil_r.
Qed.

(** The order of the two arguments does not matter. *)
Lemma substring_comm (s : jsstring) (a b : Z) :
  Str.substring s a b = Str.substring s b a.
Proof.
  unfold Str.substring. cbv zeta.
  now rewrite Z.min_comm, Z.max_comm.
Qed.

Lemma substring_swapped (pre mid post : jsstring) :
  Str.substring (pre ++ mid ++ post)
    (Z.of_nat (length pre + length mid)) (Z.of_nat (length pre)) = mid.
Proof. rewrite substring_comm. apply substring_middle. Qed.

Lemma first_occurrence (c : N) (s : jsstring) :
  In c s -> exists pre rest, s = pre ++ c :: rest /\ ~ In c pre.
Proof.
  induction s as [|x s IH]; intros H; [destruct H|].
  destruct (N.eq_dec x c) as [->|Hx].
  - exists [], s. split; [reflexivity | intros []].
  - destruct H as [H|H]; [contradiction|].
    destruct (IH H) as (pre & rest & -> & Hpre).
    exists (x :: pre), rest. split; [reflexivity|].
    intros [F|F]; [now apply Hx | now apply Hpre].
Qed.

Lemma last_occurrence (c : N) (s : jsstring) :
  In c s -> exists pre post, s = pre ++ c :: post /\ ~ In c post.
Proof.
  induction s as [|x s IH]; intros H; [destruct H|].
  destruct (in_dec N.eq_dec c s) as [Hs|Hs].
  - destruct (IH Hs) as (pre & post & -> & Hpost).
    now exists (x :: pre), post.
  - destruct H as [->|H]; [|contradiction].
    now exists [], s.
Qed.

End StrFacts.

(* ================================================================= *)
(** ** Facts about [JSON.parse] *)

Module JSONFacts.

Lemma lex_start_bracket (c : N) ts m :
  lex_start c = Some (ts, m) ->
  (In TLBracket ts -> c = open_bracket) /\ mode_ok m.
Proof.
  unfold lex_start. intros H.
  repeat match type of H with
         | context [if ?b then _ else _] => destruct b eqn:?
         | context [match ?x with _ => _ end] => destruct x eqn:?
         end;
    try discriminate; injection H as <- <-;
    (split; [cbn [In]; intros F; repeat (destruct F as [F|F]; try discriminate F);
             try contradiction
            | cbn; try discriminate; exact I]).
  now apply N.eqb_eq.
Qed.

Lemma lex_step_bracket (m : lex_mode) (c : N) ts m' :
  mode_ok m ->
  lex_step m c = Some (ts, m') ->
  (In TLBracket ts -> c = open_bracket) /\ mode_ok m'.
Proof.
  intros Hm H. destruct m as [|expected t|st a|acc|acc|acc remaining v];
    cbn [lex_step] in H.
  - now apply lex_start_bracket.
  - destruct expected as [|e rest]; [discriminate|].
    destruct (N.eqb c e); [|discriminate].
    destruct rest; injection H as <- <-.
    + split; [|exact I]. intros [F|[]]. cbn in Hm. congruence.
    + split; [intros []|exact Hm].
  - unfold lex_num, num_finish in H.
    repeat match type of H with
           | context [if ?b then _ else _] => destruct b eqn:?
           | context [match ?x with _ => _ end] => destruct x eqn:?
           end;
      try discriminate; injection H as <- <-;
      try (split; [intros [] | exact I]);
      match goal with
      | E : lex_start c = Some _ |- _ =>
          apply lex_start_bracket in E; destruct E as (E1 & E2);
          split; [intros [F|F]; [discriminate F | now apply E1] | exact E2]
      end.
  - repeat match type of H with
           | context [if ?b then _ else _] => destruct b eqn:?
           end;
      try discriminate; injection H as <- <-;
      (split; [cbn [In]; intros F; repeat (destruct F as [F|F]; try discriminate F);
               contradiction | exact I]).
  - unfold lex_escape in H.
    repeat match type of H with
           | context [if ?b then _ else _] => destruct b eqn:?
           end;
      try discriminate; injection H as <- <-;
      (split; [intros [] | exact I]).
  - destruct (hex_of c); [|discriminate].
    destruct remaining; injection H as <- <-; (split; [intros [] | exact I]).
Qed.

Lemma lex_bracket (s : jsstring) :
  forall m ts, mode_ok m -> lex m s = Some ts -> In TLBracket ts ->
               In open_bracket s.
Proof.
  induction s as [|c r IH]; intros m ts Hm H Hin.
  - cbn [lex] in H. unfold lex_end in H.
    destruct m as [| | [] a | | |]; try discriminate; injection H as <-;
      cbn [In] in Hin; repeat (destruct Hin as [Hin|Hin]; try discriminate Hin);
      contradiction.
  - cbn [lex] in H.
    destruct (lex_step m c) as [[ts1 m']|] eqn:Hstep; [|discriminate].
    destruct (lex m' r) as [rest|] eqn:Hrest; [|discriminate].
    injection H as <-.
    destruct (@lex_step_bracket m c ts1 m' Hm Hstep) as (Hc & Hm').
    apply in_app_or in Hin. destruct Hin as [Hin|Hin].
    + left. now rewrite (Hc Hin).
    + right. exact (IH m' rest Hm' Hrest Hin).
Qed.

Lemma parse_step_at_end (stack : list frame) (v : json) (t : token) :
  parse_step stack (EEnd v) t = None.
Proof. destruct t; try reflexivity; destruct stack as [|[]]; reflexivity. Qed.

Lemma parse_tokens_at_end (v : json) (ts : list token) (v' : json) :
  parse_tokens [] (EEnd v) ts = Some v' -> ts = [] /\ v' = v.
Proof.
  destruct ts as [|t r]; cbn [parse_tokens].
  - intros H. injection H as <-. now split.
  - now rewrite parse_step_at_end.
Qed.

Lemma deliver_keeps_bottom (v : json) (stack stack' : list frame) (e' : expect) :
  bottom_is_obj stack = true ->
  deliver v stack = Some (stack', e') ->
  bottom_is_obj stack' = true.
Proof.
  intros Hb H. destruct stack as [|[acc|acc [k|]] st]; try discriminate;
    injection H as <- <-; destruct st; try discriminate; exact Hb.
Qed.

(** After a step, the outermost container is still the object, or the whole
    value has been read and is that object. *)
Lemma parse_step_keeps_bottom (stack : list frame) (e : expect) (t : token)
      (stack' : list frame) (e' : expect) :
  bottom_is_obj stack = true ->
  parse_step stack e t = Some (stack', e') ->
  bottom_is_obj stack' = true \/
  (stack' = [] /\ exists fields, e' = EEnd (JObj fields)).
Proof.
  intros Hb H.
  assert (Hpush : forall f, bottom_is_obj (f :: stack) = true).
  { intros f. destruct stack; [discriminate|]. destruct f; exact Hb. }
  assert (Hpop : forall f st v, stack = f :: st ->
                 deliver v st = Some (stack', e') ->
                 (st = [] -> exists fields, v = JObj fields) ->
                 bottom_is_obj stack' = true \/
                 (stack' = [] /\ exists fields, e' = EEnd (JObj fields))).
  { intros f st v -> Hd Hv. destruct st as [|g st].
    - injection Hd as <- <-. right. split; [reflexivity|].
      destruct (Hv eq_refl) as (fields & ->). now exists fields.
    - left. apply (@deliver_keeps_bottom v (g :: st) stack' e'); [|exact Hd].
      destruct f; exact Hb. }
  destruct t; cbn [parse_step] in H.
  - destruct (wants_value e); [|discriminate]. injection H as <- <-. left. apply Hpush.
  - destruct e; try discriminate;
      destruct stack as [|[acc|acc [k|]] st]; try discriminate.
    + eapply Hpop; [reflexivity | exact H |]. intros ->. discriminate Hb.
    + eapply Hpop; [reflexivity | exact H |]. intros ->. discriminate Hb.
  - destruct (wants_value e); [|discriminate]. injection H as <- <-. left. apply Hpush.
  - destruct e; try discriminate;
      destruct stack as [|[acc|acc [k|]] st]; try discriminate.
    + eapply Hpop; [reflexivity | exact H |]. intros _. now exists acc.
    + eapply Hpop; [reflexivity | exact H |]. intros _. now exists acc.
  - destruct e; try discriminate. injection H as <- <-. now left.
  - destruct e; try discriminate;
      destruct stack as [|[acc|acc [k|]] st]; try discriminate;
      injection H as <- <-; now left.
  - destruct (wants_value e); [|discriminate].
    left. exact (@deliver_keeps_bottom _ _ _ _ Hb H).
  - destruct (wants_value e); [|discriminate].
    left. exact (@deliver_keeps_bottom _ _ _ _ Hb H).
  - destruct (wants_value e); [|discriminate].
    left. exact (@deliver_keeps_bottom _ _ _ _ Hb H).
  - destruct (wants_value e); [|discriminate].
    left. exact (@deliver_keeps_bottom _ _ _ _ Hb H).
  - destruct e; try discriminate;
      try (left; exact (@deliver_keeps_bottom _ _ _ _ Hb H));
      destruct stack as [|[acc|acc [k|]] st]; try discriminate;
      injection H as <- <-; left; destruct st; exact Hb.
Qed.

Lemma parse_tokens_object (ts : list token) :
  forall stack e v,
    bottom_is_obj stack = true ->
    parse_tokens stack e ts = Some v ->
    exists fields, v = JObj fields.
Proof.
  induction ts as [|t r IH]; intros stack e v Hb H; cbn [parse_tokens] in H.
  - destruct e; try discriminate. destruct stack; [discriminate Hb | discriminate H].
  - destruct (parse_step stack e t) as [[stack' e']|] eqn:Hstep; [|discriminate].
    destruct (@parse_step_keeps_bottom _ _ _ _ _ Hb Hstep) as [Hb'|(-> & fields & ->)].
    + exact (IH stack' e' v Hb' H).
    + apply parse_tokens_at_end in H. destruct H as (_ & ->). now exists fields.
Qed.

(** An array is read only from tokens that begin with an opening bracket. *)
Lemma parse_tokens_array (ts : list token) (items : list json) :
  parse_tokens [] EValue ts = Some (JArr items) ->
  exists r, ts = TLBracket :: r.
Proof.
  destruct ts as [|t r]; [discriminate|]. cbn [parse_tokens].
  destruct t; cbn [parse_step wants_value deliver];
    try discriminate; try (now exists r); intros H.
  - apply (@parse_tokens_object r [FObj [] None] _ _ eq_refl) in H.
    destruct H as (fields & F). discriminate F.
  - apply parse_tokens_at_end in H. destruct H as (_ & F). discriminate F.
  - apply parse_tokens_at_end in H. destruct H as (_ & F). discriminate F.
  - apply parse_tokens_at_end in H. destruct H as (_ & F). discriminate F.
  - apply parse_tokens_at_end in H. destruct H as (_ & F). discriminate F.
  - apply parse_tokens_at_end in H. destruct H as (_ & F). discriminate F.
Qed.

(** A text that [JSON.parse] reads as an array contains an opening
    bracket. *)
Lemma parse_array_has_bracket (s : jsstring) (items : list json) :
  JSON.parse s = Some (JArr items) -> In open_bracket s.
Proof.
  unfold JSON.parse. destruct (lex LStart s) as [ts|] eqn:Hlex; [|discriminate].
  intros H. apply parse_tokens_array in H. destruct H as (r & ->).
  apply (@lex_bracket s LStart (TLBracket :: r)); [exact I | exact Hlex | now left].
Qed.

End JSONFacts.

(* ================================================================= *)
(** ** Frame extraction *)

Lemma frameCount_clamp (d : Q) :
  frameCount d = clampZ 4 12 (Qfloor (d / 30)%Q).
Proof.
  unfold frameCount, clampZ.
  destruct (Z.ltb_spec (Qfloor (d / 30)%Q) 4);
    destruct (Z.ltb_spec 12 (Qfloor (d / 30)%Q)); lia.
Qed.

Lemma frameCount_range (d : Q) : (4 <= frameCount d <= 12)%Z.
Proof. unfold frameCount. lia. Qed.

(** C7. For a positive duration [d] reported by the probe, the screenshot
    request that frame extraction sends asks for
    [clamp(floor(d / 30), 4, 12)] frames, a number between 4 and 12. *)
Theorem frames_requested_clamped :
  forall (env : Env) (videoPath0 lectureId : jsstring) (w : World) (d : Q),
    (0 < d)%Q ->
    make_dir env (length (trace w)) (frames_dir lectureId) = Returned tt ->
    ffprobe env (S (length (trace w))) videoPath0 = Returned d ->
    let n := clampZ 4 12 (Qfloor (d / 30)%Q) in
    hd_error (trace (snd (extractFrames env videoPath0 lectureId w)))
    = Some (EvScreenshots videoPath0 n (frames_dir lectureId))
    /\ frameCount d = n
    /\ (4 <= n <= 12)%Z.
Proof.
  intros env videoPath0 lectureId w d _ Hdir Hprobe n.
  assert (Hn : frameCount d = n) by apply frameCount_clamp.
  split; [|split; [exact Hn | rewrite <- Hn; apply frameCount_range]].
  unfold extractFrames, bind, tool, record_event. cbn [trace].
  rewrite Hdir. cbn [trace length]. rewrite Hprobe. cbn [trace length].
  rewrite Hn.
  destruct (ffmpeg_screenshots env _ videoPath0 n _); reflexivity.
Qed.

Lemma frames_requested_clamped_witness :
  hd_error (trace (snd (extractFrames (studio some_key helpful_backend no_shuffle)
                          (js "uploads/1-algebra.mp4") (js "L1") (start a_lecture))))
  = Some (EvScreenshots (js "uploads/1-algebra.mp4") 4 (frames_dir (js "L1"))).
Proof.
  refine (proj1 (@frames_requested_clamped
                   (studio some_key helpful_backend no_shuffle)
                   (js "uploads/1-algebra.mp4") (js "L1") (start a_lecture)
                   (90 # 1)%Q _ _ _)).
  - reflexivity.
  - reflexivity.
  - reflexivity.
Defined.

(* ================================================================= *)
(** ** The status route *)

Lemma nonempty_string_iff (s : option jsstring) :
  nonempty_string s = true <-> exists t, s = Some t /\ t <> [].
Proof.
  split.
  - destruct s as [[|c t]|]; simpl; try discriminate.
    intros _. exists (c :: t). split; [reflexivity | discriminate].
  - intros (t & -> & Ht). destruct t; [contradiction | reflexivity].
Qed.

Lemma nonempty_array_iff {A : Type} (a : option (list A)) :
  nonempty_array a = true <-> exists l, a = Some l /\ l <> [].
Proof.
  split.
  - destruct a as [[|x l]|]; simpl; try discriminate.
    intros _. exists (x :: l). split; [reflexivity | discriminate].
  - intros (l & -> & Hl). destruct l; [contradiction | reflexivity].
Qed.

(** C10. For an existing lecture the report says [isComplete] exactly when
    the stored stage is [complete] (so never for a failed or in-flight
    lecture), and each [has...] flag is true exactly when the stored field is
    present and not empty. *)
Theorem status_flags_follow_record :
  forall lecture : Lecture,
  exists body : progress,
    get_status (Some lecture) = Progress body /\
    stage body = processingStage lecture /\
    error body = processingError lecture /\
    (isComplete body = true <-> processingStage lecture = complete) /\
    (In (processingStage lecture)
        [uploaded; downloading; extracting_audio; transcribing; summarizing; failed]
       -> isComplete body = false) /\
    (hasTranscript body = true <->
       exists s, transcriptMd lecture = Some s /\ s <> []) /\
    (hasSummary body = true <->
       exists s, summaryMd lecture = Some s /\ s <> []) /\
    (hasQuizzes body = true <->
       exists q, quizzes lecture = Some q /\ q <> []) /\
    (hasSlides body = true <->
       exists s, slides lecture = Some s /\ s <> []).
Proof.
  intros lecture. eexists. split; [reflexivity|]. simpl.
  repeat split; try (apply nonempty_string_iff); try (apply nonempty_array_iff);
    try (apply StrFacts.eqb_eq).
  intros Hin. apply StrFacts.eqb_neq.
  simpl in Hin.
  repeat (destruct Hin as [<-|Hin]; [discriminate|]). contradiction.
Qed.

(* ================================================================= *)
(** ** The AI client *)

Lemma callAI_without_key env msgs maxTokens w :
  no_api_key env = true ->
  callAI env msgs maxTokens w = (Thrown (new_Error missing_key_message), w).
Proof. intros H. unfold callAI. rewrite H. reflexivity. Qed.

Lemma callAI_with_key env msgs maxTokens w :
  no_api_key env = false ->
  callAI env msgs maxTokens w =
  (match axios_post env (length (trace w)) (request_of env msgs maxTokens) with
   | HttpContent text => Returned text
   | HttpFailure _ => Thrown (new_Error ai_failure_message)
   end,
   record_event (EvPost (request_of env msgs maxTokens)) w).
Proof.
  intros H. unfold callAI. rewrite H. unfold request_of, record_event.
  destruct (axios_post env _ _); reflexivity.
Qed.

(** C8, refuted as stated: with the backend timing out, the error raised has
    the fixed message, in which the reason of the failure does not occur. *)
Lemma callAI_message_omits_reason : ~ ai_error_wraps_reason.
Proof.
  intros claim.
  destruct (claim (studio some_key unreachable_backend no_shuffle)
                  (user (js "Hello")) 1500%Z (start a_lecture) timeout_reason
                  eq_refl eq_refl) as (e & w' & Hrun & Hin).
  rewrite callAI_with_key in Hrun by reflexivity.
  simpl in Hrun. injection Hrun as <- _.
  vm_compute in Hin. discriminate.
Qed.

(** C8, amended. Without a credential [callAI] fails with the configuration
    message before any request is sent (the world is unchanged); when the
    request fails, for whatever reason, it fails with the fixed message
    "Failed to communicate with the AI model.", after exactly one request. *)
Theorem callAI_failures :
  forall (env : Env) (msgs : list chat_message) (maxTokens : Z) (w : World),
    (no_api_key env = true ->
       callAI env msgs maxTokens w
       = (Thrown (new_Error missing_key_message), w))
    /\
    (forall reason,
       no_api_key env = false ->
       axios_post env (length (trace w)) (request_of env msgs maxTokens)
         = HttpFailure reason ->
       callAI env msgs maxTokens w
       = (Thrown (new_Error ai_failure_message),
          record_event (EvPost (request_of env msgs maxTokens)) w)).
Proof.
  intros env msgs maxTokens w. split.
  - apply callAI_without_key.
  - intros reason Hkey Hpost. rewrite callAI_with_key by assumption.
    now rewrite Hpost.
Qed.

Lemma callAI_failures_witness :
  callAI (studio None helpful_backend no_shuffle) (user (js "Hello")) 1500
         (start a_lecture)
  = (Thrown (new_Error missing_key_message), start a_lecture)
  /\
  callAI (studio some_key unreachable_backend no_shuffle) (user (js "Hello")) 1500
         (start a_lecture)
  = (Thrown (new_Error ai_failure_message),
     record_event
       (EvPost (request_of (studio some_key unreachable_backend no_shuffle)
                           (user (js "Hello")) 1500))
       (start a_lecture)).
Proof.
  split.
  - apply (proj1 (callAI_failures (studio None helpful_backend no_shuffle)
                    (user (js "Hello")) 1500 (start a_lecture))).
    reflexivity.
  - apply (proj2 (callAI_failures (studio some_key unreachable_backend no_shuffle)
                    (user (js "Hello")) 1500 (start a_lecture)) timeout_reason).
    + reflexivity.
    + reflexivity.
Defined.

(* ================================================================= *)
(** ** Bracket extraction *)

Lemma extract_json_without_brackets (response : jsstring) :
  ~ In open_bracket response \/ ~ In close_bracket response ->
  extract_json response
  = Thrown (new_Error (js "AI response did not contain a JSON array.")).
Proof.
  intros H. unfold extract_json, Str.indexOf, Str.lastIndexOf.
  destruct H as [H|H].
  - now rewrite StrFacts.indexOf_from_absent by assumption.
  - rewrite StrFacts.lastIndexOf_from_absent by assumption.
    now rewrite orb_true_r.
Qed.

Lemma extract_json_slices (pre mid post : jsstring) :
  ~ In open_bracket pre -> ~ In close_bracket post ->
  extract_json (pre ++ ([open_bracket] ++ mid ++ [close_bracket]) ++ post)
  = Returned ([open_bracket] ++ mid ++ [close_bracket]).
Proof.
  intros Hpre Hpost. unfold extract_json, Str.indexOf, Str.lastIndexOf.
  replace (pre ++ ([open_bracket] ++ mid ++ [close_bracket]) ++ post)
    with (pre ++ open_bracket :: (mid ++ [close_bracket] ++ post))
    by (simpl; now rewrite <- !app_assoc).
  rewrite StrFacts.indexOf_from_first by assumption.
  replace (pre ++ open_bracket :: (mid ++ [close_bracket] ++ post))
    with ((pre ++ open_bracket :: mid) ++ close_bracket :: post)
    by (simpl; now rewrite <- !app_assoc).
  rewrite StrFacts.lastIndexOf_from_last by assumption.
  rewrite length_app. simpl length.
  destruct (Z.eqb_spec (0 + Z.of_nat (length pre)) (-1)) as [E|_]; [lia|].
  destruct (Z.eqb_spec (0 + Z.of_nat (length pre + S (length mid))) (-1)) as [E|_]; [lia|].
  cbn [orb]. f_equal.
  replace ((pre ++ open_bracket :: mid) ++ close_bracket :: post)
    with (pre ++ ([open_bracket] ++ mid ++ [close_bracket]) ++ post)
    by (simpl; now rewrite <- !app_assoc).
  replace (0 + Z.of_nat (length pre))%Z with (Z.of_nat (length pre)) by lia.
  replace (0 + Z.of_nat (length pre + S (length mid)) + 1)%Z
    with (Z.of_nat (length pre + length ([open_bracket] ++ mid ++ [close_bracket]))).
  - apply StrFacts.substring_middle.
  - rewrite !length_app. simpl length. lia.
Qed.

(** The only way to an array: the response is prose without an opening
    bracket, a bracketed text that reads as the array, and prose without a
    closing bracket. *)
Lemma parse_quiz_response_array (response : jsstring) (items : list json) :
  parse_quiz_response response = Returned (JArr items) ->
  exists pre mid post,
    response = pre ++ ([open_bracket] ++ mid ++ [close_bracket]) ++ post /\
    ~ In open_bracket pre /\ ~ In close_bracket post /\
    JSON.parse ([open_bracket] ++ mid ++ [close_bracket]) = Some (JArr items).
Proof.
  intros H.
  destruct (in_dec N.eq_dec open_bracket response) as [Ho|Ho];
    [|unfold parse_quiz_response in H;
      rewrite extract_json_without_brackets in H by (now left); discriminate H].
  destruct (in_dec N.eq_dec close_bracket response) as [Hc|Hc];
    [|unfold parse_quiz_response in H;
      rewrite extract_json_without_brackets in H by (now right); discriminate H].
  destruct (@StrFacts.first_occurrence open_bracket response Ho) as (p1 & r1 & E1 & Hp1).
  destruct (@StrFacts.last_occurrence close_bracket response Hc) as (p2 & q2 & E2 & Hq2).
  assert (E : p1 ++ open_bracket :: r1 = p2 ++ close_bracket :: q2)
    by now rewrite <- E1.
  apply app_eq_app in E. destruct E as (l & [(Ep & Er)|(Ep & Er)]).
  - (* the last closing bracket is at or before the first opening bracket *)
    destruct l as [|x l].
    + cbn [app] in Er. injection Er as F _. discriminate F.
    + cbn [app] in Er. injection Er as <- Eq.
      exfalso.
      assert (Hi : Str.indexOf response open_bracket = Z.of_nat (length p1)).
      { unfold Str.indexOf. rewrite E1.
        rewrite StrFacts.indexOf_from_first by assumption. lia. }
      assert (Hl : Str.lastIndexOf response close_bracket = Z.of_nat (length p2)).
      { unfold Str.lastIndexOf. rewrite E2.
        rewrite StrFacts.lastIndexOf_from_last by assumption. lia. }
      assert (Es : Str.substring response (Z.of_nat (length p1))
                     (Z.of_nat (length p2) + 1) = l).
      { rewrite E1, Ep.
        replace ((p2 ++ close_bracket :: l) ++ open_bracket :: r1)
          with ((p2 ++ [close_bracket]) ++ l ++ open_bracket :: r1)
          by (now rewrite <- !app_assoc).
        replace (Z.of_nat (length (p2 ++ close_bracket :: l)))
          with (Z.of_nat (length (p2 ++ [close_bracket]) + length l))
          by (rewrite !length_app; cbn [length]; lia).
        replace (Z.of_nat (length p2) + 1)%Z
          with (Z.of_nat (length (p2 ++ [close_bracket])))
          by (rewrite !length_app; cbn [length]; lia).
        apply StrFacts.substring_swapped. }
      unfold parse_quiz_response, extract_json in H. cbv zeta in H.
      rewrite Hi, Hl, Es in H.
      destruct (Z.eqb_spec (Z.of_nat (length p1)) (-1)) as [F|_]; [lia|].
      destruct (Z.eqb_spec (Z.of_nat (length p2)) (-1)) as [F|_]; [lia|].
      cbn [orb] in H.
      destruct (JSON.parse l) as [v|] eqn:Hparse; [|discriminate H].
      injection H as ->. apply JSONFacts.parse_array_has_bracket in Hparse.
      apply Hp1. rewrite Ep. apply in_or_app. right. now right.
  - (* the first opening bracket comes first *)
    destruct l as [|x l].
    + cbn [app] in Er. injection Er as F _. discriminate F.
    + cbn [app] in Er. injection Er as <- Er.
      exists p1, l, q2. split; [|split; [exact Hp1 | split; [exact Hq2|]]].
      * rewrite E2, Ep. cbn [app]. now rewrite <- !app_assoc.
      * assert (Eresp : response
                        = p1 ++ ([open_bracket] ++ l ++ [close_bracket]) ++ q2)
          by (rewrite E2, Ep; cbn [app]; now rewrite <- !app_assoc).
        unfold parse_quiz_response in H.
        rewrite Eresp, (extract_json_slices p1 l q2 Hp1 Hq2) in H.
        destruct (JSON.parse ([open_bracket] ++ l ++ [close_bracket]));
          [|discriminate H].
        now injection H as ->.
Qed.

(** C4, refuted as stated: in "Note[x]:[1]" exactly one JSON array can be
    read, "[1]", but the slice from the first opening bracket to the last
    closing bracket is "[x]:[1]", which is not JSON. *)
Lemma bracketed_prose_defeats_parser : ~ parser_finds_the_embedded_array.
Proof.
  intros claim.
  specialize (claim (js "Note[x]:[1]") 8 3 [JNum 1] eq_refl).
  vm_compute in claim. discriminate.
Qed.

(** C4, amended. When the response is prose without an opening bracket, then
    a bracketed text, then prose without a closing bracket, the parser slices
    out exactly the bracketed text, from the first opening bracket to the
    last closing bracket inclusive, and the attempt goes on with what
    [JSON.parse] makes of it; so if that text is a well-formed JSON array,
    the array is returned as parsed. A response without an opening bracket
    or without a closing bracket makes the attempt fail. An array is
    returned in no other way: whenever the parser returns one, the response
    has that shape and the array is what the bracketed text reads as. *)
Theorem quiz_parser_extraction :
  (forall pre mid post : jsstring,
      ~ In open_bracket pre ->
      ~ In close_bracket post ->
      extract_json (pre ++ ([open_bracket] ++ mid ++ [close_bracket]) ++ post)
      = Returned ([open_bracket] ++ mid ++ [close_bracket])
      /\
      parse_quiz_response (pre ++ ([open_bracket] ++ mid ++ [close_bracket]) ++ post)
      = match JSON.parse ([open_bracket] ++ mid ++ [close_bracket]) with
        | Some v => Returned v
        | None => Thrown json_syntax_error
        end)
  /\
  (forall (pre mid post : jsstring) (items : list json),
      ~ In open_bracket pre ->
      ~ In close_bracket post ->
      JSON.parse ([open_bracket] ++ mid ++ [close_bracket]) = Some (JArr items) ->
      parse_quiz_response (pre ++ ([open_bracket] ++ mid ++ [close_bracket]) ++ post)
      = Returned (JArr items))
  /\
  (forall response : jsstring,
      ~ In open_bracket response \/ ~ In close_bracket response ->
      parse_quiz_response response
      = Thrown (new_Error (js "AI response did not contain a JSON array.")))
  /\
  (forall (response : jsstring) (items : list json),
      parse_quiz_response response = Returned (JArr items) ->
      exists pre mid post : jsstring,
        response = pre ++ ([open_bracket] ++ mid ++ [close_bracket]) ++ post /\
        ~ In open_bracket pre /\ ~ In close_bracket post /\
        JSON.parse ([open_bracket] ++ mid ++ [close_bracket]) = Some (JArr items)).
Proof.
  assert (Hslice : forall pre mid post : jsstring,
             ~ In open_bracket pre -> ~ In close_bracket post ->
             extract_json (pre ++ ([open_bracket] ++ mid ++ [close_bracket]) ++ post)
             = Returned ([open_bracket] ++ mid ++ [close_bracket]) /\
             parse_quiz_response
               (pre ++ ([open_bracket] ++ mid ++ [close_bracket]) ++ post)
             = match JSON.parse ([open_bracket] ++ mid ++ [close_bracket]) with
               | Some v => Returned v
               | None => Thrown json_syntax_error
               end).
  { intros pre mid post Hpre Hpost.
    pose proof (extract_json_slices pre mid post Hpre Hpost) as E.
    split; [exact E|]. unfold parse_quiz_response. now rewrite E. }
  split; [exact Hslice|]. split; [|split].
  - intros pre mid post items Hpre Hpost Hparse.
    destruct (Hslice pre mid post Hpre Hpost) as (_ & E).
    now rewrite E, Hparse.
  - intros response H. unfold parse_quiz_response.
    now rewrite extract_json_without_brackets.
  - exact parse_quiz_response_array.
Qed.

Ltac absent :=
  let H := fresh in
  intro H; cbv in H;
  repeat (destruct H as [H|H]; [discriminate H|]); exact H.

Lemma quiz_parser_extraction_witness :
  parse_quiz_response (js "Here is your quiz: [1, [2]] Enjoy (see above)!")
  = Returned (JArr [JNum 1; JArr [JNum 2]])
  /\
  parse_quiz_response (js "I cannot help with that.")
  = Thrown (new_Error (js "AI response did not contain a JSON array."))
  /\
  exists pre mid post : jsstring,
    js "Quiz: [1] Done" = pre ++ ([open_bracket] ++ mid ++ [close_bracket]) ++ post /\
    ~ In open_bracket pre /\ ~ In close_bracket post /\
    JSON.parse ([open_bracket] ++ mid ++ [close_bracket]) = Some (JArr [JNum 1]).
Proof.
  split; [|split].
  - apply (proj1 (proj2 quiz_parser_extraction)
             (js "Here is your quiz: ") (js "1, [2]") (js " Enjoy (see above)!")
             [JNum 1; JArr [JNum 2]]).
    + absent.
    + absent.
    + vm_compute. reflexivity.
  - apply (proj1 (proj2 (proj2 quiz_parser_extraction))
             (js "I cannot help with that.")).
    left. absent.
  - apply (proj2 (proj2 (proj2 quiz_parser_extraction))
             (js "Quiz: [1] Done") [JNum 1]).
    vm_compute. reflexivity.
Defined.

(* ================================================================= *)
(** ** The shuffle *)

Module ShuffleFacts.

Lemma insert_at_perm {A : Type} (n : nat) (x : A) (l : list A) :
  Permutation (x :: l) (insert_at n x l).
Proof.
  revert n. induction l as [|y r IH]; intros [|n]; simpl; try apply Permutation_refl.
  eapply perm_trans; [apply perm_swap|]. apply perm_skip, IH.
Qed.

Lemma rearrange_perm {A : Type} (choices : list nat) (l : list A) :
  Permutation l (rearrange choices l).
Proof.
  revert choices. induction l as [|x r IH]; intros choices; simpl.
  - apply perm_nil.
  - eapply perm_trans; [apply perm_skip, IH | apply insert_at_perm].
Qed.

Lemma insert_at_split {A : Type} (x : A) (l1 l2 : list A) :
  insert_at (length l1) x (l1 ++ l2) = l1 ++ x :: l2.
Proof.
  induction l1 as [|y l1 IH]; simpl.
  - destruct l2; reflexivity.
  - now rewrite IH.
Qed.

(** Every rearrangement is the result of some sequence of choices. *)
Lemma rearrange_complete {A : Type} (l l' : list A) :
  Permutation l l' -> exists choices, rearrange choices l = l'.
Proof.
  revert l'. induction l as [|x r IH]; intros l' H.
  - apply Permutation_nil in H. subst. now exists [].
  - assert (Hin : In x l') by (eapply Permutation_in; [exact H | now left]).
    apply in_split in Hin. destruct Hin as (l1 & l2 & ->).
    apply Permutation_cons_app_inv in H.
    destruct (IH _ H) as (c & Hc).
    exists (length l1 :: c). simpl. rewrite Hc. apply insert_at_split.
Qed.

Lemma get_set_same k v fields :
  get_field k (set_field k v fields) = Some v.
Proof.
  induction fields as [|[k' v'] r IH]; simpl.
  - now rewrite StrFacts.eqb_refl.
  - destruct (Str.eqb k k') eqn:E; simpl; rewrite E; [reflexivity | exact IH].
Qed.

Lemma get_set_other k k0 v fields :
  k <> k0 -> get_field k (set_field k0 v fields) = get_field k fields.
Proof.
  intros Hne. induction fields as [|[k' v'] r IH]; simpl.
  - apply StrFacts.eqb_neq in Hne. now rewrite Hne.
  - destruct (Str.eqb k0 k') eqn:E; simpl.
    + apply StrFacts.eqb_eq in E. subst k'.
      apply StrFacts.eqb_neq in Hne. now rewrite Hne.
    + destruct (Str.eqb k k'); [reflexivity | exact IH].
Qed.

Lemma map_snd_tagged {A : Type} (l : list A) (from : nat) :
  map snd (combine (seq from (length l)) l) = l.
Proof.
  revert from. induction l as [|x r IH]; intros from; simpl; [reflexivity|].
  now rewrite IH.
Qed.

Lemma tagged_in {A : Type} (l : list A) (from k : nat) (v : A) :
  nth_error l k = Some v -> In (from + k, v) (combine (seq from (length l)) l).
Proof.
  revert from k. induction l as [|x r IH]; intros from [|k] H; simpl in *; try discriminate.
  - injection H as ->. left. f_equal. lia.
  - right. replace (from + S k) with (S from + k) by lia. now apply IH.
Qed.

Lemma item_at_nth (items : list json) (k pos : nat) (v : json) :
  nth_error items k = Some v ->
  item_at items (N.of_nat k) pos = Item (pos + k) v.
Proof.
  revert k pos. induction items as [|x r IH]; intros [|k] pos H; simpl in H; try discriminate.
  - injection H as ->. simpl. f_equal. lia.
  - rewrite Nat2N.inj_succ. cbn [item_at].
    destruct (N.eqb_spec (N.succ (N.of_nat k)) 0) as [E|_]; [lia|].
    rewrite N.pred_succ, (IH k (S pos) H). f_equal. lia.
Qed.

Lemma key_of_index (k : nat) :
  (N.of_nat k < max_array_index)%N ->
  to_property_key (JNum (inject_Z (Z.of_nat k))) = Returned (KIndex (N.of_nat k)).
Proof.
  intros Hk. unfold to_property_key. cbn [to_string_throws key_of].
  unfold key_of_number.
  rewrite Qcanon.Qred_identity by (cbn [inject_Z Qnum Qden]; apply Z.gcd_1_r).
  cbn [inject_Z Qnum Qden].
  assert (E : Z.to_N (Z.of_nat k) = N.of_nat k).
  { rewrite <- nat_N_Z. apply N2Z.id. }
  rewrite E.
  destruct (Z.leb_spec 0 (Z.of_nat k)) as [_|F]; [|lia].
  destruct (N.ltb_spec (N.of_nat k) max_array_index) as [_|F]; [|lia].
  reflexivity.
Qed.

Lemma prim_eqb_string s v : prim_eqb (JStr s) v = true -> v = JStr s.
Proof.
  destruct v; simpl; try discriminate.
  intros H. apply StrFacts.eqb_eq in H. now subst.
Qed.

Lemma array_indexOf_found text (items : list (nat * json)) (i : Z) :
  (exists x, In x items /\ strict_equals text x = true) ->
  exists n x,
    array_indexOf_from text items i = (i + Z.of_nat n)%Z /\
    nth_error items n = Some x /\
    strict_equals text x = true.
Proof.
  revert i. induction items as [|y r IH]; intros i (x & Hin & Heq).
  - destruct Hin.
  - simpl. destruct (strict_equals text y) eqn:E.
    + exists 0, y. repeat split; [lia | assumption].
    + destruct Hin as [->|Hin]; [congruence|].
      destruct (IH (i + 1)%Z (ex_intro _ x (conj Hin Heq))) as (n & z & H1 & H2 & H3).
      exists (S n), z. repeat split; [lia | assumption | assumption].
Qed.

End ShuffleFacts.

Section Shuffle.

Variable env : Env.

(** On an item of the data model the callback returns, whatever the order
    the sort leaves. *)
Lemma shuffle_quiz_item (item : json) (opts : list jsstring) (k : nat) (w : World) :
  is_quiz_item item opts k ->
  exists item' w' opts' k',
    shuffle_quiz env item w = (Returned item', w') /\
    db w' = db w /\ trace w' = trace w /\ history w' = history w /\
    shuffled_item item item' opts' k' /\
    Permutation opts opts' /\
    nth_error opts' k' = nth_error opts k.
Proof.
  intros (fields & -> & Hopts & Hca & Hk & Hlen).
  destruct (nth_error opts k) as [s|] eqn:Hs;
    [|apply nth_error_None in Hs; lia].
  assert (Hs' : nth_error (map JStr opts) k = Some (JStr s))
    by (now rewrite nth_error_map, Hs).
  set (sorted := rearrange (sort_order env (sorts w)) (tag (map JStr opts))).
  assert (Hperm : Permutation (map JStr opts) (map snd sorted)).
  { replace (map JStr opts) with (map snd (tag (map JStr opts))) at 1
      by apply ShuffleFacts.map_snd_tagged.
    apply Permutation_map, ShuffleFacts.rearrange_perm. }
  destruct (Permutation_map_inv _ _ (Permutation_sym Hperm)) as (opts' & Hopts' & Hperm').
  destruct (@ShuffleFacts.array_indexOf_found (Item k (JStr s)) sorted 0%Z)
    as (n & [p v] & Hidx & Hnth & Heq).
  { exists (k, JStr s). split.
    - apply (Permutation_in _ (ShuffleFacts.rearrange_perm _ _)).
      apply (ShuffleFacts.tagged_in (map JStr opts) 0 k Hs').
    - simpl. apply StrFacts.eqb_refl. }
  cbn [strict_equals snd] in Heq. apply ShuffleFacts.prim_eqb_string in Heq. subst v.
  exists (JObj (set_field correctAnswer_key (JNum (inject_Z (Z.of_nat n)))
                  (set_field options_key (JArr (map JStr opts')) fields))).
  exists (mk_World (db w) (trace w) (S (sorts w)) (history w)), opts', n.
  split; [|split; [reflexivity|split; [reflexivity|split; [reflexivity|split;[|split]]]]].
  - unfold shuffle_quiz. rewrite Hopts, Hca. cbn [truthy].
    rewrite ShuffleFacts.key_of_index by lia.
    unfold bind, sort_randomly, ret. fold sorted.
    unfold array_get. rewrite (ShuffleFacts.item_at_nth _ _ 0 Hs'). cbn [Nat.add].
    unfold array_indexOf. rewrite Hidx, <- Hopts'. reflexivity.
  - exists fields. eexists. split; [reflexivity|]. split; [reflexivity|].
    assert (Hne : options_key <> correctAnswer_key) by discriminate.
    split; [|split].
    + rewrite ShuffleFacts.get_set_other by exact Hne.
      apply ShuffleFacts.get_set_same.
    + apply ShuffleFacts.get_set_same.
    + intros name H1 H2.
      now rewrite !ShuffleFacts.get_set_other by assumption.
  - exact Hperm'.
  - assert (Hn : nth_error (map snd sorted) n = Some (JStr s))
      by (now rewrite nth_error_map, Hnth).
    rewrite Hopts', nth_error_map in Hn.
    destruct (nth_error opts' n) as [t|]; [|discriminate].
    simpl in Hn. now injection Hn as ->.
Qed.

Lemma forEach_shuffle_nth (items items' : list json) (w w' : World) :
  forEach_shuffle env items w = (Returned items', w') ->
  forall i item, nth_error items i = Some item ->
    exists item' w1 w2,
      nth_error items' i = Some item' /\
      shuffle_quiz env item w1 = (Returned item', w2).
Proof.
  revert items' w w'. induction items as [|q r IH]; intros items' w w' Hrun i item Hi.
  - destruct i; discriminate.
  - cbn [forEach_shuffle] in Hrun. unfold bind in Hrun.
    destruct (shuffle_quiz env q w) as [[q'|e] w1] eqn:Hq; [|discriminate].
    destruct (forEach_shuffle env r w1) as [[r'|e] w2] eqn:Hr; [|discriminate].
    unfold ret in Hrun. injection Hrun as <- <-.
    destruct i as [|i]; simpl in Hi.
    + injection Hi as <-. exists q', w, w1. now split.
    + destruct (IH _ _ _ Hr i item Hi) as (item' & wa & wb & H1 & H2).
      exists item', wa, wb. now split.
Qed.

(** C3. After the shuffle step has run over a parsed array, every item of
    the data model (string options, [correctAnswer] a valid index) has as
    options a permutation of its original options, and its [correctAnswer]
    points at the text that was correct before. *)
Theorem shuffle_keeps_the_correct_answer :
  forall (items items' : list json) (w w' : World),
    shuffle_all env (JArr items) w = (Returned items', w') ->
    forall (i : nat) (item : json) (opts : list jsstring) (k : nat),
      nth_error items i = Some item ->
      is_quiz_item item opts k ->
      exists (item' : json) (opts' : list jsstring) (k' : nat),
        nth_error items' i = Some item' /\
        shuffled_item item item' opts' k' /\
        Permutation opts opts' /\
        nth_error opts' k' = nth_error opts k.
Proof.
  intros items items' w w' Hrun i item opts k Hi Hitem.
  cbn [shuffle_all] in Hrun.
  destruct (forEach_shuffle_nth _ _ Hrun _ Hi) as (item' & w1 & w2 & Hi' & Hq).
  destruct (shuffle_quiz_item w1 Hitem)
    as (item'' & w'' & opts' & k' & Hq' & _ & _ & _ & Hsh & Hperm & Hnth).
  rewrite Hq in Hq'. injection Hq' as -> _.
  exists item'', opts', k'. repeat split; assumption.
Qed.

End Shuffle.

Lemma shuffle_keeps_the_correct_answer_witness :
  exists (item' : json) (opts' : list jsstring) (k' : nat),
    nth_error demo_shuffled 0 = Some item' /\
    shuffled_item (nth 0 demo_items JNull) item' opts' k' /\
    Permutation [js "3"; js "4"; js "5"; js "6"] opts' /\
    nth_error opts' k' = Some (js "4").
Proof.
  apply (@shuffle_keeps_the_correct_answer
           (studio some_key helpful_backend demo_order)
           demo_items demo_shuffled (start a_lecture) (snd demo_shuffle)
           (eq_refl : shuffle_all (studio some_key helpful_backend demo_order)
                        (JArr demo_items) (start a_lecture)
                      = (Returned demo_shuffled, snd demo_shuffle))
           0 (nth 0 demo_items JNull) [js "3"; js "4"; js "5"; js "6"] 1).
  - reflexivity.
  - eexists. split; [reflexivity|].
    split; [reflexivity|]. split; [reflexivity|].
    split; [simpl; lia | reflexivity].
Defined.

(* ================================================================= *)
(** ** Quiz generation *)

Ltac break_match_in H :=
  repeat match type of H with
         | context [match ?x with _ => _ end] => destruct x eqn:?
         end.

Section QuizFacts.

Variable env : Env.

Lemma callAI_cases (msgs : list chat_message) (maxTokens : Z) (w : World) :
  (no_api_key env = true /\
   callAI env msgs maxTokens w = (Thrown (new_Error missing_key_message), w))
  \/
  (no_api_key env = false /\
   exists r,
     callAI env msgs maxTokens w
     = (r, record_event (EvPost (request_of env msgs maxTokens)) w)).
Proof.
  destruct (no_api_key env) eqn:Hkey.
  - left. split; [reflexivity|]. now apply callAI_without_key.
  - right. split; [reflexivity|]. rewrite callAI_with_key by assumption.
    eexists. reflexivity.
Qed.

Lemma shuffle_quiz_still (item : json) (w : World) r w' :
  shuffle_quiz env item w = (r, w') ->
  db w' = db w /\ trace w' = trace w /\ history w' = history w.
Proof.
  unfold shuffle_quiz, bind, sort_randomly, ret, throw. intros H.
  break_match_in H; injection H as <- <-; auto.
Qed.

Lemma forEach_shuffle_still (items : list json) (w : World) r w' :
  forEach_shuffle env items w = (r, w') ->
  db w' = db w /\ trace w' = trace w /\ history w' = history w.
Proof.
  revert w r w'. induction items as [|q rest IH]; intros w r w' H.
  - injection H as <- <-. auto.
  - cbn [forEach_shuffle] in H. unfold bind in H.
    destruct (shuffle_quiz env q w) as [[q'|e] w1] eqn:Hq.
    + apply shuffle_quiz_still in Hq. destruct Hq as (E1 & E2 & E3).
      destruct (forEach_shuffle env rest w1) as [[rest'|e] w2] eqn:Hr;
        apply IH in Hr; destruct Hr as (F1 & F2 & F3);
        injection H as <- <-; repeat split; congruence.
    + apply shuffle_quiz_still in Hq. injection H as <- <-. exact Hq.
Qed.

Lemma parse_and_shuffle_still (response : jsstring) (w : World) r w' :
  parse_and_shuffle env response w = (r, w') ->
  db w' = db w /\ trace w' = trace w /\ history w' = history w.
Proof.
  unfold parse_and_shuffle, shuffle_all, throw. intros H.
  destruct (parse_quiz_response response) as [[| | | |items|]|e];
    try (injection H as <- <-; auto).
  now apply forEach_shuffle_still in H.
Qed.

(** What a run of the loop does to the world: the document is untouched and
    at most [remaining] requests are sent, each with a quiz prompt. *)
Lemma quiz_loop_spec (remaining i : nat) (transcript last : jsstring) (w : World) r w' :
  quiz_loop env remaining i transcript last w = (r, w') ->
  db w' = db w /\ history w' = history w /\
  exists posts,
    trace w' = rev posts ++ trace w /\
    Forall (is_quiz_post env transcript) posts /\
    length posts <= remaining /\
    (i <= 1 -> 2 <= remaining + i ->
     forall q, r = Returned q -> (exists l, q = Some l) /\ 1 <= length posts).
Proof.
  revert i last w r w'. induction remaining as [|k IH]; intros i last w r w' H.
  - injection H as <- <-. split; [reflexivity|]. split; [reflexivity|].
    exists []. repeat split; auto. lia. lia.
  - cbn [quiz_loop] in H.
    set (prompt := if Nat.eqb i 0 then first_prompt transcript
                   else corrective_prompt last) in H.
    assert (Hpost : is_quiz_post env transcript
                      (EvPost (request_of env (user prompt) default_maxTokens))).
    { unfold prompt. destruct (Nat.eqb i 0); [now left | right; now exists last]. }
    assert (Hfail : forall last1 w1 (posts1 : list event),
               db w1 = db w -> history w1 = history w ->
               trace w1 = rev posts1 ++ trace w ->
               Forall (is_quiz_post env transcript) posts1 ->
               length posts1 <= 1 ->
               (if Nat.eqb i 1 then throw (new_Error (quiz_failure_message last1))
                else quiz_loop env k (S i) transcript last1) w1 = (r, w') ->
               db w' = db w /\ history w' = history w /\
               exists posts,
                 trace w' = rev posts ++ trace w /\
                 Forall (is_quiz_post env transcript) posts /\
                 length posts <= S k /\
                 (i <= 1 -> 2 <= S k + i ->
                  forall q, r = Returned q ->
                            (exists l, q = Some l) /\ 1 <= length posts)).
    { intros last1 w1 posts1 E1 E2 E3 HF Hlen Hrun.
      destruct (Nat.eqb_spec i 1) as [->|Hi].
      - injection Hrun as <- <-. split; [exact E1|]. split; [exact E2|].
        exists posts1. split; [exact E3|]. split; [exact HF|]. split; [lia|].
        intros _ _ q Hq. discriminate Hq.
      - apply IH in Hrun. destruct Hrun as (F1 & F2 & posts2 & F3 & F4 & F5 & F6).
        split; [congruence|]. split; [congruence|].
        exists (posts1 ++ posts2). split; [|split; [|split]].
        + rewrite F3, E3, rev_app_distr, app_assoc. reflexivity.
        + apply Forall_app. now split.
        + rewrite length_app. lia.
        + intros Hi1 Hrem q Hq.
          destruct (F6 ltac:(lia) ltac:(lia) q Hq) as (G1 & G2).
          split; [exact G1|]. rewrite length_app. lia. }
    destruct (callAI_cases (user prompt) default_maxTokens w) as [(_ & Hc)|(_ & rc & Hc)];
      rewrite Hc in H.
    + apply (Hfail last w []); auto.
    + destruct rc as [response|e].
      * destruct (parse_and_shuffle env response
                    (record_event (EvPost (request_of env (user prompt) default_maxTokens)) w))
          as [[quizzes0|e] w2] eqn:Hps;
          apply parse_and_shuffle_still in Hps; destruct Hps as (P1 & P2 & P3).
        -- injection H as <- <-. split; [exact P1|]. split; [exact P3|].
           exists [EvPost (request_of env (user prompt) default_maxTokens)].
           repeat split; auto.
           ++ simpl. lia.
           ++ injection H1 as <-. now exists quizzes0.
        -- apply (Hfail response w2
                    [EvPost (request_of env (user prompt) default_maxTokens)]); auto.
      * apply (Hfail last
                 (record_event (EvPost (request_of env (user prompt) default_maxTokens)) w)
                 [EvPost (request_of env (user prompt) default_maxTokens)]); auto.
Qed.

Lemma generateQuizzes_spec (transcript : jsstring) (w : World) r w' :
  generateQuizzes env transcript w = (r, w') ->
  db w' = db w /\ history w' = history w /\
  exists posts,
    trace w' = rev posts ++ trace w /\
    Forall (is_quiz_post env transcript) posts /\
    length posts <= 2 /\
    (forall q, r = Returned q -> (exists l, q = Some l) /\ 1 <= length posts).
Proof.
  intros H. apply quiz_loop_spec in H.
  destruct H as (H1 & H2 & posts & H3 & H4 & H5 & H6).
  split; [exact H1|]. split; [exact H2|].
  exists posts. repeat split; auto; apply (H6 ltac:(lia) ltac:(lia) q H).
Qed.

(** Quiz generation never sends more than two requests. *)
Lemma quiz_at_most_two_calls (transcript : jsstring) (w : World) :
  ai_calls (snd (generateQuizzes env transcript w)) <= ai_calls w + 2.
Proof.
  destruct (generateQuizzes env transcript w) as [r w'] eqn:H.
  apply generateQuizzes_spec in H.
  destruct H as (_ & _ & posts & Ht & _ & Hlen & _).
  unfold ai_calls. cbn [snd]. rewrite Ht, filter_app, length_app.
  pose proof (filter_length_le is_post (rev posts)) as Hle.
  rewrite length_rev in Hle. lia.
Qed.

(** A first response that parses into items the shuffle runs over without
    raising gives the result after one request. *)
Lemma quiz_first_response_accepted (transcript response : jsstring) (w : World)
      (parsed : json) (quizzes0 : list json) (w' : World) :
  no_api_key env = false ->
  axios_post env (length (trace w)) (first_quiz_request env transcript)
    = HttpContent response ->
  parse_quiz_response response = Returned parsed ->
  shuffle_all env parsed (record_event (EvPost (first_quiz_request env transcript)) w)
    = (Returned quizzes0, w') ->
  generateQuizzes env transcript w = (Returned (Some quizzes0), w').
Proof.
  intros Hkey Hpost Hparse Hsh.
  unfold generateQuizzes. cbn [quiz_loop Nat.eqb].
  rewrite callAI_with_key by assumption.
  fold (first_quiz_request env transcript). rewrite Hpost.
  unfold parse_and_shuffle. rewrite Hparse, Hsh. reflexivity.
Qed.

(** A first response that does not parse is sent back in a corrective
    request. If the second response does not parse either, generation fails
    with a message that ends with the second response; exactly two requests
    have been sent. *)
Lemma quiz_two_parse_failures (transcript response1 response2 : jsstring)
      (w : World) (e1 e2 : exn) :
  no_api_key env = false ->
  axios_post env (length (trace w)) (first_quiz_request env transcript)
    = HttpContent response1 ->
  parse_quiz_response response1 = Thrown e1 ->
  axios_post env (S (length (trace w))) (corrective_request env response1)
    = HttpContent response2 ->
  parse_quiz_response response2 = Thrown e2 ->
  generateQuizzes env transcript w
  = (Thrown (new_Error (quiz_failure_message response2)),
     record_event (EvPost (corrective_request env response1))
       (record_event (EvPost (first_quiz_request env transcript)) w)).
Proof.
  intros Hkey Hp1 Hf1 Hp2 Hf2.
  unfold generateQuizzes. cbn [quiz_loop Nat.eqb].
  rewrite callAI_with_key by assumption.
  fold (first_quiz_request env transcript). rewrite Hp1.
  unfold parse_and_shuffle at 1. rewrite Hf1. unfold throw at 1.
  rewrite callAI_with_key by assumption.
  fold (corrective_request env response1).
  cbn [record_event trace length]. rewrite Hp2.
  unfold parse_and_shuffle. rewrite Hf2. reflexivity.
Qed.

(** A first response that does not parse, followed by a corrective response
    that does, gives the result of the second response. *)
Lemma quiz_retry_succeeds (transcript response1 response2 : jsstring)
      (w : World) (e1 : exn) (parsed : json) (quizzes0 : list json) (w' : World) :
  no_api_key env = false ->
  axios_post env (length (trace w)) (first_quiz_request env transcript)
    = HttpContent response1 ->
  parse_quiz_response response1 = Thrown e1 ->
  axios_post env (S (length (trace w))) (corrective_request env response1)
    = HttpContent response2 ->
  parse_quiz_response response2 = Returned parsed ->
  shuffle_all env parsed
    (record_event (EvPost (corrective_request env response1))
       (record_event (EvPost (first_quiz_request env transcript)) w))
    = (Returned quizzes0, w') ->
  generateQuizzes env transcript w = (Returned (Some quizzes0), w').
Proof.
  intros Hkey Hp1 Hf1 Hp2 Hok Hsh.
  unfold generateQuizzes. cbn [quiz_loop Nat.eqb].
  rewrite callAI_with_key by assumption.
  fold (first_quiz_request env transcript). rewrite Hp1.
  unfold parse_and_shuffle at 1. rewrite Hf1. unfold throw at 1.
  rewrite callAI_with_key by assumption.
  fold (corrective_request env response1).
  cbn [record_event trace length]. rewrite Hp2.
  unfold parse_and_shuffle. rewrite Hok, Hsh. reflexivity.
Qed.

(** The shuffle passes over an object without [options] or without
    [correctAnswer], and so over a whole array of such items. *)
Lemma shuffle_quiz_skips (item : json) (w : World) :
  lacks_a_field item -> shuffle_quiz env item w = (Returned item, w).
Proof.
  intros (fields & -> & [H|H]); unfold shuffle_quiz; rewrite H.
  - destruct (get_field correctAnswer_key fields); reflexivity.
  - reflexivity.
Qed.

Lemma forEach_shuffle_skips (items : list json) (w : World) :
  Forall lacks_a_field items ->
  forEach_shuffle env items w = (Returned items, w).
Proof.
  induction 1 as [|q rest Hq _ IH]; [reflexivity|].
  cbn [forEach_shuffle]. unfold bind.
  now rewrite shuffle_quiz_skips, IH.
Qed.

End QuizFacts.

(** With a first response "[null]" and a well-formed second response: the
    first passes bracket extraction and [JSON.parse], a corrective request
    is sent all the same, and the quiz returned is that of the second
    response. *)
Lemma null_then_quiz_run :
  let env := studio some_key null_then_quiz_backend demo_order in
  let run := generateQuizzes env (js "Hello world.") (start a_lecture) in
  parse_quiz_response (jsq "[null]") = Returned (JArr [JNull]) /\
  chronicle (snd run)
  = [EvPost (first_quiz_request env (js "Hello world."));
     EvPost (corrective_request env (jsq "[null]"))] /\
  ai_calls (snd run) = 2 /\
  fst run = Returned (Some demo_shuffled).
Proof. vm_compute. repeat split; reflexivity. Qed.

(** With "[null]" as both responses: quiz generation fails, because the
    callback of the shuffle reads a property of [null]. *)
Lemma null_twice_run :
  let env := studio some_key null_backend demo_order in
  let run := generateQuizzes env (js "Hello world.") (start a_lecture) in
  JSON.parse (jsq "[null]") = Some (JArr [JNull]) /\
  fst (shuffle_quiz env JNull (start a_lecture))
  = Thrown (null_property_error options_key) /\
  fst run = Thrown (new_Error (quiz_failure_message (jsq "[null]"))) /\
  ai_calls (snd run) = 2.
Proof. vm_compute. repeat split; reflexivity. Qed.

(** C2, refuted as stated: the first response "[null]" parses, and two
    requests are sent. *)
Lemma null_item_triggers_retry : ~ one_call_when_first_response_parses.
Proof.
  intros claim.
  specialize (claim (studio some_key null_then_quiz_backend demo_order)
                    (js "Hello world.") (start a_lecture)
                    (jsq "[null]") (JArr [JNull]) eq_refl eq_refl eq_refl).
  vm_compute in claim. discriminate.
Qed.


Section QuizRounds.

Variable env : Env.

Lemma shuffle_all_still (quizzes0 : json) (w : World) r w' :
  shuffle_all env quizzes0 w = (r, w') ->
  db w' = db w /\ trace w' = trace w /\ history w' = history w.
Proof.
  unfold shuffle_all, throw. intros H.
  destruct quizzes0; try (injection H as <- <-; auto).
  now apply forEach_shuffle_still in H.
Qed.

(** After a first response that does not parse, the second request is the
    corrective one, with the first response in it, and it is the last
    request, however it is answered. *)
Lemma quiz_corrective_round (transcript response1 : jsstring) (w : World) (e1 : exn) :
  no_api_key env = false ->
  axios_post env (length (trace w)) (first_quiz_request env transcript)
    = HttpContent response1 ->
  parse_quiz_response response1 = Thrown e1 ->
  trace (snd (generateQuizzes env transcript w))
  = [EvPost (corrective_request env response1);
     EvPost (first_quiz_request env transcript)] ++ trace w.
Proof.
  intros Hkey Hp1 Hf1.
  unfold generateQuizzes. cbn [quiz_loop Nat.eqb].
  rewrite callAI_with_key by assumption.
  fold (first_quiz_request env transcript). rewrite Hp1.
  unfold parse_and_shuffle at 1. rewrite Hf1. unfold throw at 1.
  rewrite callAI_with_key by assumption.
  fold (corrective_request env response1).
  destruct (axios_post env _ (corrective_request env response1)) as [response2|reason].
  - destruct (parse_and_shuffle env response2
                (record_event (EvPost (corrective_request env response1))
                   (record_event (EvPost (first_quiz_request env transcript)) w)))
      as [[q|e] w2] eqn:Hps;
      apply parse_and_shuffle_still in Hps; destruct Hps as (_ & Ht & _);
      cbn [snd throw]; rewrite Ht; reflexivity.
  - reflexivity.
Qed.






(** C2, amended. Quiz generation sends at most two requests. If the first
    response fails bracket extraction or parsing, exactly one more request
    follows, the corrective one, which carries the first response. If the
    second response fails to parse too, generation fails with the message
    that ends with the second response, after exactly these two requests. If
    the first response parses and the shuffle of its items raises no error,
    one request is all. *)
Theorem quiz_generation_rounds :
  forall (transcript : jsstring) (w : World),
    ai_calls (snd (generateQuizzes env transcript w)) <= ai_calls w + 2
    /\
    (forall (response1 : jsstring) (e1 : exn),
        no_api_key env = false ->
        axios_post env (length (trace w)) (first_quiz_request env transcript)
          = HttpContent response1 ->
        parse_quiz_response response1 = Thrown e1 ->
        chronicle (snd (generateQuizzes env transcript w))
        = chronicle w ++ [EvPost (first_quiz_request env transcript);
                          EvPost (corrective_request env response1)]
        /\
        (forall (response2 : jsstring) (e2 : exn),
            axios_post env (S (length (trace w))) (corrective_request env response1)
              = HttpContent response2 ->
            parse_quiz_response response2 = Thrown e2 ->
            fst (generateQuizzes env transcript w)
            = Thrown (new_Error
                        (js "The AI failed to generate a valid quiz after multiple attempts. Last response: "
                         ++ response2))))
    /\
    (forall (response1 : jsstring) (parsed : json) (quizzes0 : list json) (w' : World),
        no_api_key env = false ->
        axios_post env (length (trace w)) (first_quiz_request env transcript)
          = HttpContent response1 ->
        parse_quiz_response response1 = Returned parsed ->
        shuffle_all env parsed
          (record_event (EvPost (first_quiz_request env transcript)) w)
          = (Returned quizzes0, w') ->
        generateQuizzes env transcript w = (Returned (Some quizzes0), w') /\
        chronicle w' = chronicle w ++ [EvPost (first_quiz_request env transcript)]).
Proof.
  intros transcript w. split; [apply quiz_at_most_two_calls|]. split.
  - intros response1 e1 Hkey Hp1 Hf1. split.
    + unfold chronicle.
      rewrite (@quiz_corrective_round transcript response1 w e1 Hkey Hp1 Hf1).
      rewrite rev_app_distr. reflexivity.
    + intros response2 e2 Hp2 Hf2.
      now rewrite (@quiz_two_parse_failures env transcript response1 response2 w
                     e1 e2 Hkey Hp1 Hf1 Hp2 Hf2).
  - intros response1 parsed quizzes0 w' Hkey Hp1 Hok Hsh. split.
    + exact (@quiz_first_response_accepted env transcript response1 w
               parsed quizzes0 w' Hkey Hp1 Hok Hsh).
    + apply shuffle_all_still in Hsh. destruct Hsh as (_ & Ht & _).
      unfold chronicle. rewrite Ht. reflexivity.
Qed.


End QuizRounds.

Lemma quiz_generation_rounds_witness :
  (chronicle (snd (generateQuizzes (studio some_key prose_backend demo_order)
                     (js "Hello world.") (start a_lecture)))
   = [EvPost (first_quiz_request (studio some_key prose_backend demo_order)
                                 (js "Hello world."));
      EvPost (corrective_request (studio some_key prose_backend demo_order)
                                 (js "Sure, here are five questions."))]
   /\
   fst (generateQuizzes (studio some_key prose_backend demo_order)
          (js "Hello world.") (start a_lecture))
   = Thrown (new_Error
               (js "The AI failed to generate a valid quiz after multiple attempts. Last response: "
                ++ js "I am sorry, [see above.")))
  /\
  (generateQuizzes demo_env (js "Hello world.") (start a_lecture)
   = (Returned (Some demo_shuffled),
      snd (shuffle_all demo_env (JArr demo_items)
             (record_event (EvPost (first_quiz_request demo_env (js "Hello world.")))
                           (start a_lecture))))
   /\
   chronicle (snd (shuffle_all demo_env (JArr demo_items)
                     (record_event
                        (EvPost (first_quiz_request demo_env (js "Hello world.")))
                        (start a_lecture))))
   = [EvPost (first_quiz_request demo_env (js "Hello world."))]).
Proof.
  split.
  - destruct (proj1 (proj2 (@quiz_generation_rounds
                              (studio some_key prose_backend demo_order)
                              (js "Hello world.") (start a_lecture)))
                (js "Sure, here are five questions.")
                (new_Error (js "AI response did not contain a JSON array."))
                eq_refl eq_refl eq_refl) as (Hc & Hfail).
    split; [exact Hc|].
    exact (Hfail (js "I am sorry, [see above.")
                 (new_Error (js "AI response did not contain a JSON array."))
                 eq_refl eq_refl).
  - apply (proj2 (proj2 (@quiz_generation_rounds demo_env
                           (js "Hello world.") (start a_lecture)))
             one_question (JArr demo_items) demo_shuffled).
    + reflexivity.
    + reflexivity.
    + vm_compute. reflexivity.
    + vm_compute. reflexivity.
Defined.


(* ================================================================= *)
(** ** The orchestrators *)

Section Pipeline.

Variable env : Env.

Lemma bind_returned {A B : Type} (m : M A) (k : A -> M B) w b w' :
  bind m k w = (Returned b, w') ->
  exists a w1, m w = (Returned a, w1) /\ k a w1 = (Returned b, w').
Proof.
  unfold bind. destruct (m w) as [[a|e] w1]; intros H; [|discriminate].
  now exists a, w1.
Qed.

Lemma bind_thrown {A B : Type} (m : M A) (k : A -> M B) w e w' :
  bind m k w = (Thrown e, w') ->
  m w = (Thrown e, w') \/
  exists a w1, m w = (Returned a, w1) /\ k a w1 = (Thrown e, w').
Proof.
  unfold bind. destruct (m w) as [[a|e0] w1]; intros H.
  - right. now exists a, w1.
  - left. now injection H as <- <-.
Qed.

Lemma tool_run {A : Type} (ev : event) (oracle : nat -> outcome A) (w : World) :
  tool ev oracle w = (oracle (length (trace w)), record_event ev w).
Proof. reflexivity. Qed.

Lemma update_cases (id : jsstring) (p : Patch) (w : World) :
  findByIdAndUpdate env id p w = (Returned tt, persist id p w) \/
  exists e, findByIdAndUpdate env id p w = (Thrown e, reject id p w).
Proof.
  unfold findByIdAndUpdate, persist, reject.
  destruct (store_update env (length (trace w)) id p) as [[]|e].
  - now left.
  - right. now exists e.
Qed.

Lemma update_returned (id : jsstring) (p : Patch) (w : World) u w' :
  findByIdAndUpdate env id p w = (Returned u, w') -> w' = persist id p w.
Proof.
  destruct (update_cases id p w) as [E|(e & E)]; rewrite E; intros H.
  - now injection H as <-.
  - discriminate.
Qed.

Lemma update_thrown (id : jsstring) (p : Patch) (w : World) e w' :
  findByIdAndUpdate env id p w = (Thrown e, w') -> w' = reject id p w.
Proof.
  destruct (update_cases id p w) as [E|(e0 & E)]; rewrite E; intros H.
  - discriminate.
  - now injection H as _ <-.
Qed.

Lemma update_reliable (id : jsstring) (p : Patch) (w : World) :
  store_reliable env ->
  findByIdAndUpdate env id p w = (Returned tt, persist id p w).
Proof.
  intros Hs. unfold findByIdAndUpdate, persist. now rewrite Hs.
Qed.

Lemma callAI_returned (msgs : list chat_message) (maxTokens : Z) (w : World) text w' :
  callAI env msgs maxTokens w = (Returned text, w') ->
  w' = record_event (EvPost (request_of env msgs maxTokens)) w.
Proof.
  destruct (callAI_cases env msgs maxTokens w) as [(_ & E)|(_ & r & E)];
    rewrite E; intros H.
  - discriminate.
  - now injection H as _ <-.
Qed.

Lemma callAI_answer (msgs : list chat_message) (maxTokens : Z) (w : World) text w' :
  callAI env msgs maxTokens w = (Returned text, w') ->
  axios_post env (length (trace w)) (request_of env msgs maxTokens) = HttpContent text.
Proof.
  unfold callAI. destruct (no_api_key env); [discriminate|].
  destruct (axios_post env (length (trace w)) (request_of env msgs maxTokens));
    intros H; [now injection H as -> _ | discriminate].
Qed.

Lemma transcribe_returned (audio : jsstring) (w : World) raw w' :
  transcribeWithWhisper env audio w = (Returned raw, w') ->
  exists code errorOutput output,
    whisper env (length (trace w)) audio = WhisperClosed code errorOutput (Some output) /\
    exited_zero code = true /\ raw = Str.trim output.
Proof.
  unfold transcribeWithWhisper, bind. rewrite tool_run.
  destruct (whisper env (length (trace w)) audio) as [code err [output|]|reason];
    [| |discriminate].
  - destruct (exited_zero code) eqn:Hc; [|discriminate].
    intros H. injection H as <- _. now exists code, err, output.
  - destruct (exited_zero code); discriminate.
Qed.

Lemma extractFrames_slides (vp id : jsstring) (w : World) s w' :
  extractFrames env vp id w = (Returned s, w') ->
  exists d files,
    ffprobe env (S (length (trace w))) vp = Returned d /\
    ffmpeg_screenshots env (S (S (length (trace w)))) vp (frameCount d) (frames_dir id)
    = Returned files /\
    s = label_frames id d (frameCount d) 0
          (sort_names (filter (fun f => ends_with f (js ".png")) files)) /\
    w' = record_event (EvScreenshots vp (frameCount d) (frames_dir id))
           (record_event (EvProbe vp)
              (record_event (EvEnsureDir (frames_dir id)) w)).
Proof.
  unfold extractFrames. intros H.
  apply bind_returned in H. destruct H as (u & w1 & H1 & H).
  rewrite tool_run in H1. injection H1 as _ <-.
  apply bind_returned in H. destruct H as (d & w2 & H2 & H).
  rewrite tool_run in H2. injection H2 as Hd <-.
  apply bind_returned in H. destruct H as (files & w3 & H3 & H).
  rewrite tool_run in H3. injection H3 as Hf <-.
  injection H as <- <-. cbn [record_event trace length] in Hd, Hf.
  now exists d, files.
Qed.

Lemma extractFrames_returned (vp id : jsstring) (w : World) s w' :
  extractFrames env vp id w = (Returned s, w') ->
  exists d,
    w' = record_event (EvScreenshots vp (frameCount d) (frames_dir id))
           (record_event (EvProbe vp)
              (record_event (EvEnsureDir (frames_dir id)) w)).
Proof.
  unfold extractFrames. intros H.
  apply bind_returned in H. destruct H as (u & w1 & H1 & H).
  rewrite tool_run in H1. injection H1 as _ <-.
  apply bind_returned in H. destruct H as (d & w2 & H2 & H).
  rewrite tool_run in H2. injection H2 as _ <-.
  apply bind_returned in H. destruct H as (files & w3 & H3 & H).
  rewrite tool_run in H3. injection H3 as _ <-.
  injection H as _ <-. now exists d.
Qed.

Lemma extractAudio_run (vp : jsstring) (w : World) :
  extractAudio env vp w
  = (match ffmpeg_audio env (length (trace w)) vp (audio_path env vp) with
     | Returned _ => Returned (audio_path env vp)
     | Thrown e => Thrown e
     end,
     record_event (EvExtractAudio vp (audio_path env vp)) w).
Proof.
  unfold extractAudio, bind. rewrite tool_run.
  destruct (ffmpeg_audio env (length (trace w)) vp (audio_path env vp)); reflexivity.
Qed.

Lemma extractAudio_returned (vp : jsstring) (w : World) audio w' :
  extractAudio env vp w = (Returned audio, w') ->
  audio = audio_path env vp /\
  w' = record_event (EvExtractAudio vp (audio_path env vp)) w.
Proof.
  rewrite extractAudio_run. intros H.
  destruct (ffmpeg_audio env (length (trace w)) vp (audio_path env vp));
    [|discriminate].
  injection H as <- <-. now split.
Qed.

Lemma transcribe_world (audio : jsstring) (w : World) r w' :
  transcribeWithWhisper env audio w = (r, w') ->
  w' = record_event (EvTranscribe audio) w.
Proof.
  unfold transcribeWithWhisper, bind. rewrite tool_run. intros H.
  break_match_in H; injection H as _ <-; reflexivity.
Qed.

Lemma download_world (url id : jsstring) (w : World) r w' :
  downloadYouTubeVideo env url id w = (r, w') ->
  w' = record_event (EvDownload url id) w /\
  (forall vp, r = Returned vp -> vp = youtube_video_path id).
Proof.
  unfold downloadYouTubeVideo, bind. rewrite tool_run. intros H.
  break_match_in H; injection H as <- <-;
    (split; [reflexivity | intros vp Hvp; now inversion Hvp]).
Qed.

Lemma quiz_posts_write_no_stage (transcript : jsstring) (posts : list event) :
  Forall (is_quiz_post env transcript) posts -> persisted_stages posts = [].
Proof.
  induction 1 as [|ev rest Hev _ IH]; [reflexivity|].
  unfold persisted_stages in *. cbn [flat_map]. rewrite IH.
  destruct Hev as [->|(last & ->)]; reflexivity.
Qed.

(** The [try] block of [processLecture], when it runs to its end. *)
Lemma processLecture_try_returned (id vp : jsstring) (w w' : World) :
  processLecture_try env id vp w = (Returned tt, w') ->
  exists a : run_data,
    chronicle w' = chronicle w ++ file_run_events env id vp a /\
    Forall (is_quiz_post env (r_transcript a)) (r_quiz_posts a) /\
    1 <= length (r_quiz_posts a) <= 2 /\
    run_data_from env id vp w a /\
    document_states w w' a.
Proof.
  unfold processLecture_try. intros H.
  apply bind_returned in H. destruct H as (u1 & w1 & H1 & H).
  apply update_returned in H1. subst w1.
  apply bind_returned in H. destruct H as (audio & w2 & H2 & H).
  apply extractAudio_returned in H2. destruct H2 as (-> & ->).
  apply bind_returned in H. destruct H as (u2 & w3 & H3 & H).
  apply update_returned in H3. subst w3.
  apply bind_returned in H. destruct H as (raw & w4 & H4 & H).
  pose proof (transcribe_returned _ _ H4) as Hraw.
  apply transcribe_world in H4. subst w4.
  apply bind_returned in H. destruct H as (transcript & w5 & H5 & H).
  pose proof (callAI_answer _ _ _ H5) as Htr.
  apply callAI_returned in H5. subst w5.
  apply bind_returned in H. destruct H as (thtml & w6 & H6 & H).
  unfold render in H6. rewrite tool_run in H6. injection H6 as Hth <-.
  apply bind_returned in H. destruct H as (u3 & w7 & H7 & H).
  apply update_returned in H7. subst w7.
  apply bind_returned in H. destruct H as (summary & w8 & H8 & H).
  pose proof (callAI_answer _ _ _ H8) as Hsu.
  apply callAI_returned in H8. subst w8.
  apply bind_returned in H. destruct H as (shtml & w9 & H9 & H).
  unfold render in H9. rewrite tool_run in H9. injection H9 as Hsh <-.
  apply bind_returned in H. destruct H as (quizzes0 & wq & Hq & H).
  pose proof Hq as Hquiz.
  apply generateQuizzes_spec in Hq.
  destruct Hq as (Hqdb & Hqhist & posts & Htq & Hposts & Hlen & Hsome).
  destruct (Hsome quizzes0 eq_refl) as ((quizzes1 & ->) & Hone).
  apply bind_returned in H. destruct H as (slides0 & wf & Hf & H).
  apply extractFrames_slides in Hf. destruct Hf as (d & files & Hd & Hfiles & -> & ->).
  apply bind_returned in H. destruct H as (u4 & wu & Hu & H).
  apply update_returned in Hu. subst wu.
  unfold remove_if_exists in H. rewrite tool_run in H. injection H as _ <-.
  cbn [trace record_event persist length] in Hraw, Htr, Hth, Hsu, Hsh.
  rewrite Htq in Hd, Hfiles. rewrite length_app, length_rev in Hd, Hfiles.
  cbn [trace record_event persist length] in Hd, Hfiles.
  exists (mk_run_data raw transcript thtml summary shtml posts (Some quizzes1) d
            (label_frames id d (frameCount d) 0
               (sort_names (filter (fun f => ends_with f (js ".png")) files)))).
  split; [|split; [exact Hposts | split; [cbn [r_quiz_posts]; lia|split]]].
  - unfold chronicle, file_run_events.
    cbn [trace record_event persist r_rawTranscript r_transcript
         r_transcriptHtml r_summary r_summaryHtml r_quiz_posts r_quizzes
         r_duration r_slides].
    rewrite Htq. cbn [trace record_event persist].
    cbn [rev]. rewrite rev_app_distr, rev_involutive. cbn [rev].
    repeat rewrite <- app_assoc. reflexivity.
  - unfold run_data_from.
    cbn [r_rawTranscript r_transcript r_transcriptHtml r_summary r_summaryHtml
         r_quiz_posts r_quizzes r_duration r_slides].
    replace (length (trace w) + 3) with (S (S (S (length (trace w))))) by lia.
    replace (length (trace w) + 4) with (S (S (S (S (length (trace w)))))) by lia.
    replace (length (trace w) + 5) with (S (S (S (S (S (length (trace w))))))) by lia.
    replace (length (trace w) + 7)
      with (S (S (S (S (S (S (S (length (trace w))))))))) by lia.
    replace (length (trace w) + 8)
      with (S (S (S (S (S (S (S (S (length (trace w)))))))))) by lia.
    replace (length (trace w) + 10 + length posts)
      with (S (length posts + S (S (S (S (S (S (S (S (S (length (trace w))))))))))))
      by lia.
    replace (length (trace w) + 11 + length posts)
      with (S (S (length posts + S (S (S (S (S (S (S (S (S (length (trace w)))))))))))))
      by lia.
    split; [exact Hraw|]. split; [exact Htr|]. split; [exact Hth|].
    split; [exact Hsu|]. split; [exact Hsh|]. split.
    + eexists quizzes1, _. split; [reflexivity|].
      split; [|split; [|rewrite Hquiz; reflexivity]].
      * cbn [trace record_event persist length]. lia.
      * reflexivity.
    + exists files. split; [exact Hd|]. split; [exact Hfiles|]. reflexivity.
  - unfold document_states. cbn [history record_event persist db].
    rewrite Hqhist, Hqdb. cbn [history record_event persist db].
    eexists _, _, _. split; [reflexivity|].
    unfold artifacts_as_in, transcript_as_in, late_artifacts_as_in.
    cbn [r_rawTranscript r_transcript r_transcriptHtml r_summary r_summaryHtml
         r_quiz_posts r_quizzes r_duration r_slides].
    repeat split.
Qed.

Lemma record_failure_returned (id : jsstring) (e : exn) (w1 : World) u w' :
  record_failure env id e w1 = (Returned u, w') ->
  w' = persist id (failure_patch (message e)) w1.
Proof. apply update_returned. Qed.

(** A run of [processLecture] that returns with the stage [complete] is one
    whose [try] block ran to its end. *)
Lemma processLecture_complete (id vp title0 : jsstring) (w w' : World) :
  processLecture env id vp title0 w = (Returned tt, w') ->
  processingStage (db w') = complete ->
  processLecture_try env id vp w = (Returned tt, w').
Proof.
  unfold processLecture, try_catch. intros H Hstage.
  destruct (processLecture_try env id vp w) as [[[]|e] w1]; [exact H|].
  apply record_failure_returned in H. subst w'. discriminate Hstage.
Qed.

Lemma file_run_stages (id vp : jsstring) (a : run_data) :
  Forall (is_quiz_post env (r_transcript a)) (r_quiz_posts a) ->
  persisted_stages (file_run_events env id vp a)
  = [extracting_audio; transcribing; summarizing; complete].
Proof.
  intros Hposts. unfold file_run_events, persisted_stages.
  rewrite !flat_map_app.
  fold (persisted_stages (r_quiz_posts a)).
  rewrite (quiz_posts_write_no_stage Hposts). reflexivity.
Qed.

(** C1. A file-sourced run that ends with the lecture [complete] has done
    exactly this, in this order: written [extracting_audio], extracted the
    audio; written [transcribing], transcribed, formatted and rendered;
    written [summarizing] together with the transcript and its markup;
    summarised, rendered, generated the quiz (one or two requests) and
    extracted the frames; written [complete] together with the summary, its
    markup, the quiz and the slides, in one update; removed the audio file.
    The stage values written are therefore [extracting_audio],
    [transcribing], [summarizing], [complete]. What is written is what the
    tools produced ([run_data_from]): the transcript is the answer to the
    formatting request, each markup the rendering of its text, the quiz the
    result of [generateQuizzes], the slides those of the frames. The
    document has gone through four new states ([document_states]): the two
    first differ from the start in the stage only; the transcript and its
    markup appear in the state that has the stage [summarizing]; the
    summary, its markup, the quiz and the slides appear in the last, which
    has the stage [complete]. A YouTube-sourced run that ends with the
    lecture [complete] has first written [downloading], downloaded the
    video and recorded its path ([download_done]), and then done the
    same. *)
Theorem successful_runs_follow_the_stages :
  (forall (id vp title0 : jsstring) (w w' : World),
      processLecture env id vp title0 w = (Returned tt, w') ->
      processingStage (db w') = complete ->
      exists a : run_data,
        chronicle w' = chronicle w ++ file_run_events env id vp a /\
        persisted_stages (file_run_events env id vp a)
        = [extracting_audio; transcribing; summarizing; complete] /\
        Forall (is_quiz_post env (r_transcript a)) (r_quiz_posts a) /\
        1 <= length (r_quiz_posts a) <= 2 /\
        run_data_from env id vp w a /\
        document_states w w' a)
  /\
  (forall (id url title0 : jsstring) (w w' : World),
      processYouTubeLecture env id url title0 w = (Returned tt, w') ->
      processingStage (db w') = complete ->
      exists a : run_data,
        chronicle w' = chronicle w ++ youtube_run_events env id url a /\
        persisted_stages (youtube_run_events env id url a)
        = [downloading; extracting_audio; transcribing; summarizing; complete] /\
        Forall (is_quiz_post env (r_transcript a)) (r_quiz_posts a) /\
        1 <= length (r_quiz_posts a) <= 2 /\
        exists wd : World,
          download_done id url w wd /\
          run_data_from env id (youtube_video_path id) wd a /\
          document_states wd w' a).
Proof.
  split.
  - intros id vp title0 w w' Hrun Hstage.
    pose proof (processLecture_complete _ _ _ _ Hrun Hstage) as Htry.
    destruct (processLecture_try_returned _ _ _ Htry)
      as (a & Hc & Hposts & Hlen & Hfrom & Hstates).
    exists a. split; [exact Hc|]. split; [now apply file_run_stages|].
    split; [exact Hposts|]. split; [exact Hlen|]. now split.
  - intros id url title0 w w' Hrun Hstage.
    unfold processYouTubeLecture, try_catch in Hrun.
    destruct (processYouTubeLecture_try env id url title0 w) as [[[]|e] w1] eqn:Hbody.
    2:{ apply record_failure_returned in Hrun. subst w'. discriminate Hstage. }
    injection Hrun as ->.
    unfold processYouTubeLecture_try in Hbody.
    apply bind_returned in Hbody. destruct Hbody as (u1 & wa & H1 & H).
    apply update_returned in H1. subst wa.
    apply bind_returned in H. destruct H as (vp & wb & H2 & H).
    apply download_world in H2. destruct H2 as (-> & Hvp).
    rewrite (Hvp vp eq_refl) in *. clear Hvp vp.
    apply bind_returned in H. destruct H as (u2 & wc & H3 & H).
    apply update_returned in H3. subst wc.
    pose proof (processLecture_complete _ _ _ _ H Hstage) as Htry.
    destruct (processLecture_try_returned _ _ _ Htry)
      as (a & Hc & Hposts & Hlen & Hfrom & Hstates).
    exists a. split; [|split; [|split; [exact Hposts|split; [exact Hlen|]]]].
    + rewrite Hc. unfold youtube_run_events, chronicle.
      cbn [trace record_event persist rev].
      repeat rewrite <- app_assoc. reflexivity.
    + unfold youtube_run_events, persisted_stages. rewrite flat_map_app.
      fold (persisted_stages (file_run_events env id (youtube_video_path id) a)).
      rewrite (file_run_stages id (youtube_video_path id) a Hposts). reflexivity.
    + eexists. split; [|split; [exact Hfrom | exact Hstates]].
      unfold download_done, chronicle.
      cbn [trace record_event persist rev db history sorts].
      split; [repeat rewrite <- app_assoc; reflexivity|]. split; [reflexivity|].
      eexists. split; [reflexivity|].
      unfold artifacts_as_in, transcript_as_in, late_artifacts_as_in.
      cbn. repeat split.
Qed.

(** *** Rules for [ends] *)

Lemma ends_bind {A B : Type} (P R Qr Qt : World -> Prop) (m : M A) (k : A -> M B) :
  ends P m R Qt -> (forall a, ends R (k a) Qr Qt) -> ends P (bind m k) Qr Qt.
Proof.
  intros Hm Hk w r w' HP Hrun. unfold bind in Hrun.
  destruct (m w) as [[a|e] w1] eqn:E.
  - apply (Hk a w1 r w'); [|exact Hrun]. exact (Hm w _ w1 HP E).
  - injection Hrun as <- <-. exact (Hm w _ w1 HP E).
Qed.

Lemma ends_weaken {A : Type} (P P' Qr Qr' Qt Qt' : World -> Prop) (m : M A) :
  ends P m Qr Qt ->
  (forall w, P' w -> P w) -> (forall w, Qr w -> Qr' w) -> (forall w, Qt w -> Qt' w) ->
  ends P' m Qr' Qt'.
Proof.
  intros H HP HQr HQt w r w' HP' Hrun.
  specialize (H w r w' (HP w HP') Hrun). destruct r; auto.
Qed.

Lemma ends_try_catch {A : Type} (P R Qr Qt : World -> Prop)
      (body : M A) (handler : exn -> M A) :
  ends P body Qr R -> (forall e, ends R (handler e) Qr Qt) ->
  ends P (try_catch body handler) Qr Qt.
Proof.
  intros Hb Hh w r w' HP Hrun. unfold try_catch in Hrun.
  destruct (body w) as [[a|e] w1] eqn:E.
  - injection Hrun as <- <-. exact (Hb w _ w1 HP E).
  - apply (Hh e w1 r w'); [|exact Hrun]. exact (Hb w _ w1 HP E).
Qed.

Lemma ends_quiet {A : Type} (P : World -> Prop) (m : M A) :
  quiet m -> about_document P -> ends P m P P.
Proof.
  intros Hq HP w r w' Hw Hrun.
  destruct (Hq w r w' Hrun) as (E1 & E2).
  destruct r; exact (HP w w' E1 E2 Hw).
Qed.

Lemma ends_update (P Qr Qt : World -> Prop) (id : jsstring) (p : Patch) :
  (forall w, P w -> Qr (persist id p w)) ->
  (forall w, P w -> Qt (reject id p w)) ->
  ends P (findByIdAndUpdate env id p) Qr Qt.
Proof.
  intros Hr Ht w r w' HP Hrun.
  destruct (update_cases id p w) as [E|(e & E)]; rewrite E in Hrun;
    injection Hrun as <- <-; auto.
Qed.

Lemma ends_update_reliable (P Qr Qt : World -> Prop) (id : jsstring) (p : Patch) :
  store_reliable env ->
  (forall w, P w -> Qr (persist id p w)) ->
  ends P (findByIdAndUpdate env id p) Qr Qt.
Proof.
  intros Hs Hr w r w' HP Hrun.
  rewrite update_reliable in Hrun by assumption.
  injection Hrun as <- <-. auto.
Qed.

(** *** The steps that leave the document alone *)

Lemma quiet_ret {A : Type} (a : A) : quiet (ret a).
Proof. intros w r w' H. injection H as _ <-. now split. Qed.

Lemma quiet_bind {A B : Type} (m : M A) (k : A -> M B) :
  quiet m -> (forall a, quiet (k a)) -> quiet (bind m k).
Proof.
  intros Hm Hk w r w' H. unfold bind in H.
  destruct (m w) as [[a|e] w1] eqn:E; destruct (Hm w _ w1 E) as (E1 & E2).
  - destruct (Hk a w1 r w' H) as (F1 & F2). split; congruence.
  - injection H as _ <-. now split.
Qed.

Lemma quiet_tool {A : Type} (ev : event) (oracle : nat -> outcome A) :
  quiet (tool ev oracle).
Proof. intros w r w' H. rewrite tool_run in H. injection H as _ <-. now split. Qed.

Lemma quiet_throw {A : Type} (e : exn) : quiet (@throw A e).
Proof. intros w r w' H. injection H as _ <-. now split. Qed.

Lemma quiet_extractAudio (vp : jsstring) : quiet (extractAudio env vp).
Proof.
  intros w r w' H. rewrite extractAudio_run in H. injection H as _ <-. now split.
Qed.

Lemma quiet_transcribeWithWhisper (audio : jsstring) :
  quiet (transcribeWithWhisper env audio).
Proof. intros w r w' H. apply transcribe_world in H. subst w'. now split. Qed.

Lemma quiet_downloadYouTubeVideo (url id : jsstring) :
  quiet (downloadYouTubeVideo env url id).
Proof.
  intros w r w' H. apply download_world in H. destruct H as (-> & _). now split.
Qed.

Lemma quiet_callAI (msgs : list chat_message) (maxTokens : Z) :
  quiet (callAI env msgs maxTokens).
Proof.
  intros w r w' H.
  destruct (callAI_cases env msgs maxTokens w) as [(_ & E)|(_ & r0 & E)];
    rewrite E in H; injection H as _ <-; now split.
Qed.

Lemma quiet_generateQuizzes (transcript : jsstring) :
  quiet (generateQuizzes env transcript).
Proof.
  intros w r w' H. apply generateQuizzes_spec in H.
  destruct H as (E1 & E2 & _). now split.
Qed.

Lemma quiet_extractFrames (vp id : jsstring) : quiet (extractFrames env vp id).
Proof.
  unfold extractFrames.
  repeat (apply quiet_bind; [apply quiet_tool | intros ?]).
  apply quiet_ret.
Qed.

Lemma in_stage_about_document (stage0 : jsstring) (l0 : Lecture) :
  about_document (in_stage stage0 l0).
Proof. intros w w' E _. unfold in_stage. now rewrite E. Qed.

Lemma in_summarizing_about_document (l0 : Lecture) :
  about_document (in_summarizing l0).
Proof. intros w w' E _. unfold in_summarizing. now rewrite E. Qed.

(** *** Where a failing run stands *)

Lemma processLecture_try_ends (id vp : jsstring) (w0 : World) :
  store_reliable env ->
  ends (fun w => db w = db w0) (processLecture_try env id vp)
       (fun _ => True) (failure_point w0).
Proof.
  intros Hs. unfold processLecture_try.
  set (FP := failure_point w0).
  assert (HA : forall w, in_stage extracting_audio (db w0) w -> FP w)
    by (intros w H; left; exact H).
  assert (HB : forall w, in_stage transcribing (db w0) w -> FP w)
    by (intros w H; right; left; exact H).
  assert (HC : forall w, in_summarizing (db w0) w -> FP w)
    by (intros w H; right; right; left; exact H).
  (* extracting_audio *)
  apply ends_bind with (R := in_stage extracting_audio (db w0)).
  { apply ends_update_reliable; [exact Hs|].
    intros w E. unfold in_stage. cbn [persist db]. rewrite E.
    repeat split. }
  intros _. apply ends_bind with (R := in_stage extracting_audio (db w0)).
  { eapply ends_weaken;
      [apply ends_quiet; [apply quiet_extractAudio | apply in_stage_about_document]
      | intros ? HH; exact HH | intros ? HH; exact HH | exact HA]. }
  (* transcribing *)
  intros audioPath. apply ends_bind with (R := in_stage transcribing (db w0)).
  { apply ends_update_reliable; [exact Hs|].
    intros w (E1 & E2). unfold in_stage. cbn [persist db]. split; [reflexivity|].
    exact E2. }
  intros _. apply ends_bind with (R := in_stage transcribing (db w0)).
  { eapply ends_weaken;
      [apply ends_quiet; [apply quiet_transcribeWithWhisper | apply in_stage_about_document]
      | intros ? HH; exact HH | intros ? HH; exact HH | exact HB]. }
  intros rawTranscript. apply ends_bind with (R := in_stage transcribing (db w0)).
  { eapply ends_weaken;
      [apply ends_quiet; [apply quiet_callAI | apply in_stage_about_document]
      | intros ? HH; exact HH | intros ? HH; exact HH | exact HB]. }
  intros transcript. apply ends_bind with (R := in_stage transcribing (db w0)).
  { eapply ends_weaken;
      [apply ends_quiet; [apply quiet_tool | apply in_stage_about_document]
      | intros ? HH; exact HH | intros ? HH; exact HH | exact HB]. }
  (* summarizing *)
  intros transcriptHtml0. apply ends_bind with (R := in_summarizing (db w0)).
  { apply ends_update_reliable; [exact Hs|].
    intros w (E1 & E2 & E3). unfold in_summarizing. cbn [persist db].
    split; [reflexivity|]. exact E3. }
  intros _. apply ends_bind with (R := in_summarizing (db w0)).
  { eapply ends_weaken;
      [apply ends_quiet; [apply quiet_callAI | apply in_summarizing_about_document]
      | intros ? HH; exact HH | intros ? HH; exact HH | exact HC]. }
  intros summary. apply ends_bind with (R := in_summarizing (db w0)).
  { eapply ends_weaken;
      [apply ends_quiet; [apply quiet_tool | apply in_summarizing_about_document]
      | intros ? HH; exact HH | intros ? HH; exact HH | exact HC]. }
  intros summaryHtml0. apply ends_bind with (R := in_summarizing (db w0)).
  { eapply ends_weaken;
      [apply ends_quiet; [apply quiet_generateQuizzes | apply in_summarizing_about_document]
      | intros ? HH; exact HH | intros ? HH; exact HH | exact HC]. }
  intros quizzes0. apply ends_bind with (R := in_summarizing (db w0)).
  { eapply ends_weaken;
      [apply ends_quiet; [apply quiet_extractFrames | apply in_summarizing_about_document]
      | intros ? HH; exact HH | intros ? HH; exact HH | exact HC]. }
  (* complete *)
  intros slides0. apply ends_bind with (R := in_complete).
  { apply ends_update_reliable; [exact Hs|].
    intros w _. reflexivity. }
  intros _ w r w' Hw Hrun. unfold remove_if_exists in Hrun.
  rewrite tool_run in Hrun. injection Hrun as <- <-.
  destruct (unlink_file env (length (trace w)) audioPath); [exact I|].
  right; right; right. split; [exact Hw|]. now exists audioPath.
Qed.

Lemma record_failure_reliable (id : jsstring) (e : exn) (w1 : World) :
  store_reliable env ->
  record_failure env id e w1
  = (Returned tt, persist id (failure_patch (message e)) w1) /\
  failure_recorded id e w1 (persist id (failure_patch (message e)) w1).
Proof.
  intros Hs. split.
  - unfold record_failure. now apply update_reliable.
  - unfold failure_recorded, artifacts_as_in, transcript_as_in, late_artifacts_as_in.
    cbn [persist db trace]. repeat split.
Qed.

Lemma processLecture_always_returns (id vp title0 : jsstring) (w : World) :
  store_reliable env ->
  exists w', processLecture env id vp title0 w = (Returned tt, w').
Proof.
  intros Hs. unfold processLecture, try_catch.
  destruct (processLecture_try env id vp w) as [[[]|e] w1].
  - now exists w1.
  - destruct (record_failure_reliable id e w1 Hs) as (E & _).
    rewrite E. eexists. reflexivity.
Qed.

Lemma in_early_stage_about_document (l0 : Lecture) :
  about_document (in_early_stage l0).
Proof. intros w w' E _. unfold in_early_stage. now rewrite E. Qed.

(** The same for any store: a write the store rejects leaves the document
    where it was. *)
Lemma processLecture_try_stops (id vp : jsstring) (w0 : World) :
  ends (fun w => db w = db w0) (processLecture_try env id vp)
       (fun _ => True) (stopped_at w0).
Proof.
  unfold processLecture_try.
  set (SA := stopped_at w0).
  assert (HA : forall w, in_early_stage (db w0) w -> SA w)
    by (intros w H; left; exact H).
  assert (HC : forall w, in_summarizing (db w0) w -> SA w)
    by (intros w H; right; left; exact H).
  assert (Hquiet : forall (A : Type) (m : M A),
             quiet m ->
             ends (in_early_stage (db w0)) m (in_early_stage (db w0)) SA).
  { intros A m Hq. eapply ends_weaken;
      [apply ends_quiet; [exact Hq | apply in_early_stage_about_document]
      | intros ? HH; exact HH | intros ? HH; exact HH | exact HA]. }
  assert (Hquiet' : forall (A : Type) (m : M A),
             quiet m ->
             ends (in_summarizing (db w0)) m (in_summarizing (db w0)) SA).
  { intros A m Hq. eapply ends_weaken;
      [apply ends_quiet; [exact Hq | apply in_summarizing_about_document]
      | intros ? HH; exact HH | intros ? HH; exact HH | exact HC]. }
  assert (Hstart : forall w, db w = db w0 -> in_early_stage (db w0) w).
  { intros w E. unfold in_early_stage. rewrite E. split; [repeat split | now left]. }
  (* extracting_audio *)
  apply ends_bind with (R := in_early_stage (db w0)).
  { apply ends_update.
    - intros w E. apply Hstart in E. destruct E as (E & _).
      split; [exact E | right; now left].
    - intros w E. apply HA. now apply Hstart. }
  intros _. apply ends_bind with (R := in_early_stage (db w0));
    [apply Hquiet, quiet_extractAudio|].
  (* transcribing *)
  intros audioPath. apply ends_bind with (R := in_early_stage (db w0)).
  { apply ends_update.
    - intros w (E & _). split; [exact E | right; right; now left].
    - intros w E. apply HA. exact E. }
  intros _. apply ends_bind with (R := in_early_stage (db w0));
    [apply Hquiet, quiet_transcribeWithWhisper|].
  intros rawTranscript. apply ends_bind with (R := in_early_stage (db w0));
    [apply Hquiet, quiet_callAI|].
  intros transcript. apply ends_bind with (R := in_early_stage (db w0));
    [apply Hquiet, quiet_tool|].
  (* summarizing *)
  intros transcriptHtml0. apply ends_bind with (R := in_summarizing (db w0)).
  { apply ends_update.
    - intros w ((_ & E) & _). split; [reflexivity | exact E].
    - intros w E. apply HA. exact E. }
  intros _. apply ends_bind with (R := in_summarizing (db w0));
    [apply Hquiet', quiet_callAI|].
  intros summary. apply ends_bind with (R := in_summarizing (db w0));
    [apply Hquiet', quiet_tool|].
  intros summaryHtml0. apply ends_bind with (R := in_summarizing (db w0));
    [apply Hquiet', quiet_generateQuizzes|].
  intros quizzes0. apply ends_bind with (R := in_summarizing (db w0));
    [apply Hquiet', quiet_extractFrames|].
  (* complete *)
  intros slides0. apply ends_bind with (R := in_complete).
  { apply ends_update.
    - intros w _. reflexivity.
    - intros w E. apply HC. exact E. }
  intros _ w r w' Hw Hrun. unfold remove_if_exists in Hrun.
  rewrite tool_run in Hrun. injection Hrun as <- <-.
  destruct (unlink_file env (length (trace w)) audioPath); [exact I|].
  right; right. split; [exact Hw|]. now exists audioPath.
Qed.

(** The [catch] block: one write, which the store accepts or rejects. *)
Lemma record_failure_outcome (id : jsstring) (e : exn) (w1 : World) :
  record_failure env id e w1
  = match store_update env (length (trace w1)) id (failure_patch (message e)) with
    | Returned _ => (Returned tt, persist id (failure_patch (message e)) w1)
    | Thrown e' => (Thrown e', reject id (failure_patch (message e)) w1)
    end.
Proof.
  unfold record_failure, findByIdAndUpdate, persist, reject.
  now destruct (store_update env (length (trace w1)) id (failure_patch (message e))).
Qed.

Lemma failure_recorded_persist (id : jsstring) (e : exn) (w1 : World) :
  failure_recorded id e w1 (persist id (failure_patch (message e)) w1).
Proof.
  unfold failure_recorded, artifacts_as_in, transcript_as_in, late_artifacts_as_in.
  cbn [persist db trace]. repeat split.
Qed.

(** How the [try] block of a YouTube run can throw: before the file run
    has begun, or with what the file run throws. *)
Lemma processYouTubeLecture_try_thrown (id url title0 : jsstring) (w : World) e w1 :
  processYouTubeLecture_try env id url title0 w = (Thrown e, w1) ->
  (artifacts_as_in (db w) (db w1) /\
   In (processingStage (db w1)) [processingStage (db w); downloading])
  \/
  processLecture env id (youtube_video_path id) title0 (downloaded id url w)
  = (Thrown e, w1).
Proof.
  intros H. unfold processYouTubeLecture_try in H.
  apply bind_thrown in H. destruct H as [H|(u1 & wa & H1 & H)].
  { apply update_thrown in H. subst w1. left. cbn [reject db].
    split; [repeat split | now left]. }
  apply update_returned in H1. subst wa.
  apply bind_thrown in H. destruct H as [H|(vp & wb & H2 & H)].
  { apply download_world in H. destruct H as (-> & _). left.
    cbn [record_event persist db].
    split; [repeat split | right; now left]. }
  apply download_world in H2. destruct H2 as (-> & Hvp).
  rewrite (Hvp vp eq_refl) in *. clear Hvp vp.
  apply bind_thrown in H. destruct H as [H|(u2 & wc & H3 & H)].
  { apply update_thrown in H. subst w1. left.
    cbn [reject record_event persist db].
    split; [repeat split | right; now left]. }
  apply update_returned in H3. subst wc. right. exact H.
Qed.

(** C5, amended. When a stage of a file run raises [e] (the [try] block
    throws in the world [w1]), the orchestrator does no further stage work:
    it attempts one write, of the message of [e] and of the stage [failed].
    If the store accepts the write, the run returns, the message and the
    stage [failed] are in the document, and every artifact is as it was in
    [w1]. If the store rejects it with [e'], the run raises [e'] to its
    invoker and the document stays as it was in [w1]. In [w1] the artifacts
    of the stages after the one that raised have not been written
    ([stopped_at]); with a store that accepts the writes the stage marker is
    moreover that of the stage that raised ([failure_point]). The same
    holds of a YouTube run, whose [try] block throws either before the file
    run has begun, with no artifact written (in stage [downloading], as the
    download has failed, when the store accepts the writes), or with the
    error of the store that the file run on the downloaded video has raised,
    the document being where that file run stopped; and when its [try]
    block returns, the run has been the file run on the downloaded video. *)
Theorem stage_errors_are_recorded :
  (forall (id vp title0 : jsstring) (w : World) (e : exn) (w1 : World),
      processLecture_try env id vp w = (Thrown e, w1) ->
      stopped_at w w1 /\
      (store_update env (length (trace w1)) id (failure_patch (message e)) = Returned tt ->
       exists w',
         processLecture env id vp title0 w = (Returned tt, w') /\
         failure_recorded id e w1 w') /\
      (forall e' : exn,
          store_update env (length (trace w1)) id (failure_patch (message e)) = Thrown e' ->
          processLecture env id vp title0 w
          = (Thrown e', reject id (failure_patch (message e)) w1) /\
          db (reject id (failure_patch (message e)) w1) = db w1) /\
      (store_reliable env -> failure_point w w1))
  /\
  (forall (id url title0 : jsstring) (w : World) (e : exn) (w1 : World),
      processYouTubeLecture_try env id url title0 w = (Thrown e, w1) ->
      ((artifacts_as_in (db w) (db w1) /\
        In (processingStage (db w1)) [processingStage (db w); downloading])
       \/
       (exists (e0 : exn) (w0 : World),
           processLecture_try env id (youtube_video_path id) (downloaded id url w)
           = (Thrown e0, w0) /\
           store_update env (length (trace w0)) id (failure_patch (message e0))
           = Thrown e /\
           stopped_at (downloaded id url w) w0 /\
           db w1 = db w0)) /\
      (store_update env (length (trace w1)) id (failure_patch (message e)) = Returned tt ->
       exists w',
         processYouTubeLecture env id url title0 w = (Returned tt, w') /\
         failure_recorded id e w1 w') /\
      (forall e' : exn,
          store_update env (length (trace w1)) id (failure_patch (message e)) = Thrown e' ->
          processYouTubeLecture env id url title0 w
          = (Thrown e', reject id (failure_patch (message e)) w1) /\
          db (reject id (failure_patch (message e)) w1) = db w1) /\
      (store_reliable env ->
       processingStage (db w1) = downloading /\
       artifacts_as_in (db w) (db w1) /\
       hd_error (trace w1) = Some (EvDownload url id)))
  /\
  (forall (id url title0 : jsstring) (w w' : World),
      processYouTubeLecture_try env id url title0 w = (Returned tt, w') ->
      processLecture env id (youtube_video_path id) title0 (downloaded id url w)
      = (Returned tt, w')).
Proof.
  split; [|split].
  - intros id vp title0 w e w1 H.
    split; [|split; [|split]].
    + pose proof (processLecture_try_stops id vp w) as HE.
      exact (HE w (Thrown e) w1 eq_refl H).
    + intros Hs. exists (persist id (failure_patch (message e)) w1).
      split; [|apply failure_recorded_persist].
      unfold processLecture, try_catch. rewrite H, record_failure_outcome, Hs.
      reflexivity.
    + intros e' Hs. split; [|reflexivity].
      unfold processLecture, try_catch. rewrite H, record_failure_outcome, Hs.
      reflexivity.
    + intros Hs. pose proof (processLecture_try_ends id vp w Hs) as HE.
      exact (HE w (Thrown e) w1 eq_refl H).
  - intros id url title0 w e w1 H.
    split; [|split; [|split]].
    + destruct (processYouTubeLecture_try_thrown _ _ _ _ H) as [Hearly|Hin];
        [now left | right].
      unfold processLecture, try_catch in Hin.
      destruct (processLecture_try env id (youtube_video_path id) (downloaded id url w))
        as [[[]|e0] w0] eqn:Htry; [discriminate Hin|].
      rewrite record_failure_outcome in Hin.
      destruct (store_update env (length (trace w0)) id (failure_patch (message e0)))
        as [[]|e'] eqn:Hs; [discriminate Hin|].
      injection Hin as -> <-. exists e0, w0.
      split; [reflexivity|]. split; [exact Hs|]. split; [|reflexivity].
      pose proof (processLecture_try_stops id (youtube_video_path id)
                    (downloaded id url w)) as HE.
      exact (HE (downloaded id url w) (Thrown e0) w0 eq_refl Htry).
    + intros Hs. exists (persist id (failure_patch (message e)) w1).
      split; [|apply failure_recorded_persist].
      unfold processYouTubeLecture, try_catch.
      rewrite H, record_failure_outcome, Hs. reflexivity.
    + intros e' Hs. split; [|reflexivity].
      unfold processYouTubeLecture, try_catch.
      rewrite H, record_failure_outcome, Hs. reflexivity.
    + intros Hs. unfold processYouTubeLecture_try, bind in H.
      rewrite update_reliable in H by assumption.
      destruct (downloadYouTubeVideo env url id
                  (persist id (stage_patch downloading) w)) as [[vp|e0] wd] eqn:Hd;
        apply download_world in Hd; destruct Hd as (-> & Hvp).
      * rewrite (Hvp vp eq_refl) in *.
        rewrite update_reliable in H by assumption.
        destruct (processLecture_always_returns id (youtube_video_path id) title0
                    (downloaded id url w) Hs) as (w2 & E).
        unfold downloaded in E. rewrite E in H. discriminate H.
      * injection H as <- <-. cbn [record_event persist db trace].
        unfold artifacts_as_in, transcript_as_in, late_artifacts_as_in.
        repeat split.
  - intros id url title0 w w' H. unfold processYouTubeLecture_try in H.
    apply bind_returned in H. destruct H as (u1 & wa & H1 & H).
    apply update_returned in H1. subst wa.
    apply bind_returned in H. destruct H as (vp & wb & H2 & H).
    apply download_world in H2. destruct H2 as (-> & Hvp).
    rewrite (Hvp vp eq_refl) in *. clear Hvp vp.
    apply bind_returned in H. destruct H as (u2 & wc & H3 & H).
    apply update_returned in H3. subst wc.
    destruct u1, u2. exact H.
Qed.

(** *** The invariant of the document *)

Lemma in_flight_not_failed (s : jsstring) :
  In s [uploaded; downloading; extracting_audio; transcribing; summarizing; complete] ->
  s <> failed /\ In s stage_enum.
Proof.
  intros H. unfold stage_enum. cbn [In] in *.
  repeat (destruct H as [<-|H]; [split; [discriminate | tauto]|]).
  contradiction.
Qed.

Lemma clean_about_document : about_document clean.
Proof.
  intros w w' E1 E2. unfold clean, settled. now rewrite E1, E2.
Qed.

Lemma clean_settled (w : World) : clean w -> settled w.
Proof. now intros (H & _). Qed.

Lemma clean_persist (id : jsstring) (p : Patch) (w : World) :
  tidy p -> clean w -> clean (persist id p w).
Proof.
  intros (Herr & Hstage) ((Hall & Hhd) & Hnone & Hin).
  assert (Hnone' : processingError (apply_patch p (db w)) = None).
  { cbn [apply_patch processingError].
    destruct Herr as [->| ->]; [exact Hnone | reflexivity]. }
  assert (Hin' : In (processingStage (apply_patch p (db w)))
                    [uploaded; downloading; extracting_audio; transcribing;
                     summarizing; complete]).
  { cbn [apply_patch processingStage].
    destruct Hstage as [->|(s & -> & Hs)]; assumption. }
  unfold clean, settled. cbn [persist db history hd_error].
  repeat split; try assumption.
  constructor; [|exact Hall].
  destruct (@in_flight_not_failed _ Hin') as (Hnf & Henum).
  split; [exact Henum|]. rewrite Hnone'. split; [congruence | contradiction].
Qed.

Lemma clean_reject (id : jsstring) (p : Patch) (w : World) :
  clean w -> clean (reject id p w).
Proof. apply clean_about_document; reflexivity. Qed.

Lemma settled_failure (id msg : jsstring) (w : World) :
  settled w -> settled (persist id (failure_patch msg) w).
Proof.
  intros (Hall & Hhd). unfold settled. cbn [persist db history hd_error].
  split; [|reflexivity].
  constructor; [|exact Hall].
  split.
  - cbn [apply_patch failure_patch processingStage p_processingStage].
    unfold stage_enum. cbn [In]. tauto.
  - cbn [apply_patch failure_patch processingStage p_processingStage
         processingError p_processingError].
    split; [reflexivity | discriminate].
Qed.

Lemma settled_head (w : World) : settled w -> record_ok (db w).
Proof.
  intros (Hall & Hhd). destruct (history w) as [|l rest]; [discriminate|].
  injection Hhd as <-. now inversion Hall.
Qed.

Ltac tidy_patch :=
  split; [ first [left; reflexivity | right; reflexivity]
         | first [ left; reflexivity
                 | right; eexists; split; [reflexivity | cbn [In]; tauto] ] ].

Ltac clean_step :=
  first
    [ apply ends_update;
      [ intros ? ?; apply clean_persist; [tidy_patch | assumption]
      | intros ? ?; apply clean_reject; assumption ]
    | apply ends_quiet;
      [ first [ apply quiet_extractAudio | apply quiet_transcribeWithWhisper
              | apply quiet_downloadYouTubeVideo | apply quiet_tool
              | apply quiet_callAI | apply quiet_generateQuizzes
              | apply quiet_extractFrames ]
      | apply clean_about_document ] ].

Lemma processLecture_try_clean (id vp : jsstring) :
  ends clean (processLecture_try env id vp) clean clean.
Proof.
  unfold processLecture_try.
  repeat (apply ends_bind with (R := clean); [clean_step | intros ?]).
  clean_step.
Qed.

Lemma record_failure_settles (id : jsstring) (e : exn) :
  ends clean (record_failure env id e) settled clean.
Proof.
  apply ends_update.
  - intros w H. apply settled_failure, clean_settled, H.
  - intros w H. now apply clean_reject.
Qed.

Lemma processLecture_settles (id vp title0 : jsstring) :
  ends clean (processLecture env id vp title0) settled clean.
Proof.
  apply ends_try_catch with (R := clean).
  - eapply ends_weaken;
      [ apply processLecture_try_clean
      | intros ? HH; exact HH
      | exact clean_settled
      | intros ? HH; exact HH ].
  - intros e. apply record_failure_settles.
Qed.

Lemma processYouTubeLecture_settles (id url title0 : jsstring) :
  ends clean (processYouTubeLecture env id url title0) settled clean.
Proof.
  apply ends_try_catch with (R := clean).
  - unfold processYouTubeLecture_try.
    apply ends_bind with (R := clean); [clean_step | intros _].
    apply ends_bind with (R := clean); [clean_step | intros vp].
    apply ends_bind with (R := clean); [clean_step | intros _].
    apply processLecture_settles.
  - intros e. apply record_failure_settles.
Qed.

Lemma new_Lecture_clean (title0 : jsstring) (path url : option jsstring)
      (source0 : jsstring) (now : Z) :
  clean (start (new_Lecture title0 path url source0 now)).
Proof.
  unfold clean, settled, start. cbn [db history hd_error new_Lecture
    processingError processingStage].
  repeat split.
  - constructor; [|constructor]. split.
    + cbn [processingStage]. unfold stage_enum. cbn [In]. tauto.
    + cbn [processingError processingStage].
      split; [intros H; now contradiction H | intros H; discriminate H].
  - cbn [In]. tauto.
Qed.

Lemma ends_settled {A : Type} (m : M A) (w : World) :
  ends clean m settled clean -> clean w -> settled (snd (m w)).
Proof.
  intros He Hw. destruct (m w) as [r w'] eqn:E.
  pose proof (He w r w' Hw E) as H. cbn [snd].
  destruct r; [exact H | exact (clean_settled H)].
Qed.

(** C6. From the document an upload route creates, through every write of
    the orchestrator that runs on it, the stage is one of the enumeration
    and the error is set exactly when the stage is [failed]: this holds of
    every state the document has been in, and of the one it ends in. The
    final update in particular sets the error to null. *)
Theorem document_invariant :
  forall (id title0 path url : jsstring) (now : Z),
    (let w' := snd (processLecture env id path title0
                      (start (new_file_Lecture title0 path now))) in
     Forall record_ok (history w') /\ record_ok (db w'))
    /\
    (let w' := snd (processYouTubeLecture env id url title0
                      (start (new_youtube_Lecture title0 url now))) in
     Forall record_ok (history w') /\ record_ok (db w'))
    /\
    (forall summary html quizzes0 slides0 l,
        processingError (apply_patch (final_patch summary html quizzes0 slides0) l)
        = None).
Proof.
  intros id title0 path url now. split; [|split].
  - assert (H : settled (snd (processLecture env id path title0
                                (start (new_file_Lecture title0 path now))))).
    { apply ends_settled; [apply processLecture_settles | apply new_Lecture_clean]. }
    split; [exact (proj1 H) | exact (settled_head H)].
  - assert (H : settled (snd (processYouTubeLecture env id url title0
                                (start (new_youtube_Lecture title0 url now))))).
    { apply ends_settled; [apply processYouTubeLecture_settles | apply new_Lecture_clean]. }
    split; [exact (proj1 H) | exact (settled_head H)].
  - reflexivity.
Qed.

End Pipeline.

Lemma successful_runs_follow_the_stages_witness :
  (exists a : run_data,
      chronicle (snd demo_file_run)
      = chronicle (start a_lecture) ++ file_run_events demo_env demo_id demo_path a /\
      persisted_stages (file_run_events demo_env demo_id demo_path a)
      = [extracting_audio; transcribing; summarizing; complete] /\
      Forall (is_quiz_post demo_env (r_transcript a)) (r_quiz_posts a) /\
      1 <= length (r_quiz_posts a) <= 2 /\
      run_data_from demo_env demo_id demo_path (start a_lecture) a /\
      document_states (start a_lecture) (snd demo_file_run) a)
  /\
  (exists a : run_data,
      chronicle (snd demo_youtube_run)
      = chronicle (start a_youtube_lecture)
        ++ youtube_run_events demo_youtube_env demo_id demo_url a /\
      persisted_stages (youtube_run_events demo_youtube_env demo_id demo_url a)
      = [downloading; extracting_audio; transcribing; summarizing; complete] /\
      Forall (is_quiz_post demo_youtube_env (r_transcript a)) (r_quiz_posts a) /\
      1 <= length (r_quiz_posts a) <= 2 /\
      exists wd : World,
        download_done demo_id demo_url (start a_youtube_lecture) wd /\
        run_data_from demo_youtube_env demo_id (youtube_video_path demo_id) wd a /\
        document_states wd (snd demo_youtube_run) a).
Proof.
  split.
  - apply (proj1 (@successful_runs_follow_the_stages demo_env)
             demo_id demo_path (js "Algebra") (start a_lecture) (snd demo_file_run)).
    + vm_compute. reflexivity.
    + vm_compute. reflexivity.
  - apply (proj2 (@successful_runs_follow_the_stages demo_youtube_env)
             demo_id demo_url (js "Algebra") (start a_youtube_lecture)
             (snd demo_youtube_run)).
    + vm_compute. reflexivity.
    + vm_compute. reflexivity.
Defined.

(** The conversion to audio fails, and the store is down when the failure
    is to be recorded: the run raises the error of the store, and the
    document is left in the stage [extracting_audio]. *)
Lemma rejected_failure_write_propagates : ~ every_stage_error_is_recorded.
Proof.
  intros H.
  destruct (H unrecorded_env demo_id demo_path (js "Algebra") (start a_lecture)
              audio_error (snd unrecorded_try)) as (w' & E & _).
  - vm_compute. reflexivity.
  - vm_compute in E. discriminate E.
Qed.

Lemma stage_errors_are_recorded_witness :
  (stopped_at (start a_lecture) (snd broken_audio_try) /\
   (exists w',
       processLecture broken_audio_env demo_id demo_path (js "Algebra") (start a_lecture)
       = (Returned tt, w') /\
       failure_recorded demo_id audio_error (snd broken_audio_try) w') /\
   failure_point (start a_lecture) (snd broken_audio_try))
  /\
  (processLecture unrecorded_env demo_id demo_path (js "Algebra") (start a_lecture)
   = (Thrown store_error,
      reject demo_id (failure_patch (message audio_error)) (snd unrecorded_try)) /\
   db (reject demo_id (failure_patch (message audio_error)) (snd unrecorded_try))
   = db (snd unrecorded_try))
  /\
  ((exists w',
       processYouTubeLecture broken_download_env demo_id demo_url (js "Algebra")
                             (start a_youtube_lecture)
       = (Returned tt, w') /\
       failure_recorded demo_id download_error (snd broken_download_try) w') /\
   processingStage (db (snd broken_download_try)) = downloading /\
   artifacts_as_in (db (start a_youtube_lecture)) (db (snd broken_download_try)) /\
   hd_error (trace (snd broken_download_try)) = Some (EvDownload demo_url demo_id)).
Proof.
  split; [|split].
  - destruct (proj1 (@stage_errors_are_recorded broken_audio_env)
                demo_id demo_path (js "Algebra") (start a_lecture)
                audio_error (snd broken_audio_try) eq_refl)
      as (Hstop & Hrec & _ & Hpoint).
    split; [exact Hstop|]. split; [exact (Hrec eq_refl)|].
    exact (Hpoint (fun t id p => eq_refl)).
  - destruct (proj1 (@stage_errors_are_recorded unrecorded_env)
                demo_id demo_path (js "Algebra") (start a_lecture)
                audio_error (snd unrecorded_try) eq_refl)
      as (_ & _ & Hthrow & _).
    exact (Hthrow store_error eq_refl).
  - destruct (proj1 (proj2 (@stage_errors_are_recorded broken_download_env))
                demo_id demo_url (js "Algebra") (start a_youtube_lecture)
                download_error (snd broken_download_try) eq_refl)
      as (_ & Hrec & _ & Hpoint).
    split; [exact (Hrec eq_refl)|].
    exact (Hpoint (fun t id p => eq_refl)).
Defined.

(* ================================================================= *)
(** ** The presentation route *)

Ltac bool_to_prop :=
  rewrite ?orb_true_iff, ?orb_false_iff, ?andb_true_iff, ?andb_false_iff,
    ?N.leb_le, ?N.leb_gt, ?N.eqb_eq, ?N.eqb_neq in *.

Lemma replace_non_alnum_chars (s : jsstring) :
  Forall (fun c => is_name_char c = true) (toLowerCase (replace_non_alnum s)).
Proof.
  unfold toLowerCase, replace_non_alnum. rewrite map_map.
  apply Forall_forall. intros c Hc. apply in_map_iff in Hc.
  destruct Hc as (x & <- & _).
  destruct (is_alnum x) eqn:Hx.
  - destruct (N.leb 65 x && N.leb x 90)%bool eqn:Hup;
      unfold is_alnum, is_name_char in *; bool_to_prop; lia.
  - reflexivity.
Qed.

Lemma name_char_not (c : N) (s : jsstring) :
  is_name_char c = false -> Forall (fun x => is_name_char x = true) s -> ~ In c s.
Proof.
  intros Hc Hs Hin. rewrite Forall_forall in Hs.
  specialize (Hs c Hin). congruence.
Qed.

(** X1. The name under which the presentation is offered for download has the
    length of the title plus twelve and is made of lower-case ASCII letters,
    digits, underscores and dots only, whatever the title: no double quote,
    no line break, no slash and no backslash can reach the
    [Content-Disposition] header through it. *)
Theorem download_name_is_plain :
  forall title0 : jsstring,
    length (ppt_file_name title0) = length title0 + 12 /\
    Forall (fun c => is_name_char c = true) (ppt_file_name title0) /\
    ~ In 34%N (ppt_file_name title0) /\
    ~ In 10%N (ppt_file_name title0) /\
    ~ In 13%N (ppt_file_name title0) /\
    ~ In 47%N (ppt_file_name title0) /\
    ~ In 92%N (ppt_file_name title0).
Proof.
  intros title0.
  assert (H : Forall (fun c => is_name_char c = true) (ppt_file_name title0)).
  { unfold ppt_file_name. apply Forall_app. split.
    - apply replace_non_alnum_chars.
    - vm_compute. repeat constructor. }
  split; [|split; [exact H|]].
  - unfold ppt_file_name, toLowerCase, replace_non_alnum.
    rewrite length_app, !length_map. reflexivity.
  - repeat split; (apply name_char_not; [reflexivity | exact H]).
Qed.

Section PresentationFacts.

Variable site : Site.

Lemma add_images_filter (slides0 : list slide) (deck : list deck_slide) :
  add_images site slides0 deck
  = deck ++ map ImageSlide
              (filter (file_exists site) (map (image_path site) slides0)).
Proof.
  revert deck. induction slides0 as [|s r IH]; intros deck; cbn [add_images map filter].
  - now rewrite app_nil_r.
  - rewrite IH. destruct (file_exists site (image_path site s)).
    + cbn [map]. now rewrite <- app_assoc.
    + reflexivity.
Qed.

(** X2. For a lecture with at least one slide, the presentation written has the
    title slide first and then one image slide for each stored slide whose
    file exists, in the stored order; slides whose file is missing are
    passed over without failing the request, so that even with no image at
    all the reply is the written buffer, with status 200 and the two
    download headers. *)
Theorem presentation_has_the_existing_images :
  forall (lecture : Lecture) (s : slide) (r : list slide) (buffer : list N),
    slides lecture = Some (s :: r) ->
    pptx_write site
      (TitleSlide (title lecture)
       :: map ImageSlide
            (filter (file_exists site) (map (image_path site) (s :: r))))
    = Returned buffer ->
    download_ppt site (Returned (Some lecture))
    = mk_reply 200
        [ (js "Content-Disposition",
           content_disposition (ppt_file_name (title lecture)));
          (js "Content-Type", pptx_content_type) ]
        (BufferBody buffer).
Proof.
  intros lecture s r buffer Hs Hw.
  unfold download_ppt, download_ppt_try. rewrite Hs.
  rewrite add_images_filter. cbn [app]. now rewrite Hw.
Qed.

(** X3. The reply is 404 "No slides found." exactly when the lecture does not
    exist or has no slide; it is 500 exactly when the lookup or the writing
    of the presentation raised, and then carries the message of that error
    after a fixed prefix; in every other case it is 200. *)
Theorem presentation_replies :
  forall found : outcome (option Lecture),
    let r := download_ppt site found in
    (code r = 404%Z \/ code r = 500%Z \/ code r = 200%Z) /\
    (code r = 404%Z <->
       found = Returned None \/
       exists l, found = Returned (Some l) /\
                 (slides l = None \/ slides l = Some [])) /\
    (code r = 404%Z -> r = error_reply 404 (js "No slides found.")) /\
    (code r = 500%Z <->
       exists e,
         found = Thrown e \/
         exists l sl, found = Returned (Some l) /\
                      slides l = Some sl /\ sl <> [] /\
                      pptx_write site (add_images site sl [TitleSlide (title l)])
                      = Thrown e) /\
    (forall e, download_ppt_try site found = Thrown e ->
       r = error_reply 500 (js "Failed to generate presentation: " ++ message e)).
Proof.
  intros found r. subst r. unfold download_ppt, download_ppt_try.
  destruct found as [[l|]|e0].
  - destruct (slides l) as [[|s sl]|] eqn:Hs.
    + cbn. repeat split; auto; try discriminate.
      * intros _. right. exists l. rewrite Hs. split; [reflexivity | now right].
      * intros (e & [F|(l' & sl' & F & F2 & F3 & _)]); [discriminate|].
        injection F as <-. rewrite Hs in F2. injection F2 as <-. now contradiction F3.
    + destruct (pptx_write site (add_images site (s :: sl) [TitleSlide (title l)]))
        as [buffer|e] eqn:Hw; cbn.
      * repeat split; auto; try discriminate.
        -- intros [F|(l' & F & [F2|F2])]; try discriminate;
             injection F as <-; rewrite Hs in F2; discriminate.
        -- intros (e & [F|(l' & sl' & F & F2 & _ & F3)]); [discriminate|].
           injection F as <-. rewrite Hs in F2. injection F2 as <-.
           rewrite Hw in F3. discriminate.
      * repeat split; auto; try discriminate.
        -- intros [F|(l' & F & [F2|F2])]; try discriminate;
             injection F as <-; rewrite Hs in F2; discriminate.
        -- intros _. exists e. right. exists l, (s :: sl).
           repeat split; auto. discriminate.
        -- intros e1 E. now injection E as <-.
    + cbn. repeat split; auto; try discriminate.
      * intros _. right. exists l. rewrite Hs. split; [reflexivity | now left].
      * intros (e & [F|(l' & sl' & F & F2 & _)]); [discriminate|].
        injection F as <-. rewrite Hs in F2. discriminate.
  - cbn. repeat split; auto; try discriminate.
    intros (e & [F|(l' & sl' & F & _)]); discriminate.
  - cbn. repeat split; auto; try discriminate.
    + intros [F|(l' & F & _)]; discriminate.
    + intros _. exists e0. now left.
    + intros e1 E. now injection E as <-.
Qed.

End PresentationFacts.

Lemma presentation_has_the_existing_images_witness :
  download_ppt demo_site (Returned (Some processed_lecture))
  = mk_reply 200
      [ (js "Content-Disposition", content_disposition (js "algebra_slides.pptx"));
        (js "Content-Type", pptx_content_type) ]
      (BufferBody [1; 2; 2]%N).
Proof.
  apply (@presentation_has_the_existing_images demo_site processed_lecture
           (mk_slide (number_of_Z 22) (js "/frames_L1/slide_001.png"))
           [ mk_slide (number_of_Z 45) (js "/frames_L1/slide_002.png");
             mk_slide (number_of_Z 67) (js "/frames_L1/slide_003.png");
             mk_slide (number_of_Z 90) (js "/frames_L1/slide_004.png") ]
           [1; 2; 2]%N).
  - vm_compute. reflexivity.
  - vm_compute. reflexivity.
Defined.

(* ================================================================= *)
(** ** The slides of [extractFrames] *)

Module FrameFacts.







Lemma label_frames_images (id : jsstring) (d : Q) (count i : Z) (names : list jsstring) :
  map image (label_frames id d count i names) = map (frame_url id) names.
Proof.
  revert i. induction names as [|f r IH]; intros i; [reflexivity|].
  cbn [label_frames map image]. now rewrite IH.
Qed.


End FrameFacts.



Lemma substring_tail (c : N) (r : jsstring) :
  Str.substring (c :: r) 1 (Z.of_nat (length (c :: r))) = r.
Proof.
  unfold Str.substring, Str.clamp_index. cbn [length].
  replace (Z.max 0 (Z.min 1 (Z.of_nat (S (length r))))) with 1%Z by lia.
  replace (Z.max 0 (Z.min (Z.of_nat (S (length r))) (Z.of_nat (S (length r)))))
    with (Z.of_nat (S (length r))) by lia.
  rewrite Z.min_l, Z.max_r by lia.
  replace (Z.to_nat (Z.of_nat (S (length r)) - 1)) with (length r) by lia.
  change (Z.to_nat 1) with 1. cbn [skipn]. apply firstn_all.
Qed.

Lemma correctImageName_frame_url (id f : jsstring) :
  correctImageName (frame_url id f) = js "frames_" ++ id ++ js "/" ++ f.
Proof.
  unfold correctImageName, frame_url.
  change (js "/frames_") with (47%N :: js "frames_"). cbn [app].
  change (Str.starts_with (js "/") (47%N :: js "frames_" ++ id ++ js "/" ++ f))
    with true.
  cbv iota. apply substring_tail.
Qed.

(** X5. What the slides of [extractFrames] become in the presentation
    route: for the slide it made of the frame file [name] of lecture [id],
    the route drops the leading slash of the stored URL and checks the file
    [path.join(__dirname, 'uploads', 'frames_<id>/<name>')]. *)
Theorem presentation_paths_of_extracted_frames :
  forall (site : Site) (env : Env) (vp id : jsstring) (w : World)
         (slides0 : list slide) (w' : World),
    extractFrames env vp id w = (Returned slides0, w') ->
    exists names : list jsstring,
      map image slides0 = map (frame_url id) names /\
      map correctImageName (map image slides0)
      = map (fun name => js "frames_" ++ id ++ js "/" ++ name) names /\
      map (image_path site) slides0
      = map (fun name =>
               path_join site
                 [dirname site; js "uploads"; js "frames_" ++ id ++ js "/" ++ name])
            names.
Proof.
  intros site env vp id w slides0 w' H. unfold extractFrames in H.
  apply bind_returned in H. destruct H as (u & w1 & _ & H).
  apply bind_returned in H. destruct H as (d & w2 & _ & H).
  apply bind_returned in H. destruct H as (files & w3 & _ & H).
  injection H as <- _. fold is_png.
  set (names := sort_names (filter is_png files)). clearbody names.
  exists names.
  split; [apply FrameFacts.label_frames_images|].
  split.
  - rewrite FrameFacts.label_frames_images, map_map.
    apply map_ext. intros name. apply correctImageName_frame_url.
  - generalize 0%Z. induction names as [|f r IH]; intros i; [reflexivity|].
    cbn [label_frames map]. rewrite IH. f_equal.
    unfold image_path. cbn [image].
    fold (frame_url id f). now rewrite correctImageName_frame_url.
Qed.

Lemma presentation_paths_of_extracted_frames_witness :
  exists names : list jsstring,
    map image long_video_slides = map (frame_url demo_id) names /\
    map correctImageName (map image long_video_slides)
    = map (fun name => js "frames_" ++ demo_id ++ js "/" ++ name) names /\
    map (image_path demo_site) long_video_slides
    = map (fun name =>
             path_join demo_site
               [dirname demo_site; js "uploads";
                js "frames_" ++ demo_id ++ js "/" ++ name])
          names.
Proof.
  apply (@presentation_paths_of_extracted_frames demo_site long_video_env demo_path
           demo_id (start a_lecture) long_video_slides
           (record_event (EvScreenshots demo_path 7 (frames_dir demo_id))
              (record_event (EvProbe demo_path)
                 (record_event (EvEnsureDir (frames_dir demo_id)) (start a_lecture))))).
  vm_compute. reflexivity.
Defined.

(* ================================================================= *)
(** ** The chat route *)

Section ChatFacts.

Variable env : Env.
Variable number_to_string : Q -> jsstring.

Lemma chat_try_cases (body : option json) (found : outcome (option Lecture)) (w : World) :
  (exists e, chat_try env number_to_string body found w = (Thrown e, w))
  \/ chat_try env number_to_string body found w = (Returned transcript_not_found, w)
  \/ exists q l t text,
       destructure (js "question") body = Returned q /\
       found = Returned (Some l) /\
       transcriptMd l = Some t /\ t <> [] /\
       interpolate number_to_string q = Returned text /\
       chat_try env number_to_string body found w
       = match callAI env (chat_messages t text) chat_maxTokens w with
         | (Returned answer, w') => (Returned (mk_reply 200 [] (AnswerBody answer)), w')
         | (Thrown e, w') => (Thrown e, w')
         end.
Proof.
  unfold chat_try, bind, lift.
  destruct (destructure (js "question") body) as [q|e]; [|left; now exists e].
  destruct found as [[l|]|e]; [| right; now left | left; now exists e].
  destruct (transcriptMd l) as [[|c t]|] eqn:Ht; [right; now left | | right; now left].
  destruct (interpolate number_to_string q) as [text|e] eqn:Hq; [|left; now exists e].
  right. right. exists q, l, (c :: t), text.
  split; [reflexivity|]. split; [reflexivity|]. split; [exact Ht|].
  split; [discriminate|]. split; [exact Hq|].
  unfold ret.
  now destruct (callAI env (chat_messages (c :: t) text) chat_maxTokens w) as [[a|e] w'].
Qed.

(** X6. When the lecture does not exist, or has no transcript yet (none, or an
    empty one), the chat route answers 404 "Transcript not found" and sends
    nothing to the AI backend: the world is left as it was. (The request
    body must be there: its [question] is read first.) *)
Theorem chat_needs_a_transcript :
  forall (body : option json) (found : outcome (option Lecture)) (w : World)
         (q : option json),
    destructure (js "question") body = Returned q ->
    (found = Returned None \/
     exists l, found = Returned (Some l) /\ nonempty_string (transcriptMd l) = false) ->
    chat_route env number_to_string body found w = (Returned transcript_not_found, w).
Proof.
  intros body found w q Hq Hf.
  unfold chat_route, try_catch, chat_try, bind, lift. rewrite Hq.
  destruct Hf as [->|(l & -> & Hl)]; [reflexivity|].
  destruct (transcriptMd l) as [[|c t]|]; try reflexivity. discriminate Hl.
Qed.

(** X7. The chat route always replies, and its reply is one of three: 404
    "Transcript not found", 200 with an answer, or 500 with the fixed text
    "Failed to get response from chatbot", which says nothing of what
    failed. At most one request goes to the AI backend. A request without a
    body, or a failed lookup, gives the 500; without an API key no request
    is sent and no answer is given. *)
Theorem chat_always_replies :
  forall (body : option json) (found : outcome (option Lecture)) (w : World),
  exists (r : reply) (w' : World),
    chat_route env number_to_string body found w = (Returned r, w') /\
    (r = transcript_not_found \/ r = chatbot_failed \/
     exists answer, r = mk_reply 200 [] (AnswerBody answer)) /\
    (w' = w \/
     exists t text, w' = record_event (EvPost (chat_request env t text)) w) /\
    (body = None -> r = chatbot_failed /\ w' = w) /\
    (forall e, found = Thrown e -> r = chatbot_failed /\ w' = w) /\
    (no_api_key env = true -> w' = w /\ code r <> 200%Z).
Proof.
  intros body found w. unfold chat_route, try_catch.
  destruct (chat_try_cases body found w)
    as [(e & E)|[E|(q & l & t & text & Hq & Hf & Ht & Hne & Hi & E)]]; rewrite E.
  - exists chatbot_failed, w. repeat split; auto. discriminate.
  - exists transcript_not_found, w. split; [reflexivity|].
    split; [now left|]. split; [now left|].
    unfold chat_try, bind, lift in E.
    split; [|split].
    + intros ->. discriminate E.
    + intros e ->. destruct (destructure (js "question") body); discriminate E.
    + intros _. split; [reflexivity | discriminate].
  - destruct (callAI_cases env (chat_messages t text) chat_maxTokens w)
      as [(Hk & Ec)|(Hk & r0 & Ec)]; rewrite Ec.
    + exists chatbot_failed, w. repeat split; auto; try discriminate.
    + fold (chat_request env t text).
      assert (Hb : body <> None) by (intros ->; discriminate Hq).
      assert (Hfound : forall e, found <> Thrown e) by (intros e ->; discriminate Hf).
      destruct r0 as [answer|e0].
      * exists (mk_reply 200 [] (AnswerBody answer)),
          (record_event (EvPost (chat_request env t text)) w).
        split; [reflexivity|].
        split; [right; right; now exists answer|].
        split; [right; now exists t, text|].
        split; [intros F; now contradiction Hb|].
        split; [intros e F; now contradiction (Hfound e)|].
        intros F. congruence.
      * exists chatbot_failed, (record_event (EvPost (chat_request env t text)) w).
        split; [reflexivity|].
        split; [right; now left|].
        split; [right; now exists t, text|].
        split; [intros F; now contradiction Hb|].
        split; [intros e F; now contradiction (Hfound e)|].
        intros F. congruence.
Qed.

(** X8. With an API key, a readable question and a lecture that has a
    transcript, the chat route sends exactly one request: 800 tokens at
    most, a system message with the assistant's instructions followed by one
    user message that holds the transcript between double quotes and then
    the text of the question. The backend's answer is passed on unchanged
    with status 200; if the request fails the reply is the fixed 500. *)
Theorem chat_asks_once :
  forall (body : option json) (found : outcome (option Lecture)) (w : World)
         (q : option json) (text : jsstring) (l : Lecture) (t : jsstring),
    no_api_key env = false ->
    destructure (js "question") body = Returned q ->
    interpolate number_to_string q = Returned text ->
    found = Returned (Some l) ->
    transcriptMd l = Some t -> t <> [] ->
    chat_route env number_to_string body found w
    = (Returned
         match axios_post env (length (trace w)) (chat_request env t text) with
         | HttpContent answer => mk_reply 200 [] (AnswerBody answer)
         | HttpFailure _ => chatbot_failed
         end,
       record_event (EvPost (chat_request env t text)) w)
    /\ max_tokens (chat_request env t text) = 800%Z
    /\ map role (messages (chat_request env t text)) = [js "system"; js "user"]
    /\ map content (messages (chat_request env t text))
       = [ chat_system_prompt;
           jsq "Transcript:" ++ newline ++ jsq "'" ++ t ++ jsq "'" ++ newline
           ++ newline ++ js "Question:" ++ newline ++ text ].
Proof.
  intros body found w q text l t Hk Hq Hi Hf Ht Hne.
  split; [|repeat split].
  unfold chat_route, try_catch, chat_try, bind, lift.
  rewrite Hq, Hf, Ht. destruct t as [|c t]; [now contradiction Hne|].
  rewrite Hi, callAI_with_key by assumption.
  fold (chat_request env (c :: t) text).
  now destruct (axios_post env (length (trace w)) (chat_request env (c :: t) text)).
Qed.

End ChatFacts.

Lemma chat_needs_a_transcript_witness :
  chat_route demo_env show_integer question_body (Returned (Some a_lecture))
             (start a_lecture)
  = (Returned transcript_not_found, start a_lecture).
Proof.
  apply (@chat_needs_a_transcript demo_env show_integer question_body
           (Returned (Some a_lecture)) (start a_lecture)
           (Some (JStr (js "What is this lecture about?")))).
  - vm_compute. reflexivity.
  - right. exists a_lecture. split; reflexivity.
Defined.

Lemma chat_asks_once_witness :
  chat_route (studio some_key answering_backend no_shuffle) show_integer empty_body
             (Returned (Some processed_lecture)) (start processed_lecture)
  = (Returned (mk_reply 200 [] (AnswerBody (js "It is about algebra."))),
     record_event
       (EvPost (chat_request (studio some_key answering_backend no_shuffle)
                  (js "Hello world.") (js "undefined")))
       (start processed_lecture)).
Proof.
  apply (proj1 (@chat_asks_once (studio some_key answering_backend no_shuffle)
                  show_integer empty_body (Returned (Some processed_lecture))
                  (start processed_lecture) None (js "undefined")
                  processed_lecture (js "Hello world.")
                  eq_refl eq_refl eq_refl eq_refl eq_refl
                  ltac:(discriminate))).
Defined.

(* ================================================================= *)
(** ** What a run may use *)

Section Budget.

Variable env : Env.
Variable k : event_kind.

Lemma spent_refl (w : World) : spent k w 0 w.
Proof. exists []. split; [reflexivity | apply Nat.le_refl]. Qed.

Lemma spent_trans (w0 w1 w2 : World) (a b : nat) :
  spent k w0 a w1 -> spent k w1 b w2 -> spent k w0 (a + b) w2.
Proof.
  intros (e1 & E1 & L1) (e2 & E2 & L2). exists (e2 ++ e1). split.
  - now rewrite E2, E1, app_assoc.
  - rewrite filter_app, length_app. lia.
Qed.

Lemma spent_weaken (w0 w : World) (a b : nat) :
  a <= b -> spent k w0 a w -> spent k w0 b w.
Proof. intros Hab (evs & E & L). exists evs. split; [exact E | lia]. Qed.

Lemma spent_event (ev : event) (w : World) :
  spent k w (Nat.b2n (kind_eqb (kind_of ev) k)) (record_event ev w).
Proof.
  exists [ev]. split; [reflexivity|]. cbn [filter]. unfold of_kind.
  destruct (kind_eqb (kind_of ev) k); apply Nat.le_refl.
Qed.

Lemma spent_tally (w0 w : World) (n : nat) :
  spent k w0 n w -> tally k w0 <= tally k w <= tally k w0 + n.
Proof.
  intros (evs & E & L). unfold tally. rewrite E, filter_app, length_app. lia.
Qed.

Lemma adds_ret {A : Type} (a : A) : adds_at_most k 0 (ret a).
Proof. intros w r w' H. injection H as _ <-. apply spent_refl. Qed.

Lemma adds_throw {A : Type} (e : exn) : adds_at_most k 0 (@throw A e).
Proof. intros w r w' H. injection H as _ <-. apply spent_refl. Qed.

Lemma adds_weaken {A : Type} (m : M A) (a b : nat) :
  a <= b -> adds_at_most k a m -> adds_at_most k b m.
Proof. intros Hab H w r w' Hrun. exact (spent_weaken Hab (H w r w' Hrun)). Qed.

Lemma adds_bind {A B : Type} (m : M A) (f : A -> M B) (a b : nat) :
  adds_at_most k a m -> (forall x, adds_at_most k b (f x)) ->
  adds_at_most k (a + b) (bind m f).
Proof.
  intros Hm Hf w r w' Hrun. unfold bind in Hrun.
  destruct (m w) as [[x|e] w1] eqn:E.
  - exact (spent_trans (Hm w _ w1 E) (Hf x w1 r w' Hrun)).
  - injection Hrun as <- <-.
    apply (@spent_weaken w w1 a (a + b)); [lia | exact (Hm w _ w1 E)].
Qed.

Lemma adds_try_catch {A : Type} (body : M A) (handler : exn -> M A) (a b : nat) :
  adds_at_most k a body -> (forall e, adds_at_most k b (handler e)) ->
  adds_at_most k (a + b) (try_catch body handler).
Proof.
  intros Hb Hh w r w' Hrun. unfold try_catch in Hrun.
  destruct (body w) as [[x|e] w1] eqn:E.
  - injection Hrun as <- <-.
    apply (@spent_weaken w w1 a (a + b)); [lia | exact (Hb w _ w1 E)].
  - exact (spent_trans (Hb w _ w1 E) (Hh e w1 r w' Hrun)).
Qed.

Lemma adds_tool {A : Type} (ev : event) (oracle : nat -> outcome A) (k0 : event_kind) :
  kind_of ev = k0 ->
  adds_at_most k (Nat.b2n (kind_eqb k0 k)) (tool ev oracle).
Proof.
  intros <- w r w' H. rewrite tool_run in H. injection H as _ <-.
  apply spent_event.
Qed.

Lemma adds_update (id : jsstring) (p : Patch) :
  adds_at_most k (Nat.b2n (kind_eqb KUpdate k)) (findByIdAndUpdate env id p).
Proof.
  intros w r w' H.
  destruct (update_cases env id p w) as [E|(e & E)]; rewrite E in H;
    injection H as _ <-.
  - exact (spent_event (EvUpdate id p true) w).
  - exact (spent_event (EvUpdate id p false) w).
Qed.

Lemma adds_callAI (msgs : list chat_message) (maxTokens : Z) :
  adds_at_most k (Nat.b2n (kind_eqb KPost k)) (callAI env msgs maxTokens).
Proof.
  intros w r w' H.
  destruct (callAI_cases env msgs maxTokens w) as [(_ & E)|(_ & r0 & E)];
    rewrite E in H; injection H as _ <-.
  - apply (@spent_weaken w w 0); [lia | apply spent_refl].
  - exact (spent_event (EvPost (request_of env msgs maxTokens)) w).
Qed.

Lemma quiz_posts_count (transcript : jsstring) (posts : list event) :
  Forall (is_quiz_post env transcript) posts ->
  length (filter (of_kind k) posts) = Nat.b2n (kind_eqb KPost k) * length posts.
Proof.
  induction 1 as [|ev rest Hev _ IH]; [now rewrite Nat.mul_0_r|].
  cbn [filter length]. unfold of_kind at 1.
  assert (Hk : kind_of ev = KPost) by (destruct Hev as [->|(last & ->)]; reflexivity).
  rewrite Hk. destruct (kind_eqb KPost k); cbn [length Nat.b2n] in *; lia.
Qed.

Lemma adds_generateQuizzes (transcript : jsstring) :
  adds_at_most k (2 * Nat.b2n (kind_eqb KPost k)) (generateQuizzes env transcript).
Proof.
  intros w r w' H. apply generateQuizzes_spec in H.
  destruct H as (_ & _ & posts & Ht & Hp & Hlen & _).
  exists (rev posts). split; [exact Ht|].
  pose proof (@quiz_posts_count transcript (rev posts) (Forall_rev Hp)) as Hc.
  rewrite Hc, length_rev. destruct (kind_eqb KPost k); cbn [Nat.b2n]; lia.
Qed.

End Budget.

Ltac adds_step :=
  first [ apply adds_ret | apply adds_throw | apply adds_update | apply adds_callAI
        | apply adds_generateQuizzes | (eapply adds_tool; reflexivity) ].

Ltac adds_chain :=
  repeat (eapply adds_bind; [adds_step | intros ?]); adds_step.

Section RunBudget.

Variable env : Env.
Variable k : event_kind.

Lemma adds_extractAudio (vp : jsstring) :
  adds_at_most k (Nat.b2n (kind_eqb KExtractAudio k) + 0) (extractAudio env vp).
Proof. unfold extractAudio. adds_chain. Qed.

Lemma adds_transcribe (audio : jsstring) :
  adds_at_most k (Nat.b2n (kind_eqb KTranscribe k) + 0)
               (transcribeWithWhisper env audio).
Proof.
  unfold transcribeWithWhisper. eapply adds_bind; [adds_step|].
  intros [code errorOutput [output|]|reason]; try destruct (exited_zero code);
    adds_step.
Qed.

Lemma adds_download (url id : jsstring) :
  adds_at_most k (Nat.b2n (kind_eqb KDownload k) + 0)
               (downloadYouTubeVideo env url id).
Proof.
  unfold downloadYouTubeVideo. eapply adds_bind; [adds_step|].
  intros [code|reason]; try destruct (exited_zero code); adds_step.
Qed.

Lemma adds_extractFrames (vp id : jsstring) :
  adds_at_most k
    (Nat.b2n (kind_eqb KEnsureDir k)
     + (Nat.b2n (kind_eqb KProbe k) + (Nat.b2n (kind_eqb KScreenshots k) + 0)))
    (extractFrames env vp id).
Proof. unfold extractFrames. adds_chain. Qed.

Lemma adds_render (text : jsstring) :
  adds_at_most k (Nat.b2n (kind_eqb KRender k)) (render env text).
Proof. unfold render. adds_step. Qed.

Lemma adds_remove (p : jsstring) :
  adds_at_most k (Nat.b2n (kind_eqb KUnlink k)) (remove_if_exists env p).
Proof. unfold remove_if_exists. adds_step. Qed.

Lemma adds_formatTranscript (raw : jsstring) :
  adds_at_most k (Nat.b2n (kind_eqb KPost k)) (formatTranscript env raw).
Proof. unfold formatTranscript. adds_step. Qed.

Lemma adds_generateSummary (transcript : jsstring) :
  adds_at_most k (Nat.b2n (kind_eqb KPost k)) (generateSummary env transcript).
Proof. unfold generateSummary. adds_step. Qed.

Lemma adds_record_failure (id : jsstring) (e : exn) :
  adds_at_most k (Nat.b2n (kind_eqb KUpdate k)) (record_failure env id e).
Proof. unfold record_failure. adds_step. Qed.

End RunBudget.

Ltac adds_run_step :=
  first [ adds_step | apply adds_extractAudio | apply adds_transcribe
        | apply adds_download | apply adds_extractFrames | apply adds_render
        | apply adds_remove | apply adds_formatTranscript
        | apply adds_generateSummary | apply adds_record_failure ].

Ltac adds_run_chain :=
  repeat (eapply adds_bind; [adds_run_step | intros ?]); adds_run_step.

Lemma adds_processLecture (env : Env) (k : event_kind) (id vp title0 : jsstring) :
  adds_at_most k (file_run_budget k) (processLecture env id vp title0).
Proof.
  unfold processLecture, processLecture_try.
  eapply adds_weaken; cycle 1.
  - eapply adds_try_catch; [adds_run_chain | intros e; adds_run_step].
  - destruct k; cbn; lia.
Qed.

Lemma adds_processYouTubeLecture (env : Env) (k : event_kind) (id url title0 : jsstring) :
  adds_at_most k (youtube_run_budget k) (processYouTubeLecture env id url title0).
Proof.
  unfold processYouTubeLecture, processYouTubeLecture_try.
  eapply adds_weaken; cycle 1.
  - eapply adds_try_catch; [|intros e; adds_run_step].
    repeat (eapply adds_bind; [adds_run_step | intros ?]).
    apply adds_processLecture.
  - destruct k; cbn; lia.
Qed.

(** X9. Whatever the tools, the backend and the store do, and however the run
    ends, a run stays within its budget of effects. A file run writes to the
    store at most five times, sends at most four requests to the AI backend,
    renders at most twice, and converts, transcribes, probes, takes
    screenshots and removes the audio file at most once each; it never
    downloads. A YouTube run downloads at most once and writes at most eight
    times, and is otherwise held to the same numbers. *)
Theorem runs_stay_within_budget :
  forall (env : Env) (k : event_kind) (id vp url title0 : jsstring) (w : World),
    tally k (snd (processLecture env id vp title0 w))
    <= tally k w + file_run_budget k
    /\
    tally k (snd (processYouTubeLecture env id url title0 w))
    <= tally k w + youtube_run_budget k.
Proof.
  intros env k id vp url title0 w. split.
  - destruct (processLecture env id vp title0 w) as [r w'] eqn:E.
    exact (proj2 (spent_tally (@adds_processLecture env k id vp title0 w r w' E))).
  - destruct (processYouTubeLecture env id url title0 w) as [r w'] eqn:E.
    exact (proj2 (spent_tally
                    (@adds_processYouTubeLecture env k id url title0 w r w' E))).
Qed.

(* ================================================================= *)
(** ** The audio file of a failed run *)

Lemma ends_adds_nothing {A : Type} (k : event_kind) (w0 : World) (m : M A) :
  adds_at_most k 0 m ->
  ends (spent k w0 0) m (spent k w0 0) (spent k w0 0).
Proof.
  intros Hm w r w' Hw Hrun.
  pose proof (spent_trans Hw (Hm w r w' Hrun)) as H.
  destruct r; exact H.
Qed.

Lemma spent_nothing (k : event_kind) (w0 w : World) :
  spent k w0 0 w -> tally k w = tally k w0.
Proof. intros H. apply spent_tally in H. lia. Qed.

(** X10. When a file run fails, the audio file it extracted is left on disk: up
    to the point of failure its removal has not been attempted. The one
    exception is a failure of the removal itself, which is the last step and
    comes after the lecture has been marked complete. *)
Theorem failed_run_keeps_the_audio_file :
  forall (env : Env) (id vp : jsstring) (w : World) (e : exn) (w1 : World),
    processLecture_try env id vp w = (Thrown e, w1) ->
    tally KUnlink w1 = tally KUnlink w
    \/
    (processingStage (db w1) = complete /\
     exists p w2, trace w1 = EvUnlink p :: trace w2 /\
                  tally KUnlink w2 = tally KUnlink w).
Proof.
  intros env id vp w e w1 Hrun.
  set (Q := fun w1 : World =>
              tally KUnlink w1 = tally KUnlink w
              \/
              (processingStage (db w1) = complete /\
               exists p w2, trace w1 = EvUnlink p :: trace w2 /\
                            tally KUnlink w2 = tally KUnlink w)).
  assert (HQ : forall w1, spent KUnlink w 0 w1 -> Q w1)
    by (intros w2 H; left; now apply spent_nothing).
  assert (Hstep : forall (A : Type) (m : M A),
             adds_at_most KUnlink 0 m ->
             ends (spent KUnlink w 0) m (spent KUnlink w 0) Q).
  { intros A m Hm. eapply ends_weaken;
      [apply ends_adds_nothing; exact Hm
      | intros ? HH; exact HH | intros ? HH; exact HH | exact HQ]. }
  assert (He : ends (spent KUnlink w 0) (processLecture_try env id vp)
                    (fun _ => True) Q).
  { unfold processLecture_try.
    apply ends_bind with (R := spent KUnlink w 0);
      [apply Hstep; apply adds_update | intros _].
    apply ends_bind with (R := spent KUnlink w 0);
      [apply Hstep; apply (@adds_extractAudio env KUnlink) | intros audioPath].
    apply ends_bind with (R := spent KUnlink w 0);
      [apply Hstep; apply adds_update | intros _].
    apply ends_bind with (R := spent KUnlink w 0);
      [apply Hstep; apply (@adds_transcribe env KUnlink) | intros rawTranscript].
    apply ends_bind with (R := spent KUnlink w 0);
      [apply Hstep; apply (@adds_formatTranscript env KUnlink) | intros transcript].
    apply ends_bind with (R := spent KUnlink w 0);
      [apply Hstep; apply (@adds_render env KUnlink) | intros transcriptHtml0].
    apply ends_bind with (R := spent KUnlink w 0);
      [apply Hstep; apply adds_update | intros _].
    apply ends_bind with (R := spent KUnlink w 0);
      [apply Hstep; apply (@adds_generateSummary env KUnlink) | intros summary].
    apply ends_bind with (R := spent KUnlink w 0);
      [apply Hstep; apply (@adds_render env KUnlink) | intros summaryHtml0].
    apply ends_bind with (R := spent KUnlink w 0);
      [apply Hstep; apply (@adds_generateQuizzes env KUnlink) | intros quizzes0].
    apply ends_bind with (R := spent KUnlink w 0);
      [apply Hstep; apply (@adds_extractFrames env KUnlink) | intros slides0].
    apply ends_bind
      with (R := fun w2 => spent KUnlink w 0 w2 /\ processingStage (db w2) = complete).
    { apply ends_update.
      - intros w2 H2. split; [|reflexivity].
        exact (spent_trans H2 (spent_event KUnlink (EvUpdate id _ true) w2)).
      - intros w2 H2. apply HQ.
        exact (spent_trans H2 (spent_event KUnlink (EvUpdate id _ false) w2)). }
    intros _ w2 r w3 (H2 & Hc) H. unfold remove_if_exists in H.
    rewrite tool_run in H. injection H as <- <-.
    destruct (unlink_file env (length (trace w2)) audioPath); [exact I|].
    right. split; [exact Hc|]. exists audioPath, w2.
    split; [reflexivity | now apply spent_nothing]. }
  exact (He w (Thrown e) w1 (spent_refl KUnlink w) Hrun).
Qed.

Lemma failed_run_keeps_the_audio_file_witness :
  tally KUnlink (snd broken_audio_try) = tally KUnlink (start a_lecture)
  \/
  (processingStage (db (snd broken_audio_try)) = complete /\
   exists p w2, trace (snd broken_audio_try) = EvUnlink p :: trace w2 /\
                tally KUnlink w2 = tally KUnlink (start a_lecture)).
Proof.
  apply (@failed_run_keeps_the_audio_file broken_audio_env demo_id demo_path
           (start a_lecture) audio_error (snd broken_audio_try)).
  vm_compute. reflexivity.
Defined.

(* ================================================================= *)
(** ** Where a run leaves the document *)

Lemma ends_any {A : Type} (P : World -> Prop) (m : M A) :
  ends P m (fun _ => True) (fun _ => True).
Proof. intros w r w' _ _. now destruct r. Qed.

Section Terminal.

Variable env : Env.

Lemma processLecture_try_completes (id vp : jsstring) :
  ends (fun _ => True) (processLecture_try env id vp)
       (fun w => processingStage (db w) = complete /\ processingError (db w) = None)
       (fun _ => True).
Proof.
  unfold processLecture_try.
  set (R := fun w : World => processingStage (db w) = complete
                             /\ processingError (db w) = None).
  do 11 (apply ends_bind with (R := fun _ : World => True);
         [apply ends_any | intros ?]).
  apply ends_bind with (R := R).
  - apply ends_update; intros w _; [now split | exact I].
  - intros _. apply ends_weaken with (P := R) (Qr := R) (Qt := R).
    + apply ends_quiet; [apply quiet_tool|].
      intros w w' E _ H. unfold R in *. now rewrite E.
    + intros ? HH; exact HH.
    + intros ? HH; exact HH.
    + intros ? _. exact I.
Qed.

Lemma record_failure_fails (id : jsstring) (e : exn) :
  ends (fun _ => True) (record_failure env id e)
       (fun w => terminal (db w)) (fun _ => True).
Proof.
  unfold record_failure. apply ends_update; intros w _; [|exact I].
  right. split; [reflexivity|]. now exists (message e).
Qed.

Lemma processLecture_terminal (id vp title0 : jsstring) :
  ends (fun _ => True) (processLecture env id vp title0)
       (fun w => terminal (db w)) (fun _ => True).
Proof.
  unfold processLecture.
  apply ends_try_catch with (R := fun _ : World => True).
  - eapply ends_weaken; [apply processLecture_try_completes | | | ].
    + intros ? HH; exact HH.
    + intros w H. now left.
    + intros ? HH; exact HH.
  - intros e. apply record_failure_fails.
Qed.

Lemma processYouTubeLecture_terminal (id url title0 : jsstring) :
  ends (fun _ => True) (processYouTubeLecture env id url title0)
       (fun w => terminal (db w)) (fun _ => True).
Proof.
  unfold processYouTubeLecture, processYouTubeLecture_try.
  apply ends_try_catch with (R := fun _ : World => True).
  - do 3 (apply ends_bind with (R := fun _ : World => True);
          [apply ends_any | intros ?]).
    eapply ends_weaken; [apply processLecture_terminal | | | ].
    + intros ? HH; exact HH.
    + intros ? HH; exact HH.
    + intros ? HH. exact I.
  - intros e. apply record_failure_fails.
Qed.

Lemma terminal_status (l : Lecture) :
  terminal l ->
  exists body : progress,
    get_status (Some l) = Progress body /\
    ((isComplete body = true /\ stage body = complete /\ error body = None)
     \/
     (isComplete body = false /\ stage body = failed /\
      exists msg, error body = Some msg)).
Proof.
  intros [(Hs & He)|(Hs & msg & He)]; eexists; (split; [reflexivity|]);
    cbn [isComplete stage error]; rewrite Hs, He.
  - left. now repeat split.
  - right. repeat split. now exists msg.
Qed.

(** X11. A run that returns to its caller has not left its lecture in
    flight: whatever document it started from and whatever the tools, the
    backend and the store have answered, the document is then either
    [complete] with no error recorded or [failed] with an error message; and
    that is what the status route reports from then on, [isComplete] being
    true in the first case only. *)
Theorem returned_runs_are_final :
  forall (id vp url title0 : jsstring) (w w' : World),
    processLecture env id vp title0 w = (Returned tt, w') \/
    processYouTubeLecture env id url title0 w = (Returned tt, w') ->
    terminal (db w') /\
    exists body : progress,
      get_status (Some (db w')) = Progress body /\
      ((isComplete body = true /\ stage body = complete /\ error body = None)
       \/
       (isComplete body = false /\ stage body = failed /\
        exists msg, error body = Some msg)).
Proof.
  intros id vp url title0 w w' Hrun.
  assert (H : terminal (db w')).
  { destruct Hrun as [Hrun|Hrun].
    - exact (@processLecture_terminal id vp title0 w (Returned tt) w' I Hrun).
    - exact (@processYouTubeLecture_terminal id url title0 w (Returned tt) w' I Hrun). }
  split; [exact H | now apply terminal_status].
Qed.

End Terminal.

Lemma returned_runs_are_final_witness :
  terminal (db (snd demo_file_run)) /\
  terminal (db (snd demo_youtube_run)) /\
  terminal (db (snd unrecorded_youtube_run)).
Proof.
  assert (H1 : processLecture demo_env demo_id demo_path (js "Algebra") (start a_lecture)
               = (Returned tt, snd demo_file_run)) by (vm_compute; reflexivity).
  assert (H2 : processYouTubeLecture demo_youtube_env demo_id demo_url (js "Algebra")
                 (start a_youtube_lecture)
               = (Returned tt, snd demo_youtube_run)) by (vm_compute; reflexivity).
  assert (H3 : processYouTubeLecture (with_store broken_audio_env (down_at 5))
                 demo_id demo_url (js "Algebra") (start a_youtube_lecture)
               = (Returned tt, snd unrecorded_youtube_run)) by (vm_compute; reflexivity).
  split; [|split].
  - exact (proj1 (@returned_runs_are_final demo_env demo_id demo_path demo_url
                    (js "Algebra") (start a_lecture) (snd demo_file_run)
                    (or_introl H1))).
  - exact (proj1 (@returned_runs_are_final demo_youtube_env demo_id demo_path demo_url
                    (js "Algebra") (start a_youtube_lecture) (snd demo_youtube_run)
                    (or_intror H2))).
  - exact (proj1 (@returned_runs_are_final (with_store broken_audio_env (down_at 5))
                    demo_id demo_path demo_url
                    (js "Algebra") (start a_youtube_lecture)
                    (snd unrecorded_youtube_run)
                    (or_intror H3))).
Defined.

(* ================================================================= *)
(** ** A server without an API key *)

Section Keyless.

Variable env : Env.
Hypothesis keyless : no_api_key env = true.
Hypothesis reliable : store_reliable env.



End Keyless.


(* ================================================================= *)
(** ** When the failure cannot be recorded *)

Lemma record_failure_cases (env : Env) (id : jsstring) (e : exn) (w1 : World) :
  record_failure env id e w1
  = match store_update env (length (trace w1)) id (failure_patch (message e)) with
    | Returned _ => (Returned tt, persist id (failure_patch (message e)) w1)
    | Thrown e2 => (Thrown e2, reject id (failure_patch (message e)) w1)
    end.
Proof.
  unfold record_failure, findByIdAndUpdate, persist, reject.
  now destruct (store_update env (length (trace w1)) id (failure_patch (message e))).
Qed.

Lemma update_accepted (env : Env) (id : jsstring) (p : Patch) (w : World) :
  store_update env (length (trace w)) id p = Returned tt ->
  findByIdAndUpdate env id p w = (Returned tt, persist id p w).
Proof. intros H. unfold findByIdAndUpdate, persist. now rewrite H. Qed.

Lemma download_succeeds (env : Env) (url id : jsstring) (w : World) :
  yt_dlp env (length (trace w)) url (youtube_video_path id) = Closed (Some 0%Z) ->
  downloadYouTubeVideo env url id w
  = (Returned (youtube_video_path id), record_event (EvDownload url id) w).
Proof.
  intros H. unfold downloadYouTubeVideo, bind. rewrite tool_run, H. reflexivity.
Qed.

(** X13. A run raises only when the store rejects the record of a failure: some
    step had failed with [e], the write of [e]'s message and of the stage
    [failed] was rejected with [e2], and it is [e2] that the run raises,
    leaving the document in the stage it was in, with no error recorded. In
    a YouTube run the outer handler then gets its turn: when the file run
    inside it raises [e2] in this way, the outer handler tries to record
    [e2], so that, if this second write is accepted, the error stored is the
    complaint of the store and not the error of the step that failed. *)
Theorem runs_raise_only_store_errors :
  forall (env : Env) (id vp url title0 : jsstring) (w : World) (e2 : exn) (w' : World),
    (processLecture env id vp title0 w = (Thrown e2, w') ->
     exists (e : exn) (w1 : World),
       processLecture_try env id vp w = (Thrown e, w1) /\
       store_update env (length (trace w1)) id (failure_patch (message e)) = Thrown e2 /\
       w' = reject id (failure_patch (message e)) w1 /\
       db w' = db w1)
    /\
    (processYouTubeLecture env id url title0 w = (Thrown e2, w') ->
     exists (e : exn) (w1 : World),
       processYouTubeLecture_try env id url title0 w = (Thrown e, w1) /\
       store_update env (length (trace w1)) id (failure_patch (message e)) = Thrown e2 /\
       w' = reject id (failure_patch (message e)) w1 /\
       db w' = db w1)
    /\
    (store_update env (length (trace w)) id (stage_patch downloading) = Returned tt ->
     yt_dlp env (S (length (trace w))) url (youtube_video_path id) = Closed (Some 0%Z) ->
     store_update env (S (S (length (trace w)))) id
                  (videoPath_patch (youtube_video_path id)) = Returned tt ->
     processLecture env id (youtube_video_path id) title0 (downloaded id url w)
     = (Thrown e2, w') ->
     processYouTubeLecture env id url title0 w = record_failure env id e2 w' /\
     (store_update env (length (trace w')) id (failure_patch (message e2)) = Returned tt ->
      processingError (db (snd (processYouTubeLecture env id url title0 w)))
      = Some (message e2))).
Proof.
  intros env id vp url title0 w e2 w'. split; [|split].
  - unfold processLecture, try_catch.
    destruct (processLecture_try env id vp w) as [[[]|e] w1]; [discriminate|].
    rewrite record_failure_cases.
    destruct (store_update env (length (trace w1)) id (failure_patch (message e)))
      as [[]|e3] eqn:Hs; [discriminate|].
    intros H. injection H as <- <-. exists e, w1. now repeat split.
  - unfold processYouTubeLecture, try_catch.
    destruct (processYouTubeLecture_try env id url title0 w) as [[[]|e] w1];
      [discriminate|].
    rewrite record_failure_cases.
    destruct (store_update env (length (trace w1)) id (failure_patch (message e)))
      as [[]|e3] eqn:Hs; [discriminate|].
    intros H. injection H as <- <-. exists e, w1. now repeat split.
  - intros H1 H2 H3 Hrun.
    assert (E : processYouTubeLecture env id url title0 w = record_failure env id e2 w').
    { unfold processYouTubeLecture, try_catch, processYouTubeLecture_try, bind.
      rewrite (@update_accepted env id (stage_patch downloading) w H1).
      rewrite (@download_succeeds env url id
                 (persist id (stage_patch downloading) w) H2).
      rewrite (@update_accepted env id (videoPath_patch (youtube_video_path id))
                 (record_event (EvDownload url id)
                    (persist id (stage_patch downloading) w)) H3).
      fold (downloaded id url w). now rewrite Hrun. }
    split; [exact E|]. intros H4.
    rewrite E, record_failure_cases, H4. reflexivity.
Qed.

Lemma runs_raise_only_store_errors_witness :
  (exists (e : exn) (w1 : World),
      processLecture_try (with_store broken_audio_env (down_at 2)) demo_id demo_path
                         (start a_lecture) = (Thrown e, w1) /\
      store_update (with_store broken_audio_env (down_at 2)) (length (trace w1))
                   demo_id (failure_patch (message e)) = Thrown store_error /\
      snd unrecorded_file_run = reject demo_id (failure_patch (message e)) w1 /\
      db (snd unrecorded_file_run) = db w1)
  /\
  processingError (db (snd unrecorded_youtube_run)) = Some (js "connection lost").
Proof.
  split.
  - apply (proj1 (@runs_raise_only_store_errors
                    (with_store broken_audio_env (down_at 2)) demo_id demo_path
                    demo_url (js "Algebra") (start a_lecture) store_error
                    (snd unrecorded_file_run))).
    vm_compute. reflexivity.
  - refine (proj2 (proj2 (proj2 (@runs_raise_only_store_errors
                    (with_store broken_audio_env (down_at 5)) demo_id demo_path
                    demo_url (js "Algebra") (start a_youtube_lecture) store_error
                    (snd (processLecture (with_store broken_audio_env (down_at 5))
                            demo_id (youtube_video_path demo_id) (js "Algebra")
                            (downloaded demo_id demo_url (start a_youtube_lecture))))))
                   _ _ _ _) _).
    + reflexivity.
    + reflexivity.
    + reflexivity.
    + vm_compute. reflexivity.
    + reflexivity.
Defined.

(* ================================================================= *)
(** ** Quiz generation when a request fails *)

Section QuizRequests.

Variable env : Env.



End QuizRequests.


(* ================================================================= *)
(** ** An answer index out of range *)

Lemma item_at_beyond (items : list json) (n : N) (pos : nat) :
  (N.of_nat (length items) <= n)%N -> item_at items n pos = Nothing.
Proof.
  revert n pos. induction items as [|x r IH]; intros n pos H; [reflexivity|].
  cbn [item_at]. cbn [length] in H.
  destruct (N.eqb_spec n 0) as [E|_]; [lia|].
  apply IH. lia.
Qed.

Lemma array_indexOf_nothing (items : list (nat * json)) (i : Z) :
  array_indexOf_from Nothing items i = (-1)%Z.
Proof.
  revert i. induction items as [|x r IH]; intros i; [reflexivity|].
  cbn [array_indexOf_from strict_equals]. apply IH.
Qed.

Lemma integer_key_out_of_range (items : list json) (z : Z) :
  (z < 0 \/ Z.of_nat (length items) <= z)%Z ->
  array_get items (key_of_number (inject_Z z)) = Nothing.
Proof.
  intros Hz. unfold key_of_number.
  rewrite Qcanon.Qred_identity by (cbn [inject_Z Qnum Qden]; apply Z.gcd_1_r).
  cbn [inject_Z Qnum Qden Pos.eqb andb].
  destruct (Z.leb_spec 0 z) as [Hpos|_]; [|reflexivity].
  cbn [andb].
  destruct (N.ltb (Z.to_N z) max_array_index); [|reflexivity].
  cbn [array_get]. apply item_at_beyond. lia.
Qed.

(** X15. The shuffle does not check that [correctAnswer] is an index of
    [options]: when it is an integer below zero or not below the number of
    options (whatever the options are, none included), the options are
    shuffled all the same and [correctAnswer] is set to -1. *)
Theorem stray_answer_becomes_minus_one :
  forall (env : Env) (fields : list (jsstring * json)) (items : list json)
         (z : Z) (w : World),
    get_field options_key fields = Some (JArr items) ->
    get_field correctAnswer_key fields = Some (JNum (inject_Z z)) ->
    (z < 0 \/ Z.of_nat (length items) <= z)%Z ->
    exists (fields' : list (jsstring * json)) (items' : list json) (w' : World),
      shuffle_quiz env (JObj fields) w = (Returned (JObj fields'), w') /\
      get_field correctAnswer_key fields' = Some (JNum (inject_Z (-1))) /\
      get_field options_key fields' = Some (JArr items') /\
      Permutation items items' /\
      (forall name, name <> options_key -> name <> correctAnswer_key ->
                    get_field name fields' = get_field name fields).
Proof.
  intros env fields items z w Ho Hc Hz.
  set (sorted := rearrange (sort_order env (sorts w)) (tag items)).
  exists (set_field correctAnswer_key (JNum (inject_Z (-1)))
            (set_field options_key (JArr (map snd sorted)) fields)),
    (map snd sorted),
    (mk_World (db w) (trace w) (S (sorts w)) (history w)).
  assert (Hne : options_key <> correctAnswer_key) by discriminate.
  split; [|split; [|split; [|split]]].
  - unfold shuffle_quiz. rewrite Ho, Hc. cbn [truthy].
    unfold to_property_key. cbn [to_string_throws key_of].
    rewrite (integer_key_out_of_range items Hz).
    unfold bind, sort_randomly, ret. fold sorted.
    unfold array_indexOf. now rewrite array_indexOf_nothing.
  - apply ShuffleFacts.get_set_same.
  - rewrite ShuffleFacts.get_set_other by exact Hne.
    apply ShuffleFacts.get_set_same.
  - replace items with (map snd (tag items)) at 1
      by apply ShuffleFacts.map_snd_tagged.
    apply Permutation_map, ShuffleFacts.rearrange_perm.
  - intros name H1 H2. now rewrite !ShuffleFacts.get_set_other by assumption.
Qed.

Lemma stray_answer_becomes_minus_one_witness :
  exists (fields' : list (jsstring * json)) (items' : list json) (w' : World),
    shuffle_quiz demo_env (JObj stray_fields) (start a_lecture)
    = (Returned (JObj fields'), w') /\
    get_field correctAnswer_key fields' = Some (JNum (inject_Z (-1))) /\
    get_field options_key fields' = Some (JArr items') /\
    Permutation [JStr (js "a"); JStr (js "b"); JStr (js "c")] items' /\
    (forall name, name <> options_key -> name <> correctAnswer_key ->
                  get_field name fields' = get_field name stray_fields).
Proof.
  apply (@stray_answer_becomes_minus_one demo_env stray_fields
           [JStr (js "a"); JStr (js "b"); JStr (js "c")] 3 (start a_lecture)).
  - vm_compute. reflexivity.
  - vm_compute. reflexivity.
  - right. vm_compute. discriminate.
Defined.

(* ================================================================= *)
(** ** The paths of the audio file *)

Module PathFacts.

Lemma starts_with_app (t rest : jsstring) : Str.starts_with t (t ++ rest) = true.
Proof.
  induction t as [|c t IH]; [now destruct rest|].
  cbn [app Str.starts_with]. now rewrite N.eqb_refl, IH.
Qed.

Lemma skipn_app_exact {A : Type} (l r : list A) : skipn (length l) (l ++ r) = r.
Proof. induction l as [|x l IH]; [reflexivity | exact IH]. Qed.

Lemma replace_first_here (pattern replacement rest : jsstring) :
  Str.replace_first (pattern ++ rest) pattern replacement = replacement ++ rest.
Proof.
  destruct (pattern ++ rest) as [|c r] eqn:E.
  - destruct pattern; [|discriminate E]. cbn in E. subst rest. reflexivity.
  - rewrite <- E. cbn [Str.replace_first].
    assert (H : Str.replace_first (pattern ++ rest) pattern replacement
                = if Str.starts_with pattern (pattern ++ rest)
                  then replacement ++ skipn (length pattern) (pattern ++ rest)
                  else pattern ++ rest).
    { rewrite starts_with_app. rewrite E. cbn [Str.replace_first].
      rewrite <- E. now rewrite starts_with_app. }
    now rewrite H, starts_with_app, skipn_app_exact.
Qed.

Lemma replace_first_later (stem tail pattern replacement : jsstring) :
  (forall i, i < length stem ->
             Str.starts_with pattern (skipn i (stem ++ tail)) = false) ->
  Str.replace_first (stem ++ tail) pattern replacement
  = stem ++ Str.replace_first tail pattern replacement.
Proof.
  induction stem as [|c s IH]; intros H; [reflexivity|].
  cbn [app Str.replace_first].
  pose proof (H 0 ltac:(cbn [length]; lia)) as H0. cbn [skipn app] in H0.
  rewrite H0. f_equal. apply IH.
  intros i Hi. apply (H (S i)). cbn [length]. lia.
Qed.

Lemma occurs_before_false (n : nat) (s pattern : jsstring) :
  occurs_before n s pattern = false ->
  forall i, i < n -> Str.starts_with pattern (skipn i s) = false.
Proof.
  unfold occurs_before. intros H i Hi.
  destruct (Str.starts_with pattern (skipn i s)) eqn:E; [|reflexivity].
  assert (F : existsb (fun i => Str.starts_with pattern (skipn i s)) (seq 0 n) = true).
  { apply existsb_exists. exists i. split; [apply in_seq; lia | exact E]. }
  congruence.
Qed.

Lemma starts_with_head (c d : N) (p s : jsstring) :
  c <> d -> Str.starts_with (c :: p) (d :: s) = false.
Proof.
  intros H. cbn [Str.starts_with].
  destruct (N.eqb_spec c d); [contradiction | reflexivity].
Qed.

Lemma replace_first_after (stem tail p replacement : jsstring) (c : N) :
  ~ In c stem ->
  Str.replace_first (stem ++ tail) (c :: p) replacement
  = stem ++ Str.replace_first tail (c :: p) replacement.
Proof.
  induction stem as [|d s IH]; intros H; [reflexivity|].
  cbn [app Str.replace_first].
  rewrite starts_with_head by (intros ->; apply H; now left).
  f_equal. apply IH. intros Hin. apply H. now right.
Qed.

End PathFacts.

(** X16. The audio path is the video path with the first occurrence of its
    extension replaced by ".wav", wherever that occurrence is. If the
    extension stands at [stem] and nowhere before, the audio path is [stem],
    ".wav" and whatever followed the extension: only when the extension
    does not occur earlier in the path is this the video path with its
    extension changed. For a video path without an extension the audio path
    is ".wav" followed by the whole video path. *)
Theorem audio_path_replaces_first_occurrence :
  forall (env : Env) (vp stem rest : jsstring),
    vp = stem ++ path_extname env vp ++ rest ->
    occurs_before (length stem) vp (path_extname env vp) = false ->
    audio_path env vp = stem ++ js ".wav" ++ rest /\
    (path_extname env vp = [] -> audio_path env vp = js ".wav" ++ vp).
Proof.
  intros env vp stem rest Hvp Hocc. unfold audio_path. split.
  - rewrite Hvp at 1.
    rewrite PathFacts.replace_first_later.
    + now rewrite PathFacts.replace_first_here.
    + rewrite <- Hvp. now apply PathFacts.occurs_before_false.
  - intros ->. now destruct vp.
Qed.

Lemma audio_path_replaces_first_occurrence_witness :
  audio_path demo_env (js "uploads/7-talk.mp4.old.mp4")
  = js "uploads/7-talk" ++ js ".wav" ++ js ".old.mp4"
  /\
  audio_path demo_env (js "uploads/7-talk") = js ".wav" ++ js "uploads/7-talk".
Proof.
  split.
  - apply (@audio_path_replaces_first_occurrence demo_env
             (js "uploads/7-talk.mp4.old.mp4") (js "uploads/7-talk") (js ".old.mp4")).
    + vm_compute. reflexivity.
    + vm_compute. reflexivity.
  - apply (proj2 (@audio_path_replaces_first_occurrence demo_env
                    (js "uploads/7-talk") [] (js "uploads/7-talk") eq_refl eq_refl)).
    vm_compute. reflexivity.
Defined.

(** X17. The file a YouTube video is downloaded to is named after the lecture
    alone, so two lectures never share it, nor their frames folder. When the
    extension of that file is ".mp4" and the identifier holds no dot (the
    identifiers of the store are hexadecimal), the audio extracted from it
    goes to "uploads/<id>-youtube.wav". *)
Theorem youtube_files_are_per_lecture :
  forall (env : Env) (id : jsstring),
    (forall id', youtube_video_path id = youtube_video_path id' -> id = id') /\
    (forall id', frames_dir id = frames_dir id' -> id = id') /\
    (path_extname env (youtube_video_path id) = js ".mp4" ->
     ~ In 46%N id ->
     audio_path env (youtube_video_path id)
     = js "uploads/" ++ id ++ js "-youtube.wav").
Proof.
  intros env id. split; [|split].
  - intros id' H. unfold youtube_video_path in H.
    apply app_inv_head in H. now apply app_inv_tail in H.
  - intros id' H. unfold frames_dir in H. now apply app_inv_head in H.
  - intros Hext Hid. unfold audio_path. rewrite Hext.
    unfold youtube_video_path.
    change (js "-youtube.mp4") with (js "-youtube" ++ js ".mp4").
    change (js ".mp4") with (46%N :: js "mp4").
    rewrite (@PathFacts.replace_first_after (js "uploads/")).
    2:{ vm_compute. intros H. repeat (destruct H as [H|H]; [discriminate H|]).
        exact H. }
    rewrite (@PathFacts.replace_first_after id) by exact Hid.
    rewrite (@PathFacts.replace_first_after (js "-youtube")).
    2:{ vm_compute. intros H. repeat (destruct H as [H|H]; [discriminate H|]).
        exact H. }
    change (46%N :: js "mp4") with (js ".mp4" ++ []).
    rewrite PathFacts.replace_first_here. rewrite app_nil_r.
    reflexivity.
Qed.

Lemma youtube_files_are_per_lecture_witness :
  audio_path demo_env (youtube_video_path (js "65f1c0ffee"))
  = js "uploads/" ++ js "65f1c0ffee" ++ js "-youtube.wav".
Proof.
  apply (proj2 (proj2 (@youtube_files_are_per_lecture demo_env (js "65f1c0ffee")))).
  - vm_compute. reflexivity.
  - vm_compute. intros H. repeat (destruct H as [H|H]; [discriminate H|]). exact H.
Defined.

(* ================================================================= *)
(** ** The transcript handed on by [transcribeWithWhisper] *)

Module TrimFacts.

Lemma trim_start_split (s : jsstring) :
  exists pre,
    s = pre ++ Str.trim_start s /\
    forallb Str.is_space pre = true /\
    (forall c, hd_error (Str.trim_start s) = Some c -> Str.is_space c = false).
Proof.
  induction s as [|c r (pre & E & Hpre & Hhd)].
  - exists []. repeat split. intros c H. discriminate H.
  - cbn [Str.trim_start]. destruct (Str.is_space c) eqn:Hc.
    + exists (c :: pre). split; [cbn [app]; now rewrite <- E|].
      split; [cbn [forallb]; now rewrite Hc, Hpre | exact Hhd].
    + exists []. repeat split. intros d H. injection H as <-. exact Hc.
Qed.

Lemma forallb_rev {A : Type} (f : A -> bool) (l : list A) :
  forallb f l = true -> forallb f (rev l) = true.
Proof.
  rewrite !forallb_forall. intros H x Hx. apply H. now apply in_rev.
Qed.

Lemma trim_split (s : jsstring) :
  exists pre post,
    s = pre ++ Str.trim s ++ post /\
    forallb Str.is_space pre = true /\
    forallb Str.is_space post = true /\
    (forall c, hd_error (Str.trim s) = Some c -> Str.is_space c = false) /\
    (forall c, hd_error (rev (Str.trim s)) = Some c -> Str.is_space c = false).
Proof.
  unfold Str.trim.
  destruct (trim_start_split s) as (pre & E & Hpre & Hhd).
  destruct (trim_start_split (rev (Str.trim_start s))) as (tsop & E' & Hpost & Hlast).
  set (u := Str.trim_start s) in *.
  set (v := Str.trim_start (rev u)) in *.
  assert (Eu : u = rev v ++ rev tsop).
  { rewrite <- (rev_involutive u), E'. apply rev_app_distr. }
  exists pre, (rev tsop). split; [now rewrite <- Eu|].
  split; [exact Hpre|]. split; [now apply forallb_rev|]. split.
  - intros c Hc. apply Hhd. rewrite Eu.
    destruct (rev v); [discriminate Hc | exact Hc].
  - rewrite rev_involutive. exact Hlast.
Qed.

End TrimFacts.

(** X18. When the transcription succeeds, the tool had exited with code 0 and
    left an output file, and the transcript handed on is the contents of
    that file without the white space around it: nothing but white space is
    dropped at either end, and what is left neither begins nor ends with
    white space. A file of white space alone gives the empty transcript,
    which is handed on like any other. *)
Theorem transcript_is_the_trimmed_output :
  forall (env : Env) (audio : jsstring) (w : World) (t : jsstring) (w' : World),
    transcribeWithWhisper env audio w = (Returned t, w') ->
    exists (errorOutput out pre post : jsstring),
      whisper env (length (trace w)) audio
      = WhisperClosed (Some 0%Z) errorOutput (Some out) /\
      out = pre ++ t ++ post /\
      forallb Str.is_space pre = true /\
      forallb Str.is_space post = true /\
      (forall c, hd_error t = Some c -> Str.is_space c = false) /\
      (forall c, hd_error (rev t) = Some c -> Str.is_space c = false) /\
      (forallb Str.is_space out = true -> t = []).
Proof.
  intros env audio w t w' H. unfold transcribeWithWhisper, bind in H.
  rewrite tool_run in H.
  destruct (whisper env (length (trace w)) audio)
    as [code errorOutput output|reason]; [|discriminate H].
  destruct code as [[| |]|]; try discriminate H.
  destruct output as [out|]; [|discriminate H].
  injection H as <- _.
  destruct (TrimFacts.trim_split out) as (pre & post & E & Hpre & Hpost & Hhd & Hlast).
  exists errorOutput, out, pre, post.
  split; [reflexivity|]. split; [exact E|]. split; [exact Hpre|].
  split; [exact Hpost|]. split; [exact Hhd|]. split; [exact Hlast|].
  intros Hall. destruct (Str.trim out) as [|c r] eqn:Et; [reflexivity|].
  assert (Hc : Str.is_space c = true).
  { rewrite forallb_forall in Hall. apply Hall. rewrite E.
    apply in_or_app. right. now left. }
  rewrite (Hhd c eq_refl) in Hc. discriminate Hc.
Qed.

Lemma transcript_is_the_trimmed_output_witness :
  exists (errorOutput out pre post : jsstring),
    whisper demo_env 0 (js "uploads/1-algebra.wav")
    = WhisperClosed (Some 0%Z) errorOutput (Some out) /\
    out = pre ++ js "Hello world." ++ post /\
    forallb Str.is_space pre = true /\
    forallb Str.is_space post = true /\
    (forall c, hd_error (js "Hello world.") = Some c -> Str.is_space c = false) /\
    (forall c, hd_error (rev (js "Hello world.")) = Some c -> Str.is_space c = false) /\
    (forallb Str.is_space out = true -> js "Hello world." = []).
Proof.
  apply (@transcript_is_the_trimmed_output demo_env (js "uploads/1-algebra.wav")
           (start a_lecture) (js "Hello world.")
           (record_event (EvTranscribe (js "uploads/1-algebra.wav")) (start a_lecture))).
  vm_compute. reflexivity.
Defined.

(* ================================================================= *)
(** ** The names of uploaded files *)

Module NameFacts.

Lemma js_inj (s t : string) : js s = js t -> s = t.
Proof.
  unfold js. intros H.
  assert (E : list_ascii_of_string s = list_ascii_of_string t).
  { revert H. generalize (list_ascii_of_string s) (list_ascii_of_string t).
    induction l as [|a l IH]; intros [|b l'] H; try discriminate H; [reflexivity|].
    cbn [map] in H. injection H as Hab Hl.
    f_equal; [|now apply IH].
    rewrite <- (ascii_N_embedding a), <- (ascii_N_embedding b). now rewrite Hab. }
  rewrite <- (string_of_list_ascii_of_string s), <- (string_of_list_ascii_of_string t).
  now rewrite E.
Qed.

Lemma to_uint_nonnil (n : N) : N.to_uint n <> Decimal.Nil.
Proof.
  destruct n as [|p]; [discriminate|].
  apply DecimalPos.Unsigned.to_uint_nonnil.
Qed.

Lemma show_nat_inj (a b : N) : show_nat a = show_nat b -> a = b.
Proof.
  unfold show_nat. intros H. apply js_inj in H.
  apply DecimalN.Unsigned.to_uint_inj.
  assert (E : Some (N.to_uint a) = Some (N.to_uint b)).
  { rewrite <- (NilZero.usu (N.to_uint a) (to_uint_nonnil a)),
      <- (NilZero.usu (N.to_uint b) (to_uint_nonnil b)).
    now rewrite H. }
  now injection E.
Qed.

Lemma digits_of_uint (d : Decimal.uint) :
  Forall (fun c => is_digit c = true) (js (NilEmpty.string_of_uint d)).
Proof.
  unfold js.
  induction d; cbn [NilEmpty.string_of_uint list_ascii_of_string map];
    constructor; solve [reflexivity | assumption].
Qed.

Lemma digits_of_show_nat (n : N) :
  Forall (fun c => is_digit c = true) (show_nat n) /\ show_nat n <> [].
Proof.
  unfold show_nat, NilZero.string_of_uint.
  destruct (N.to_uint n) eqn:E;
    try (split; [rewrite <- E at 1 | ]);
    try (split; [repeat constructor | discriminate]);
    try (rewrite E; apply digits_of_uint);
    try (unfold js; cbn [NilEmpty.string_of_uint list_ascii_of_string map];
         discriminate).
Qed.

Lemma split_at_first {A : Type} (c : A) (p1 p2 a b : list A) :
  ~ In c p1 -> ~ In c p2 ->
  p1 ++ c :: a = p2 ++ c :: b -> p1 = p2 /\ a = b.
Proof.
  revert p2. induction p1 as [|x p1 IH]; intros [|y p2] H1 H2 E; cbn [app] in E.
  - injection E as <-. now split.
  - injection E as -> _. exfalso. apply H2. now left.
  - injection E as -> _. exfalso. apply H1. now left.
  - injection E as -> E.
    destruct (IH p2) as (-> & ->); try assumption.
    + intros F. apply H1. now right.
    + intros F. apply H2. now right.
    + now split.
Qed.

Lemma no_hyphen (n : N) : ~ In 45%N (show_nat n).
Proof.
  intros H. destruct (digits_of_show_nat n) as (Hd & _).
  rewrite Forall_forall in Hd. specialize (Hd _ H). discriminate Hd.
Qed.

End NameFacts.

(** X19. An uploaded file is stored under the time of the upload in
    milliseconds, written in decimal, a hyphen, and the name the client
    gave: the name given stays readable at the end, and two uploads get the
    same stored name only if they come in the same millisecond under the
    same name. *)
Theorem stored_names_differ :
  forall (t1 t2 : N) (name1 name2 : jsstring),
    t1 <> t2 \/ name1 <> name2 ->
    upload_filename t1 name1 <> upload_filename t2 name2 /\
    exists digits,
      upload_filename t1 name1 = digits ++ js "-" ++ name1 /\
      digits <> [] /\
      Forall (fun c => is_digit c = true) digits.
Proof.
  intros t1 t2 name1 name2 Hdiff. split.
  - intros E. unfold upload_filename in E.
    change (js "-") with [45%N] in E. cbn [app] in E.
    apply NameFacts.split_at_first in E; try apply NameFacts.no_hyphen.
    destruct E as (E1 & E2). apply NameFacts.show_nat_inj in E1.
    destruct Hdiff as [H|H]; now apply H.
  - exists (show_nat t1). split; [reflexivity|].
    destruct (NameFacts.digits_of_show_nat t1) as (Hd & Hne). now split.
Qed.

Lemma stored_names_differ_witness :
  upload_filename 1700000000000 (js "talk.mp4")
  <> upload_filename 1700000000001 (js "talk.mp4").
Proof.
  assert (Hd : 1700000000000%N <> 1700000000001%N) by discriminate.
  exact (proj1 (@stored_names_differ 1700000000000 1700000000001
                  (js "talk.mp4") (js "talk.mp4") (or_introl Hd))).
Defined.

(* ================================================================= *)
(** ** The order of the stage markers *)

Section StageOrder.

Variable env : Env.
Variable w0 : World.

Lemma no_update_no_stage (evs : list event) :
  length (filter (of_kind KUpdate) evs) <= 0 -> persisted_stages (rev evs) = [].
Proof.
  induction evs as [|ev r IH]; intros H; [reflexivity|].
  cbn [filter] in H. unfold of_kind at 1 in H.
  cbn [rev]. unfold persisted_stages in *. rewrite flat_map_app.
  destruct ev; cbn [kind_of kind_eqb length] in H; try lia;
    rewrite (IH H); reflexivity.
Qed.

Lemma stages_since_more (l l2 : list jsstring) (w1 w2 : World) (evs2 : list event) :
  stages_since w0 l w1 ->
  trace w2 = evs2 ++ trace w1 ->
  persisted_stages (rev evs2) = l2 ->
  stages_since w0 (l ++ l2) w2.
Proof.
  intros (evs & E & Hl) E2 Hl2. exists (evs2 ++ evs). split.
  - now rewrite E2, E, app_assoc.
  - rewrite rev_app_distr. unfold persisted_stages in *.
    now rewrite flat_map_app, Hl, Hl2.
Qed.

Lemma ends_no_stage {A : Type} (l : list jsstring) (m : M A) :
  adds_at_most KUpdate 0 m ->
  ends (stages_since w0 l) m (stages_since w0 l) (stages_since w0 l).
Proof.
  intros Hm w r w' Hw Hrun.
  destruct (Hm w r w' Hrun) as (evs & E & Hlen).
  pose proof (@stages_since_more l [] w w' evs Hw E
                (@no_update_no_stage evs Hlen)) as H.
  rewrite app_nil_r in H. destruct r; exact H.
Qed.

Lemma ends_stage_update (l : list jsstring) (id : jsstring) (p : Patch) :
  ends (stages_since w0 l) (findByIdAndUpdate env id p)
       (stages_since w0 (l ++ match p_processingStage p with
                              | Some s => [s]
                              | None => []
                              end))
       (stages_since w0 l).
Proof.
  apply ends_update; intros w Hw.
  - apply (@stages_since_more l _ w (persist id p w) [EvUpdate id p true] Hw eq_refl).
    unfold persisted_stages. cbn [rev app flat_map stage_written].
    apply app_nil_r.
  - pose proof (@stages_since_more l [] w (reject id p w) [EvUpdate id p false]
                  Hw eq_refl eq_refl) as H.
    now rewrite app_nil_r in H.
Qed.

(** The [try] block of a file run, after the stages [pre]. *)
Lemma processLecture_try_stages (pre : list jsstring) (id vp : jsstring) :
  ends (stages_since w0 pre) (processLecture_try env id vp)
       (stages_since w0 (pre ++ file_stages))
       (fun w => exists n, stages_since w0 (pre ++ firstn n file_stages) w).
Proof.
  unfold processLecture_try.
  set (Q := fun w => exists n, stages_since w0 (pre ++ firstn n file_stages) w).
  assert (Hq : forall n w, stages_since w0 (pre ++ firstn n file_stages) w -> Q w)
    by (intros n w H; now exists n).
  assert (Hstep : forall (n : nat) (A : Type) (m : M A),
             adds_at_most KUpdate 0 m ->
             ends (stages_since w0 (pre ++ firstn n file_stages)) m
                  (stages_since w0 (pre ++ firstn n file_stages)) Q).
  { intros n A m Hm.
    apply ends_weaken with (P := stages_since w0 (pre ++ firstn n file_stages))
                           (Qr := stages_since w0 (pre ++ firstn n file_stages))
                           (Qt := stages_since w0 (pre ++ firstn n file_stages));
      [now apply ends_no_stage | intros ? HH; exact HH | intros ? HH; exact HH
      | apply Hq]. }
  assert (Hupd : forall (n : nat) (id0 : jsstring) (p : Patch) (s : jsstring),
             p_processingStage p = Some s ->
             firstn (S n) file_stages = firstn n file_stages ++ [s] ->
             ends (stages_since w0 (pre ++ firstn n file_stages))
                  (findByIdAndUpdate env id0 p)
                  (stages_since w0 (pre ++ firstn (S n) file_stages)) Q).
  { intros n id0 p s Hp Hn.
    eapply ends_weaken; [apply ends_stage_update | | | ].
    - intros ? HH; exact HH.
    - intros w H. rewrite Hp, <- app_assoc, <- Hn in H. exact H.
    - apply Hq. }
  apply ends_bind with (R := stages_since w0 (pre ++ firstn 1 file_stages)).
  { eapply ends_weaken; [apply (Hupd 0 id _ extracting_audio); reflexivity | | | ].
    - intros w H. cbn [firstn]. now rewrite app_nil_r.
    - intros ? HH; exact HH.
    - intros ? HH; exact HH. }
  intros _. apply ends_bind with (R := stages_since w0 (pre ++ firstn 1 file_stages));
    [apply Hstep; apply (@adds_extractAudio env KUpdate) | intros audioPath].
  apply ends_bind with (R := stages_since w0 (pre ++ firstn 2 file_stages));
    [apply (Hupd 1 id _ transcribing); reflexivity | intros _].
  apply ends_bind with (R := stages_since w0 (pre ++ firstn 2 file_stages));
    [apply Hstep; apply (@adds_transcribe env KUpdate) | intros rawTranscript].
  apply ends_bind with (R := stages_since w0 (pre ++ firstn 2 file_stages));
    [apply Hstep; apply (@adds_formatTranscript env KUpdate) | intros transcript].
  apply ends_bind with (R := stages_since w0 (pre ++ firstn 2 file_stages));
    [apply Hstep; apply (@adds_render env KUpdate) | intros transcriptHtml0].
  apply ends_bind with (R := stages_since w0 (pre ++ firstn 3 file_stages));
    [apply (Hupd 2 id _ summarizing); reflexivity | intros _].
  apply ends_bind with (R := stages_since w0 (pre ++ firstn 3 file_stages));
    [apply Hstep; apply (@adds_generateSummary env KUpdate) | intros summary].
  apply ends_bind with (R := stages_since w0 (pre ++ firstn 3 file_stages));
    [apply Hstep; apply (@adds_render env KUpdate) | intros summaryHtml0].
  apply ends_bind with (R := stages_since w0 (pre ++ firstn 3 file_stages));
    [apply Hstep; apply (@adds_generateQuizzes env KUpdate) | intros quizzes0].
  apply ends_bind with (R := stages_since w0 (pre ++ firstn 3 file_stages));
    [apply Hstep; apply (@adds_extractFrames env KUpdate) | intros slides0].
  apply ends_bind with (R := stages_since w0 (pre ++ firstn 4 file_stages));
    [apply (Hupd 3 id _ complete); reflexivity | intros _].
  apply (Hstep 4). apply (@adds_remove env KUpdate).
Qed.

Lemma record_failure_stages (l : list jsstring) (id : jsstring) (e : exn) :
  ends (stages_since w0 l) (record_failure env id e)
       (stages_since w0 (l ++ [failed])) (stages_since w0 l).
Proof. unfold record_failure. apply (@ends_stage_update l id (failure_patch (message e))). Qed.

Lemma processLecture_stages (pre : list jsstring) (id vp title0 : jsstring) :
  ends (stages_since w0 pre) (processLecture env id vp title0)
       (fun w => exists n,
            stages_since w0 (pre ++ firstn n file_stages) w \/
            stages_since w0 (pre ++ firstn n file_stages ++ [failed]) w)
       (fun w => exists n, stages_since w0 (pre ++ firstn n file_stages) w).
Proof.
  unfold processLecture.
  apply ends_try_catch
    with (R := fun w => exists n, stages_since w0 (pre ++ firstn n file_stages) w).
  - eapply ends_weaken; [apply processLecture_try_stages | | | ].
    + intros ? HH; exact HH.
    + intros w H. exists 4. now left.
    + intros ? HH; exact HH.
  - intros e w r w' (n & Hn) Hrun.
    pose proof (@record_failure_stages (pre ++ firstn n file_stages) id e
                  w r w' Hn Hrun) as H.
    destruct r; exists n; [right; now rewrite <- app_assoc in H | exact H].
Qed.

End StageOrder.

(** X20. Whatever happens in a run, the stage markers it writes come in the
    order of the pipeline: a file run writes the first few of
    [extracting_audio], [transcribing], [summarizing], [complete], in this
    order and each at most once, and then possibly [failed], once and last;
    a YouTube run does the same after [downloading]. No stage is skipped,
    repeated or gone back to, and nothing is written after [failed]. *)
Theorem stage_markers_come_in_order :
  forall (env : Env) (id vp url title0 : jsstring) (w : World),
    (exists written,
        stages_since w written (snd (processLecture env id vp title0 w)) /\
        orderly file_stages written)
    /\
    (exists written,
        stages_since w written (snd (processYouTubeLecture env id url title0 w)) /\
        orderly youtube_stages written).
Proof.
  intros env id vp url title0 w.
  assert (H0 : stages_since w [] w) by (exists []; now split).
  split.
  - pose proof (@processLecture_stages env w [] id vp title0 w) as H.
    destruct (processLecture env id vp title0 w) as [r w'].
    specialize (H r w' H0 eq_refl). cbn [snd app] in *.
    destruct r.
    + destruct H as (n & [H|H]); eexists; (split; [exact H|]); exists n;
        [now left | now right].
    + destruct H as (n & H). eexists; split; [exact H|]. exists n. now left.
  - assert (He : ends (stages_since w [])
                      (processYouTubeLecture env id url title0)
                      (fun w' => exists written,
                           stages_since w written w' /\ orderly youtube_stages written)
                      (fun w' => exists written,
                           stages_since w written w' /\ orderly youtube_stages written)).
    { unfold processYouTubeLecture, processYouTubeLecture_try.
      apply ends_try_catch
        with (R := fun w' => exists n, stages_since w (firstn n youtube_stages) w').
      - apply ends_bind with (R := stages_since w [downloading]).
        { eapply ends_weaken; [apply ends_stage_update | | | ].
          - intros ? HH; exact HH.
          - intros ? HH; exact HH.
          - intros w1 H. now exists 0. }
        intros _. apply ends_bind with (R := stages_since w [downloading]).
        { eapply ends_weaken;
            [apply ends_no_stage; apply (@adds_download env KUpdate) | | | ].
          - intros ? HH; exact HH.
          - intros ? HH; exact HH.
          - intros w1 H. now exists 1. }
        intros videoPath0. apply ends_bind with (R := stages_since w [downloading]).
        { eapply ends_weaken; [apply ends_stage_update | | | ].
          - intros ? HH; exact HH.
          - intros w1 H. cbn [videoPath_patch p_processingStage] in H.
            now rewrite app_nil_r in H.
          - intros w1 H. now exists 1. }
        intros _. eapply ends_weaken; [apply processLecture_stages | | | ].
        + intros ? HH; exact HH.
        + intros w1 (n & [H|H]).
          * exists ([downloading] ++ firstn n file_stages). split; [exact H|].
            exists (S n). now left.
          * exists ([downloading] ++ firstn n file_stages ++ [failed]).
            split; [exact H|]. exists (S n). now right.
        + intros w1 (n & H). now exists (S n).
      - intros e w1 r w2 (n & Hn) Hrun.
        pose proof (@record_failure_stages env w (firstn n youtube_stages) id e
                      w1 r w2 Hn Hrun) as H.
        destruct r; eexists; (split; [exact H|]); exists n; [now right | now left]. }
    destruct (processYouTubeLecture env id url title0 w) as [r w'] eqn:E.
    specialize (He w r w' H0 E). cbn [snd]. now destruct r.
Qed.

(* ================================================================= *)
(** ** The upload routes *)

Section Keeping.

Variable env : Env.
Variable P : World -> Prop.
Hypothesis P_document : about_document P.
Hypothesis P_persist : forall id p w, p_videoPath p = None -> P w -> P (persist id p w).

Lemma keeps_quiet {A : Type} (m : M A) : quiet m -> ends P m P P.
Proof. intros H. now apply ends_quiet. Qed.

Lemma keeps_update (id : jsstring) (p : Patch) :
  p_videoPath p = None -> ends P (findByIdAndUpdate env id p) P P.
Proof.
  intros Hp. apply ends_update; intros w Hw.
  - now apply P_persist.
  - exact (@P_document w (reject id p w) eq_refl eq_refl Hw).
Qed.

Lemma keeps_processLecture (id vp title0 : jsstring) :
  ends P (processLecture env id vp title0) P P.
Proof.
  unfold processLecture. apply ends_try_catch with (R := P).
  - unfold processLecture_try.
    apply ends_bind with (R := P); [now apply keeps_update | intros _].
    apply ends_bind with (R := P);
      [apply keeps_quiet, quiet_extractAudio | intros audioPath].
    apply ends_bind with (R := P); [now apply keeps_update | intros _].
    apply ends_bind with (R := P);
      [apply keeps_quiet, quiet_transcribeWithWhisper | intros rawTranscript].
    apply ends_bind with (R := P);
      [apply keeps_quiet, quiet_callAI | intros transcript].
    apply ends_bind with (R := P);
      [apply keeps_quiet, quiet_tool | intros transcriptHtml0].
    apply ends_bind with (R := P); [now apply keeps_update | intros _].
    apply ends_bind with (R := P);
      [apply keeps_quiet, quiet_callAI | intros summary].
    apply ends_bind with (R := P);
      [apply keeps_quiet, quiet_tool | intros summaryHtml0].
    apply ends_bind with (R := P);
      [apply keeps_quiet, quiet_generateQuizzes | intros quizzes0].
    apply ends_bind with (R := P);
      [apply keeps_quiet, quiet_extractFrames | intros slides0].
    apply ends_bind with (R := P); [now apply keeps_update | intros _].
    apply keeps_quiet, quiet_tool.
  - intros e. unfold record_failure. now apply keeps_update.
Qed.

End Keeping.

Section UploadFacts.

Variable env : Env.
Variable save : Lecture -> outcome unit.
Variable new_id : jsstring.
Variable now : Z.

Lemma file_run_keeps (l0 : Lecture) (id vp title0 : jsstring) :
  ends (fun w => same_identity l0 (db w) /\ videoPath (db w) = videoPath l0)
       (processLecture env id vp title0)
       (fun w => same_identity l0 (db w) /\ videoPath (db w) = videoPath l0)
       (fun w => same_identity l0 (db w) /\ videoPath (db w) = videoPath l0).
Proof.
  apply keeps_processLecture.
  - intros w w' E _ H. now rewrite E.
  - intros id0 p w Hp ((H1 & H2 & H3 & H4 & H5) & H6).
    unfold same_identity. cbn [persist db apply_patch title source youtubeUrl
                                 uploadDate duration videoPath].
    rewrite Hp. cbn [or_keep]. now repeat split.
Qed.

(** X21. An upload that comes with a file and that the store takes in is
    answered "Processing started!" with the identifier of the new lecture,
    whatever becomes of the processing, which the handler starts and does
    not wait for: the file run on the new identifier, the path of the file
    and the title of the lecture, which is the title given or, when none or
    an empty one is given, the original name of the file. However that run
    ends, the lecture keeps the title, path, source and creation time it
    was created with; and when the run returns, the lecture is [complete]
    or [failed]. Without a file the handler raises before anything is
    stored or started, and so it does when the store rejects the new
    lecture. *)
Theorem accepted_uploads_are_processed :
  forall (title0 : option jsstring) (file : option uploaded_file),
    (file = None -> exists e, upload_route env save new_id now title0 file = Thrown e)
    /\
    (forall f t e,
        file = Some f ->
        upload_title title0 file = Returned t ->
        save (new_file_Lecture t (file_path f) now) = Thrown e ->
        upload_route env save new_id now title0 file = Thrown e)
    /\
    (forall f,
        file = Some f ->
        let t := match title0 with
                 | Some (c :: r) => c :: r
                 | _ => originalname f
                 end in
        let run := processLecture env new_id (file_path f) t
                     (start (new_file_Lecture t (file_path f) now)) in
        save (new_file_Lecture t (file_path f) now) = Returned tt ->
        upload_route env save new_id now title0 file
        = Returned (processing_started new_id, run) /\
        title (db (snd run)) = t /\
        videoPath (db (snd run)) = Some (file_path f) /\
        source (db (snd run)) = js "file" /\
        uploadDate (db (snd run)) = now /\
        (fst run = Returned tt -> terminal (db (snd run)))).
Proof.
  intros title0 file. split; [|split].
  - intros ->. unfold upload_route, upload_title.
    destruct title0 as [[|c r]|]; eexists; reflexivity.
  - intros f t e -> Ht Hs. unfold upload_route. rewrite Ht, Hs. reflexivity.
  - intros f -> t run Hs.
    assert (Ht : upload_title title0 (Some f) = Returned t)
      by (unfold upload_title, t; now destruct title0 as [[|c r]|]).
    set (l0 := new_file_Lecture t (file_path f) now) in *.
    pose proof (@processLecture_terminal env new_id (file_path f) t (start l0))
      as Hterm.
    pose proof (@file_run_keeps l0 new_id (file_path f) t (start l0)) as Hkeep.
    split.
    { unfold upload_route. rewrite Ht. cbv zeta. fold l0. now rewrite Hs. }
    assert (H0 : same_identity l0 (db (start l0)) /\
                 videoPath (db (start l0)) = videoPath l0)
      by (unfold same_identity; now repeat split).
    unfold run. clear run.
    destruct (processLecture env new_id (file_path f) t (start l0)) as [r w'] eqn:Hrun.
    specialize (Hkeep _ _ H0 eq_refl). specialize (Hterm _ _ I eq_refl).
    cbn [fst snd].
    assert (K : same_identity l0 (db w') /\ videoPath (db w') = videoPath l0)
      by (destruct r; exact Hkeep).
    destruct K as ((K1 & K2 & _ & K4 & _) & K6).
    repeat split; try assumption.
    intros ->. exact Hterm.
Qed.

End UploadFacts.

Lemma ends_bind_value {A B : Type} (P R Qr Qt : World -> Prop) (good : A -> Prop)
      (m : M A) (k : A -> M B) :
  ends P m R Qt ->
  (forall w a w', m w = (Returned a, w') -> good a) ->
  (forall a, good a -> ends R (k a) Qr Qt) ->
  ends P (bind m k) Qr Qt.
Proof.
  intros Hm Hgood Hk w r w' HP Hrun. unfold bind in Hrun.
  destruct (m w) as [[a|e] w1] eqn:E.
  - apply (Hk a (Hgood w a w1 E) w1 r w'); [|exact Hrun]. exact (Hm w _ w1 HP E).
  - injection Hrun as <- <-. exact (Hm w _ w1 HP E).
Qed.

Section YouTubeUploadFacts.

Variable env : Env.
Variable save : Lecture -> outcome unit.
Variable new_id : jsstring.
Variable now : Z.

Lemma youtube_run_keeps (l0 : Lecture) (id url title0 : jsstring) :
  ends (fun w => same_identity l0 (db w) /\ videoPath (db w) = None)
       (processYouTubeLecture env id url title0)
       (fun w => same_identity l0 (db w) /\
                 (videoPath (db w) = None \/
                  videoPath (db w) = Some (youtube_video_path id)))
       (fun w => same_identity l0 (db w) /\
                 (videoPath (db w) = None \/
                  videoPath (db w) = Some (youtube_video_path id))).
Proof.
  set (Q := fun w : World =>
              same_identity l0 (db w) /\
              (videoPath (db w) = None \/
               videoPath (db w) = Some (youtube_video_path id))).
  assert (Qdoc : about_document Q)
    by (intros w w' E _ H; unfold Q in *; now rewrite E).
  assert (Qpersist : forall id0 p w, p_videoPath p = None -> Q w -> Q (persist id0 p w)).
  { intros id0 p w Hp ((H1 & H2 & H3 & H4 & H5) & H6). unfold Q, same_identity.
    cbn [persist db apply_patch title source youtubeUrl uploadDate duration videoPath].
    rewrite Hp. cbn [or_keep]. now repeat split. }
  assert (Hstart : forall w, same_identity l0 (db w) /\ videoPath (db w) = None -> Q w)
    by (intros w (H1 & H2); split; [exact H1 | now left]).
  unfold processYouTubeLecture, processYouTubeLecture_try.
  apply ends_try_catch with (R := Q).
  - apply ends_bind with (R := Q).
    { eapply ends_weaken; [apply (@keeps_update env Q Qdoc Qpersist id
                                    (stage_patch downloading) eq_refl) | | | ].
      - exact Hstart.
      - intros ? HH; exact HH.
      - intros ? HH; exact HH. }
    intros _.
    apply ends_bind_value
      with (R := Q) (good := fun vp => vp = youtube_video_path id).
    + apply (keeps_quiet Qdoc), quiet_downloadYouTubeVideo.
    + intros w a w' H. apply download_world in H. now apply (proj2 H).
    + intros vp ->. apply ends_bind with (R := Q).
      * apply ends_update; intros w ((H1 & H2 & H3 & H4 & H5) & H6).
        -- split; [now repeat split | now right].
        -- split; [now repeat split | exact H6].
      * intros _. now apply keeps_processLecture.
  - intros e. unfold record_failure.
    exact (@keeps_update env Q Qdoc Qpersist id (failure_patch (message e)) eq_refl).
Qed.

(** X22. A YouTube upload (title and address both strings) that the store takes
    in is answered "Processing started!" with the identifier of the new
    lecture, whatever becomes of the processing, which the handler starts
    and does not wait for: the YouTube run on the new identifier, the
    address and the title. However that run ends, the lecture keeps the
    title, address, source and creation time it was created with, and its
    video path is either still unset or the download path of that lecture;
    and when the run returns, the lecture is [complete] or [failed]. When
    the store rejects the new lecture the handler raises and nothing is
    started. *)
Theorem accepted_links_are_processed :
  forall (title0 youtubeUrl0 : jsstring),
    (forall e,
        save (new_youtube_Lecture title0 youtubeUrl0 now) = Thrown e ->
        upload_youtube_route env save new_id now title0 youtubeUrl0 = Thrown e)
    /\
    (let run := processYouTubeLecture env new_id youtubeUrl0 title0
                  (start (new_youtube_Lecture title0 youtubeUrl0 now)) in
     save (new_youtube_Lecture title0 youtubeUrl0 now) = Returned tt ->
     upload_youtube_route env save new_id now title0 youtubeUrl0
     = Returned (processing_started new_id, run) /\
     title (db (snd run)) = title0 /\
     youtubeUrl (db (snd run)) = Some youtubeUrl0 /\
     source (db (snd run)) = js "youtube" /\
     uploadDate (db (snd run)) = now /\
     (videoPath (db (snd run)) = None \/
      videoPath (db (snd run)) = Some (youtube_video_path new_id)) /\
     (fst run = Returned tt -> terminal (db (snd run)))).
Proof.
  intros title0 youtubeUrl0. split.
  - intros e Hs. unfold upload_youtube_route. now rewrite Hs.
  - intros run Hs.
    set (l0 := new_youtube_Lecture title0 youtubeUrl0 now) in *.
    pose proof (@processYouTubeLecture_terminal env new_id youtubeUrl0 title0
                  (start l0)) as Hterm.
    pose proof (@youtube_run_keeps l0 new_id youtubeUrl0 title0 (start l0)) as Hkeep.
    split.
    { unfold upload_youtube_route. cbv zeta. fold l0. now rewrite Hs. }
    assert (H0 : same_identity l0 (db (start l0)) /\ videoPath (db (start l0)) = None)
      by (unfold same_identity; now repeat split).
    unfold run. clear run.
    destruct (processYouTubeLecture env new_id youtubeUrl0 title0 (start l0))
      as [r w'] eqn:Hrun.
    specialize (Hkeep _ _ H0 eq_refl). specialize (Hterm _ _ I eq_refl).
    cbn [fst snd].
    assert (K : same_identity l0 (db w') /\
                (videoPath (db w') = None \/
                 videoPath (db w') = Some (youtube_video_path new_id)))
      by (destruct r; exact Hkeep).
    destruct K as ((K1 & K2 & K3 & K4 & _) & K6).
    repeat split; try assumption.
    intros ->. exact Hterm.
Qed.

End YouTubeUploadFacts.

Lemma accepted_uploads_are_processed_witness :
  upload_route demo_env accepting demo_id 0 None (Some a_file)
  = Returned (processing_started demo_id,
              processLecture demo_env demo_id (js "uploads/1-algebra.mp4")
                (js "algebra.mp4")
                (start (new_file_Lecture (js "algebra.mp4")
                          (js "uploads/1-algebra.mp4") 0))) /\
  terminal (db (snd (processLecture demo_env demo_id (js "uploads/1-algebra.mp4")
                       (js "algebra.mp4")
                       (start (new_file_Lecture (js "algebra.mp4")
                                 (js "uploads/1-algebra.mp4") 0))))).
Proof.
  destruct (proj2 (proj2 (@accepted_uploads_are_processed demo_env accepting demo_id 0
                            None (Some a_file)))
              a_file eq_refl eq_refl) as (Hreply & _ & _ & _ & _ & Hterm).
  split; [exact Hreply|]. apply Hterm. vm_compute. reflexivity.
Defined.

Lemma accepted_links_are_processed_witness :
  upload_youtube_route demo_youtube_env accepting demo_id 0 (js "Algebra") demo_url
  = Returned (processing_started demo_id,
              processYouTubeLecture demo_youtube_env demo_id demo_url (js "Algebra")
                (start (new_youtube_Lecture (js "Algebra") demo_url 0))) /\
  terminal (db (snd (processYouTubeLecture demo_youtube_env demo_id demo_url
                       (js "Algebra")
                       (start (new_youtube_Lecture (js "Algebra") demo_url 0))))).
Proof.
  destruct (proj2 (@accepted_links_are_processed demo_youtube_env accepting demo_id 0
                     (js "Algebra") demo_url)
              eq_refl) as (Hreply & _ & _ & _ & _ & _ & Hterm).
  split; [exact Hreply|]. apply Hterm. vm_compute. reflexivity.
Defined.

Lemma presentation_replies_witness :
  download_ppt broken_site (Returned (Some processed_lecture))
  = error_reply 500 (js "Failed to generate presentation: " ++ js "disk full").
Proof.
  apply (proj2 (proj2 (proj2 (proj2
           (@presentation_replies broken_site (Returned (Some processed_lecture))))))
           write_error).
  vm_compute. reflexivity.
Defined.

Lemma chat_always_replies_witness :
  exists (r : reply) (w' : World),
    chat_route keyless_env show_integer None (Returned (Some processed_lecture))
               (start processed_lecture)
    = (Returned r, w') /\
    r = chatbot_failed /\ w' = start processed_lecture.
Proof.
  destruct (@chat_always_replies keyless_env show_integer None
              (Returned (Some processed_lecture)) (start processed_lecture))
    as (r & w' & Hrun & _ & _ & Hbody & _).
  exists r, w'. split; [exact Hrun | exact (Hbody eq_refl)].
Defined.

(* ================================================================= *)
(** ** The answer index after the shuffle *)

Lemma array_indexOf_range (text : looked_up) (items : list (nat * json)) (i : Z) :
  array_indexOf_from text items i = (-1)%Z \/
  (i <= array_indexOf_from text items i < i + Z.of_nat (length items))%Z.
Proof.
  revert i. induction items as [|x r IH]; intros i; [now left|].
  cbn [array_indexOf_from length]. destruct (strict_equals text x).
  - right. lia.
  - destruct (IH (i + 1)%Z) as [E|E]; [now left | right; lia].
Qed.

(** X23. Whatever [correctAnswer] was before (an index, a number out of range, a
    text, [null]), when the shuffle has run over an item that has an array
    of options, the options are a rearrangement of what they were and
    [correctAnswer] is a number: -1, or an index of the shuffled options. *)
Theorem shuffled_answer_is_an_index_or_minus_one :
  forall (env : Env) (fields : list (jsstring * json)) (items : list json)
         (c : json) (w : World) (item' : json) (w' : World),
    get_field options_key fields = Some (JArr items) ->
    get_field correctAnswer_key fields = Some c ->
    shuffle_quiz env (JObj fields) w = (Returned item', w') ->
    exists (fields' : list (jsstring * json)) (items' : list json) (k : Z),
      item' = JObj fields' /\
      get_field options_key fields' = Some (JArr items') /\
      Permutation items items' /\
      get_field correctAnswer_key fields' = Some (JNum (inject_Z k)) /\
      (-1 <= k < Z.of_nat (length items'))%Z.
Proof.
  intros env fields items c w item' w' Ho Hc Hrun.
  unfold shuffle_quiz in Hrun. rewrite Ho, Hc in Hrun. cbn [truthy] in Hrun.
  destruct (to_property_key c) as [key|e]; [|discriminate Hrun].
  unfold bind, sort_randomly, ret in Hrun.
  set (sorted := rearrange (sort_order env (sorts w)) (tag items)) in Hrun.
  injection Hrun as <- _.
  assert (Hne : options_key <> correctAnswer_key) by discriminate.
  eexists _, (map snd sorted), _. split; [reflexivity|].
  split; [rewrite ShuffleFacts.get_set_other by exact Hne;
          apply ShuffleFacts.get_set_same|].
  split.
  { replace items with (map snd (tag items)) at 1
      by apply ShuffleFacts.map_snd_tagged.
    apply Permutation_map, ShuffleFacts.rearrange_perm. }
  split; [apply ShuffleFacts.get_set_same|].
  rewrite length_map. unfold array_indexOf.
  destruct (array_indexOf_range (array_get items key) sorted 0) as [E|E]; [|lia].
  rewrite E. lia.
Qed.

Lemma shuffled_answer_is_an_index_or_minus_one_witness :
  exists (fields' : list (jsstring * json)) (items' : list json) (k : Z),
    fst (shuffle_quiz demo_env (JObj lettered_fields) (start a_lecture))
    = Returned (JObj fields') /\
    get_field options_key fields' = Some (JArr items') /\
    Permutation [JStr (js "a"); JStr (js "b"); JStr (js "c")] items' /\
    get_field correctAnswer_key fields' = Some (JNum (inject_Z k)) /\
    (-1 <= k < Z.of_nat (length items'))%Z.
Proof.
  destruct (shuffle_quiz demo_env (JObj lettered_fields) (start a_lecture))
    as [[item'|e] w'] eqn:Hrun; [|vm_compute in Hrun; discriminate Hrun].
  destruct (@shuffled_answer_is_an_index_or_minus_one demo_env lettered_fields
              [JStr (js "a"); JStr (js "b"); JStr (js "c")] (JStr (js "b"))
              (start a_lecture) item' w' eq_refl eq_refl Hrun)
    as (fields' & items' & k & -> & H).
  now exists fields', items', k.
Defined.

(* ================================================================= *)
(** ** What a failing tool leaves in the record *)

Section ToolFailures.

Variable env : Env.
Hypothesis reliable : store_reliable env.

Lemma failing_conversion (id vp title0 : jsstring) (w : World) (e : exn) :
  ffmpeg_audio env (S (length (trace w))) vp (audio_path env vp) = Thrown e ->
  processLecture env id vp title0 w
  = (Returned tt,
     persist id (failure_patch (message e))
       (record_event (EvExtractAudio vp (audio_path env vp))
          (persist id (stage_patch extracting_audio) w))).
Proof.
  intros Ha. unfold processLecture, try_catch, processLecture_try, bind.
  rewrite update_reliable by assumption. rewrite extractAudio_run.
  cbn [persist trace length]. rewrite Ha.
  unfold record_failure. now rewrite update_reliable by assumption.
Qed.

Lemma failing_transcription (id vp title0 : jsstring) (w : World) (e : exn) :
  ffmpeg_audio env (S (length (trace w))) vp (audio_path env vp) = Returned tt ->
  match whisper env (S (S (S (length (trace w))))) (audio_path env vp) with
  | WhisperClosed code errorOutput output =>
      if exited_zero code
      then output = None /\
           e = new_Error (js "Whisper finished, but output file not found.")
      else e = new_Error (js "Whisper failed: " ++ errorOutput)
  | WhisperNotStarted reason =>
      e = new_Error (js "Failed to start Whisper: " ++ reason)
  end ->
  processLecture env id vp title0 w
  = (Returned tt,
     persist id (failure_patch (message e))
       (record_event (EvTranscribe (audio_path env vp))
          (persist id (stage_patch transcribing)
             (record_event (EvExtractAudio vp (audio_path env vp))
                (persist id (stage_patch extracting_audio) w))))).
Proof.
  intros Ha Hw. unfold processLecture, try_catch, processLecture_try, bind.
  rewrite update_reliable by assumption. rewrite extractAudio_run.
  cbn [persist trace length]. rewrite Ha.
  rewrite update_reliable by assumption.
  unfold transcribeWithWhisper, bind. rewrite tool_run.
  cbn [persist record_event trace length].
  destruct (whisper env (S (S (S (length (trace w))))) (audio_path env vp))
    as [code errorOutput output|reason].
  - destruct (exited_zero code).
    + destruct Hw as (-> & ->). unfold throw, record_failure.
      now rewrite update_reliable by assumption.
    + subst e. unfold throw, record_failure.
      now rewrite update_reliable by assumption.
  - subst e. unfold throw, record_failure.
    now rewrite update_reliable by assumption.
Qed.

(** X24. With a store that accepts the writes, a file run reports the failure
    of a media tool in the words of the tool. When the conversion to audio
    fails, its error message is recorded as it is. When the transcription
    tool exits with a code other than 0 (or is ended by a signal), the
    record is "Whisper failed: " and what the tool wrote to its error
    stream; when it exits with 0 without leaving its output file, "Whisper
    finished, but output file not found."; when it cannot be started,
    "Failed to start Whisper: " and the reason. In each case the lecture is
    [failed], nothing has been sent to the AI backend, and the run has
    stopped at the failing tool. *)
Theorem media_failures_are_reported :
  forall (id vp title0 : jsstring) (w : World),
    let w' := snd (processLecture env id vp title0 w) in
    let audio := audio_path env vp in
    (forall e,
        ffmpeg_audio env (S (length (trace w))) vp audio = Thrown e ->
        processingError (db w') = Some (message e) /\
        processingStage (db w') = failed /\
        chronicle w'
        = chronicle w ++ [EvUpdate id (stage_patch extracting_audio) true;
                          EvExtractAudio vp audio;
                          EvUpdate id (failure_patch (message e)) true])
    /\
    (forall msg,
        ffmpeg_audio env (S (length (trace w))) vp audio = Returned tt ->
        match whisper env (S (S (S (length (trace w))))) audio with
        | WhisperClosed code errorOutput output =>
            if exited_zero code
            then output = None /\
                 msg = js "Whisper finished, but output file not found."
            else msg = js "Whisper failed: " ++ errorOutput
        | WhisperNotStarted reason =>
            msg = js "Failed to start Whisper: " ++ reason
        end ->
        processingError (db w') = Some msg /\
        processingStage (db w') = failed /\
        chronicle w'
        = chronicle w ++ [EvUpdate id (stage_patch extracting_audio) true;
                          EvExtractAudio vp audio;
                          EvUpdate id (stage_patch transcribing) true;
                          EvTranscribe audio;
                          EvUpdate id (failure_patch msg) true]).
Proof.
  intros id vp title0 w w' audio. subst w' audio. split.
  - intros e Ha. rewrite (@failing_conversion id vp title0 w e Ha).
    cbn [snd persist db]. split; [reflexivity|]. split; [reflexivity|].
    unfold chronicle. cbn [persist record_event trace rev].
    now rewrite <- !app_assoc.
  - intros msg Ha Hw.
    rewrite (@failing_transcription id vp title0 w (new_Error msg) Ha).
    + cbn [snd persist db]. split; [reflexivity|]. split; [reflexivity|].
      unfold chronicle. cbn [persist record_event trace rev message new_Error].
      now rewrite <- !app_assoc.
    + destruct (whisper env (S (S (S (length (trace w))))) (audio_path env vp))
        as [code errorOutput output|reason].
      * destruct (exited_zero code); [|now subst msg].
        destruct Hw as (-> & ->). now split.
      * now subst msg.
Qed.

(** X25. With a store that accepts the writes, a YouTube run whose download
    fails records what the downloader did: "yt-dlp failed with code <n>.
    Make sure it is installed and in your system's PATH." for an exit code
    other than 0 (the code reads "null" when a signal ended the process),
    and "Failed to start yt-dlp. Is it installed? Error: " with the reason
    when it could not be started. The lecture is then [failed] with no
    video path recorded, and nothing else has been run. *)
Theorem download_failures_are_reported :
  forall (id url title0 : jsstring) (w : World) (msg : jsstring),
    match yt_dlp env (S (length (trace w))) url (youtube_video_path id) with
    | Closed code =>
        exited_zero code = false /\
        msg = js "yt-dlp failed with code " ++ show_code code
              ++ js ". Make sure it is installed and in your system's PATH."
    | NotStarted reason =>
        msg = js "Failed to start yt-dlp. Is it installed? Error: " ++ reason
    end ->
    let w' := snd (processYouTubeLecture env id url title0 w) in
    processingError (db w') = Some msg /\
    processingStage (db w') = failed /\
    videoPath (db w') = videoPath (db w) /\
    chronicle w'
    = chronicle w ++ [EvUpdate id (stage_patch downloading) true;
                      EvDownload url id;
                      EvUpdate id (failure_patch msg) true].
Proof.
  intros id url title0 w msg Hd w'. subst w'.
  assert (E : processYouTubeLecture env id url title0 w
              = (Returned tt,
                 persist id (failure_patch msg)
                   (record_event (EvDownload url id)
                      (persist id (stage_patch downloading) w)))).
  { unfold processYouTubeLecture, try_catch, processYouTubeLecture_try, bind.
    rewrite update_reliable by assumption.
    unfold downloadYouTubeVideo, bind. rewrite tool_run.
    cbn [persist trace length].
    destruct (yt_dlp env (S (length (trace w))) url (youtube_video_path id))
      as [code|reason].
    - destruct Hd as (Hcode & ->). rewrite Hcode. unfold throw, record_failure.
      now rewrite update_reliable by assumption.
    - subst msg. unfold throw, record_failure.
      now rewrite update_reliable by assumption. }
  rewrite E. cbn [snd persist db]. split; [reflexivity|]. split; [reflexivity|].
  split; [reflexivity|].
  unfold chronicle. cbn [persist record_event trace rev].
  now rewrite <- !app_assoc.
Qed.

End ToolFailures.

Lemma media_failures_are_reported_witness :
  processingError (db (snd failed_transcription_run))
  = Some (js "Whisper failed: " ++ js "CUDA out of memory")
  /\
  processingStage (db (snd failed_transcription_run)) = failed.
Proof.
  assert (Hs : store_reliable (with_whisper demo_env out_of_memory))
    by (intros t id p; reflexivity).
  destruct (proj2 (@media_failures_are_reported (with_whisper demo_env out_of_memory)
                     Hs demo_id demo_path (js "Algebra") (start a_lecture))
              (js "Whisper failed: " ++ js "CUDA out of memory") eq_refl eq_refl)
    as (H1 & H2 & _).
  now split.
Defined.

Lemma download_failures_are_reported_witness :
  processingError (db (snd failed_download_run))
  = Some (js "yt-dlp failed with code 1. Make sure it is installed and in your system's PATH.")
  /\
  processingStage (db (snd failed_download_run)) = failed.
Proof.
  assert (Hs : store_reliable
                 (studio_with some_key helpful_backend (Closed (Some 1%Z))
                              (Returned tt) demo_order))
    by (intros t id p; reflexivity).
  destruct (@download_failures_are_reported
              (studio_with some_key helpful_backend (Closed (Some 1%Z))
                           (Returned tt) demo_order)
              Hs demo_id demo_url (js "Algebra") (start a_youtube_lecture)
              (js "yt-dlp failed with code 1. Make sure it is installed and in your system's PATH.")
              (conj eq_refl eq_refl))
    as (H1 & H2 & _).
  now split.
Defined.

(* ================================================================= *)
(** ** A failure after the transcript has been stored *)

Section LateFailures.

Variable env : Env.
Hypothesis reliable : store_reliable env.
Variable id : jsstring.
Variable w0 : World.

Lemma spent_extends (k : event_kind) (n : nat) (w w' : World) :
  extends w0 w -> spent k w n w' -> extends w0 w'.
Proof.
  intros (evs & E) (evs' & E' & _). exists (evs' ++ evs).
  now rewrite E', E, app_assoc.
Qed.

(** A step that leaves the document alone keeps a property of the document
    and of the events since [w0] that more events do not undo. *)
Lemma ends_carry {A : Type} (P : World -> Prop) (m : M A) (k : event_kind) (n : nat) :
  quiet m -> adds_at_most k n m ->
  (forall w w', P w -> db w' = db w -> (exists evs, trace w' = evs ++ trace w) -> P w') ->
  ends P m P P.
Proof.
  intros Hq Ha HP w r w' Hw Hrun.
  destruct (Hq w r w' Hrun) as (E & _).
  destruct (Ha w r w' Hrun) as (evs & Et & _).
  assert (H : P w') by (apply (HP w w' Hw E); now exists evs).
  destruct r; exact H.
Qed.

Lemma early_carries (w w' : World) :
  early w0 w -> db w' = db w -> (exists evs, trace w' = evs ++ trace w) -> early w0 w'.
Proof.
  intros ((evs & E) & Hs) Ed (evs' & E'). split.
  - exists (evs' ++ evs). now rewrite E', E, app_assoc.
  - now rewrite Ed.
Qed.

Lemma midway_carries (w w' : World) :
  midway id w0 w -> db w' = db w -> (exists evs, trace w' = evs ++ trace w) -> midway id w0 w'.
Proof.
  intros ((t & h & evs & E & Hin & Ht & Hh) & Hs) Ed (evs' & E'). split.
  - exists t, h, (evs' ++ evs). rewrite Ed. repeat split; try assumption.
    + now rewrite E', E, app_assoc.
    + apply in_or_app. now right.
  - now rewrite Ed.
Qed.

Lemma early_late (w : World) : early w0 w -> late id w0 w.
Proof.
  intros (_ & [H|H]) Hs; rewrite H in Hs; discriminate Hs.
Qed.

Lemma midway_late (w : World) : midway id w0 w -> late id w0 w.
Proof. intros (H & _) _. exact H. Qed.

Lemma processLecture_try_late (vp : jsstring) :
  ends (fun w => w = w0) (processLecture_try env id vp) (fun _ => True) (late id w0).
Proof.
  unfold processLecture_try.
  assert (Hearly : forall (A : Type) (m : M A) (k : event_kind) (n : nat),
             quiet m -> adds_at_most k n m -> ends (early w0) m (early w0) (late id w0)).
  { intros A m k n Hq Ha.
    apply ends_weaken with (P := early w0) (Qr := early w0) (Qt := early w0);
      [apply (@ends_carry A (early w0) m k n Hq Ha early_carries) | intros ? HH; exact HH
      | intros ? HH; exact HH | exact early_late]. }
  assert (Hmid : forall (A : Type) (m : M A) (k : event_kind) (n : nat),
             quiet m -> adds_at_most k n m -> ends (midway id w0) m (midway id w0) (late id w0)).
  { intros A m k n Hq Ha.
    apply ends_weaken with (P := midway id w0) (Qr := midway id w0) (Qt := midway id w0);
      [apply (@ends_carry A (midway id w0) m k n Hq Ha midway_carries) | intros ? HH; exact HH
      | intros ? HH; exact HH | exact midway_late]. }
  apply ends_bind with (R := early w0).
  { apply ends_update_reliable; [exact reliable|]. intros w ->. split.
    - now exists [EvUpdate id (stage_patch extracting_audio) true].
    - now left. }
  intros _. apply ends_bind with (R := early w0);
    [eapply Hearly; [apply quiet_extractAudio | apply (@adds_extractAudio env KUpdate)]
    | intros audioPath].
  apply ends_bind with (R := early w0).
  { apply ends_update_reliable; [exact reliable|]. intros w ((evs & E) & _). split.
    - exists (EvUpdate id (stage_patch transcribing) true :: evs).
      cbn [persist trace app]. now rewrite E.
    - now right. }
  intros _. apply ends_bind with (R := early w0);
    [eapply Hearly; [apply quiet_transcribeWithWhisper
                    | apply (@adds_transcribe env KUpdate)]
    | intros rawTranscript].
  apply ends_bind with (R := early w0);
    [eapply Hearly; [apply quiet_callAI | apply (@adds_formatTranscript env KUpdate)]
    | intros transcript].
  apply ends_bind with (R := early w0);
    [eapply Hearly; [apply quiet_tool | apply (@adds_render env KUpdate)]
    | intros transcriptHtml0].
  apply ends_bind with (R := midway id w0).
  { apply ends_update_reliable; [exact reliable|]. intros w ((evs & E) & _). split.
    - exists transcript, transcriptHtml0,
        (EvUpdate id (transcript_patch transcript transcriptHtml0) true :: evs).
      cbn [persist trace app db]. rewrite E.
      split; [reflexivity|]. split; [now left|]. now split.
    - reflexivity. }
  intros _. apply ends_bind with (R := midway id w0);
    [eapply Hmid; [apply quiet_callAI | apply (@adds_generateSummary env KUpdate)]
    | intros summary].
  apply ends_bind with (R := midway id w0);
    [eapply Hmid; [apply quiet_tool | apply (@adds_render env KUpdate)]
    | intros summaryHtml0].
  apply ends_bind with (R := midway id w0);
    [eapply Hmid; [apply quiet_generateQuizzes
                  | apply (@adds_generateQuizzes env KUpdate)]
    | intros quizzes0].
  apply ends_bind with (R := midway id w0);
    [eapply Hmid; [apply quiet_extractFrames | apply (@adds_extractFrames env KUpdate)]
    | intros slides0].
  apply ends_bind with (R := fun w => processingStage (db w) = complete).
  { apply ends_update_reliable; [exact reliable|]. intros w _. reflexivity. }
  intros _ w r w' Hw Hrun. unfold remove_if_exists in Hrun.
  rewrite tool_run in Hrun. injection Hrun as <- <-.
  destruct (unlink_file env (length (trace w)) audioPath); [exact I|].
  intros Hs. cbn [record_event db] in Hs. rewrite Hw in Hs. discriminate Hs.
Qed.

End LateFailures.

(** X26. With a store that accepts the writes: when a file run fails while the
    lecture is in stage [summarizing] (the summary, the quiz or the frames
    could not be made), the transcript this run has stored, and its markup,
    stay in the document. The lecture ends [failed] with the error message
    and with that transcript, and the status route reports [hasTranscript]
    (for a transcript that is not empty) next to the failure. *)
Theorem late_failures_keep_the_transcript :
  forall (env : Env),
    store_reliable env ->
    forall (id vp title0 : jsstring) (w : World) (e : exn) (w1 : World),
      processLecture_try env id vp w = (Thrown e, w1) ->
      processingStage (db w1) = summarizing ->
      transcript_kept id w w1 /\
      exists (t h : jsstring),
        let w' := snd (processLecture env id vp title0 w) in
        transcriptMd (db w1) = Some t /\
        transcriptMd (db w') = Some t /\
        transcriptHtml (db w') = Some h /\
        processingStage (db w') = failed /\
        processingError (db w') = Some (message e) /\
        match get_status (Some (db w')) with
        | Progress body =>
            isComplete body = false /\
            stage body = failed /\
            error body = Some (message e) /\
            hasTranscript body = negb (Str.is_empty t)
        | NotFound _ => False
        end.
Proof.
  intros env Hs id vp title0 w e w1 Htry Hstage.
  pose proof (@processLecture_try_late env Hs id w vp w (Thrown e) w1 eq_refl Htry
                Hstage) as Hkept.
  split; [exact Hkept|].
  destruct Hkept as (t & h & evs & _ & _ & Ht & Hh).
  destruct (record_failure_reliable id e w1 Hs) as (E & _).
  exists t, h. cbv zeta.
  unfold processLecture, try_catch. rewrite Htry, E. cbn [snd persist db].
  assert (Ht' : transcriptMd (apply_patch (failure_patch (message e)) (db w1)) = Some t)
    by exact Ht.
  assert (Hh' : transcriptHtml (apply_patch (failure_patch (message e)) (db w1)) = Some h)
    by exact Hh.
  split; [exact Ht|]. split; [exact Ht'|]. split; [exact Hh'|].
  split; [reflexivity|]. split; [reflexivity|].
  cbn [get_status isComplete stage error hasTranscript].
  rewrite Ht'.
  split; [reflexivity|]. split; [reflexivity|]. split; [reflexivity|].
  now destruct t.
Qed.

Lemma late_failures_keep_the_transcript_witness :
  transcript_kept demo_id (start a_lecture) (snd failed_summary_try) /\
  exists (t h : jsstring),
    let w' := snd (processLecture failed_summary_env demo_id demo_path
                     (js "Algebra") (start a_lecture)) in
    transcriptMd (db (snd failed_summary_try)) = Some t /\
    transcriptMd (db w') = Some t /\
    transcriptHtml (db w') = Some h /\
    processingStage (db w') = failed /\
    processingError (db w') = Some (message (new_Error ai_failure_message)) /\
    match get_status (Some (db w')) with
    | Progress body =>
        isComplete body = false /\
        stage body = failed /\
        error body = Some (message (new_Error ai_failure_message)) /\
        hasTranscript body = negb (Str.is_empty t)
    | NotFound _ => False
    end.
Proof.
  assert (Hs : store_reliable failed_summary_env) by (intros t id p; reflexivity).
  apply (@late_failures_keep_the_transcript failed_summary_env Hs demo_id demo_path
           (js "Algebra") (start a_lecture) (new_Error ai_failure_message)
           (snd failed_summary_try)).
  - vm_compute. reflexivity.
  - vm_compute. reflexivity.
Defined.
